(** * Inventory store ([inventory_system.py]): model and properties

    The module keeps one process-wide dictionary [stock_data] from item
    names to quantities and offers [add_item], [remove_item], [get_qty],
    [save_data], [load_data] and [check_low_items] over it.

    Modelling choices.
    - A Python [float] is an IEEE 754 binary64 number: [spec_float] of the
      standard library with [prec = 53] and [emax = 1024]; [+], [-] and the
      comparisons are the correctly rounded operations of [SpecFloat].
    - A Python [int] is a [Z]; [bool] is a subclass of [int], so
      [isinstance(True, (int, float))] holds and [True] counts as [1].
      [float(n)] rounds to nearest even and raises [OverflowError] when
      the result is out of range; comparing an [int] with a [float] is
      exact, as in CPython.
    - A [str] is the sequence of its code points, the surrogates too;
      [strip] removes the code points Python treats as white space.
    - A [dict] keeps insertion order: an association list with unique keys.
    - Every function runs in a state-and-exception monad over the [world]
      (the dictionary and the file system): a call returns an outcome and
      the world it leaves behind, also when it raises.
    - A file is what [open] and [json.load] make of it: the value
      [json.load] reads, a text it rejects, or a file [open] refuses.
      [json.dump] writes the value of the dictionary, when UTF-8 encodes
      its names. The text level of JSON is the [json] module's business
      and is not modelled.
    - [add_item], [remove_item], [save_data] and [load_data] are modelled
      twice: over the [world], without the record they log, and over the
      [process], with it. The process adds the side channels to the world:
      the log, which is the file ["inventory.log"] of the same file
      system, the caller's list [logs], and the console, which raises on a
      line its encoding has no bytes for. *)

From Stdlib Require Import ZArith NArith List Bool Lia FinFun.
From Stdlib Require Import Strings.Byte Floats.SpecFloat.
Import ListNotations.

(** ** Python strings *)

(** A [str] is the sequence of its code points. Any code point can occur,
    the surrogates too: ["\ud800"] is a string of Python. *)
Inductive string : Type :=
| EmptyString
| String (c : N) (rest : string).

(** A literal stands for the string of its ASCII characters. *)
Fixpoint string_of_bytes (l : list byte) : option string :=
  match l with
  | [] => Some EmptyString
  | b :: rest =>
      match string_of_bytes rest with
      | Some s => if (Byte.to_N b <? 128)%N then Some (String (Byte.to_N b) s) else None
      | None => None
      end
  end.

Fixpoint bytes_of_string (s : string) : option (list byte) :=
  match s with
  | EmptyString => Some []
  | String c rest =>
      match Byte.of_N c, bytes_of_string rest with
      | Some b, Some l => if (c <? 128)%N then Some (b :: l) else None
      | _, _ => None
      end
  end.

Declare Scope string_scope.
Delimit Scope string_scope with string.
Bind Scope string_scope with string.
String Notation string string_of_bytes bytes_of_string : string_scope.

Local Open Scope string_scope.
Local Open Scope list_scope.
Local Open Scope Z_scope.

(** ** Python floats *)

Definition prec : Z := 53.
Definition emax : Z := 1024.

Definition pyfloat : Type := spec_float.

Definition fadd : pyfloat -> pyfloat -> pyfloat := SFadd prec emax.
Definition fsub : pyfloat -> pyfloat -> pyfloat := SFsub prec emax.
Definition flt : pyfloat -> pyfloat -> bool := SFltb.
Definition fle : pyfloat -> pyfloat -> bool := SFleb.
Definition feq : pyfloat -> pyfloat -> bool := SFeqb.

(** [0.0] *)
Definition fzero : pyfloat := S754_zero false.

(** The values a Python float can take: canonical mantissa, exponent in
    range. *)
Definition fvalid (f : pyfloat) : bool := valid_binary prec emax f.

(** The float nearest to an integer (ties to even); an infinity when the
    integer is beyond the largest float. *)
Definition float_of_Z (z : Z) : pyfloat := binary_normalize prec emax z 0 false.

(** The smallest exponent of a float. *)
Definition femin : Z := emin prec emax.

(** A float that is zero, finite or infinite with sign [s], or a NaN. *)
Definition signed (s : bool) (f : pyfloat) : Prop :=
  match f with
  | S754_zero s' | S754_infinity s' | S754_finite s' _ _ => s' = s
  | S754_nan => True
  end.

(** A float that is finite and not zero, or infinite, with sign [s]. *)
Definition nonzero_signed (s : bool) (f : pyfloat) : Prop :=
  match f with
  | S754_infinity s' | S754_finite s' _ _ => s' = s
  | _ => False
  end.

(** The value of a finite float as an integer multiple of [2 ^ ez]. *)
Definition aligned (s : bool) (m : positive) (e ez : Z) : Z :=
  cond_Zopp s (Zpos m * 2 ^ (e - ez)).

(** The value of [m * 2 ^ e] in units of the smallest positive float. *)
Definition scaled (m e : Z) : Z := m * 2 ^ (e - femin).

(** Some bit shifted out of a mantissa was not zero. *)
Definition inexact (mrs : shr_record) : bool := shr_r mrs || shr_s mrs.

(** ** Python values *)

#[local] Set Warnings "-register-all".

Inductive value : Type :=
| VNone
| VBool (b : bool)
| VInt (z : Z)
| VFloat (f : pyfloat)
| VStr (s : string)
| VList (l : list value)
| VDict (items : list (value * value)).

(** [isinstance(v, str)], with the string when it holds. *)
Definition as_str (v : value) : option string :=
  match v with
  | VStr s => Some s
  | _ => None
  end.

(** The instances of [int] and [float]. *)
Inductive number : Type :=
| NInt (z : Z)
| NFloat (f : pyfloat).

(** [isinstance(v, (int, float))], with the number when it holds. *)
Definition as_number (v : value) : option number :=
  match v with
  | VBool b => Some (NInt (Z.b2z b))
  | VInt z => Some (NInt z)
  | VFloat f => Some (NFloat f)
  | _ => None
  end.

Definition isinstance_dict (v : value) : bool :=
  match v with
  | VDict _ => true
  | _ => false
  end.

(** Exact comparison of a float with an integer. *)
Definition compare_float_Z (f : pyfloat) (z : Z) : option comparison :=
  match f with
  | S754_nan => None
  | S754_infinity s => Some (if s then Lt else Gt)
  | S754_zero _ => Some (0 ?= z)
  | S754_finite s m e =>
      Some (if 0 <=? e
            then cond_Zopp s (Zpos m * 2 ^ e) ?= z
            else cond_Zopp s (Zpos m) ?= z * 2 ^ (- e))
  end.

Definition option_CompOpp (c : option comparison) : option comparison :=
  match c with
  | Some c => Some (CompOpp c)
  | None => None
  end.

(** Python's ordering of numbers; [None] when a NaN is involved. *)
Definition num_compare (a b : number) : option comparison :=
  match a, b with
  | NInt x, NInt y => Some (x ?= y)
  | NFloat x, NFloat y => SFcompare x y
  | NFloat x, NInt y => compare_float_Z x y
  | NInt x, NFloat y => option_CompOpp (compare_float_Z y x)
  end.

(** [a < b], [a <= b], [a > b], [a >= b] *)
Definition num_lt (a b : number) : bool :=
  match num_compare a b with
  | Some Lt => true
  | _ => false
  end.

Definition num_le (a b : number) : bool :=
  match num_compare a b with
  | Some (Lt | Eq) => true
  | _ => false
  end.

Definition num_gt (a b : number) : bool := num_lt b a.
Definition num_ge (a b : number) : bool := num_le b a.

(** ** Exceptions *)

(** The message of an exception: its text with the values the f-string
    interpolates. *)
Inductive message : Type :=
| MsgItem                       (* "Item must be a non-empty string." *)
| MsgQuantityNonNegative        (* "Quantity must be a non-negative number." *)
| MsgQuantityPositive           (* "Quantity must be a positive number." *)
| MsgNotFound (item : string)   (* "Item '{item}' not found in inventory." *)
| MsgInsufficient (item : string) (available : pyfloat) (tried : value)
      (* "Insufficient stock for '{item}'. Available: {..}, Tried to remove: {qty}" *)
| MsgFileObject                 (* "Inventory file must contain a JSON object." *)
| MsgFileEntries                (* "Inventory must map strings to numeric values." *)
| MsgThreshold                  (* "Threshold must be a non-negative number." *)
| MsgJSONDecode                 (* json.JSONDecodeError, a ValueError *)
| MsgNullByte                   (* "embedded null byte", of [open] *)
| MsgKey (key : value).         (* the key of a failed subscript *)

Inductive exn : Type :=
| ValueError (m : message)
| KeyError (m : message)
| OverflowError
| TypeError
| OSError
| UnicodeEncodeError.

(** [float(n)] *)
Definition to_float (n : number) : exn + pyfloat :=
  match n with
  | NFloat f => inr f
  | NInt z =>
      match float_of_Z z with
      | S754_infinity _ => inl OverflowError
      | f => inr f
      end
  end.

(** The numbers Python can hold: any integer, and the floats of binary64. *)
Definition number_wf (n : number) : Prop :=
  match n with
  | NInt _ => True
  | NFloat f => fvalid f = true
  end.

(** The exact value of a number, in units of the smallest positive float
    so that it is an integer, or an infinity; a NaN has none. *)
Inductive extended : Type :=
| MinusInfinity
| Finite (z : Z)
| PlusInfinity.

Definition extended_compare (x y : extended) : comparison :=
  match x, y with
  | MinusInfinity, MinusInfinity => Eq
  | MinusInfinity, _ => Lt
  | _, MinusInfinity => Gt
  | PlusInfinity, PlusInfinity => Eq
  | PlusInfinity, _ => Gt
  | _, PlusInfinity => Lt
  | Finite a, Finite b => a ?= b
  end.

Definition float_value (f : pyfloat) : option extended :=
  match f with
  | S754_nan => None
  | S754_infinity s => Some (if s then MinusInfinity else PlusInfinity)
  | S754_zero _ => Some (Finite 0)
  | S754_finite s m e => Some (Finite (cond_Zopp s (scaled (Zpos m) e)))
  end.

Definition number_value (n : number) : option extended :=
  match n with
  | NInt z => Some (Finite (scaled z 0))
  | NFloat f => float_value f
  end.

(** ** Strings *)

(** [s == t] *)
Fixpoint string_eqb (s t : string) : bool :=
  match s, t with
  | EmptyString, EmptyString => true
  | String c s', String d t' => (c =? d)%N && string_eqb s' t'
  | _, _ => false
  end.

(** The code points [str.isspace] holds of, which [str.strip] removes:
    U+0009 to U+000D, U+001C to U+0020, U+0085, U+00A0, U+1680, U+2000 to
    U+200A, U+2028, U+2029, U+202F, U+205F and U+3000. *)
Definition isspace (c : N) : bool :=
  (((9 <=? c) && (c <=? 13)) || ((28 <=? c) && (c <=? 32))
   || (c =? 133) || (c =? 160) || (c =? 5760)
   || ((8192 <=? c) && (c <=? 8202))
   || (c =? 8232) || (c =? 8233) || (c =? 8239) || (c =? 8287) || (c =? 12288))%N.

Fixpoint lstrip (s : string) : string :=
  match s with
  | EmptyString => EmptyString
  | String c rest => if isspace c then lstrip rest else s
  end.

Fixpoint rstrip (s : string) : string :=
  match s with
  | EmptyString => EmptyString
  | String c rest =>
      match rstrip rest with
      | EmptyString => if isspace c then EmptyString else String c EmptyString
      | rest' => String c rest'
      end
  end.

(** [s.strip()] *)
Definition strip (s : string) : string := rstrip (lstrip s).

(** The truth value of a string. *)
Definition str_bool (s : string) : bool :=
  match s with
  | EmptyString => false
  | String _ _ => true
  end.

(** The code points UTF-8 encodes: all but the surrogates U+D800 to
    U+DFFF. *)
Definition utf8_char (c : N) : bool :=
  ((c <? 55296) || ((57343 <? c) && (c <=? 1114111)))%N.

(** [s.encode("utf-8")] does not raise. *)
Fixpoint utf8_encodable (s : string) : bool :=
  match s with
  | EmptyString => true
  | String c rest => utf8_char c && utf8_encodable rest
  end.

(** The string holds the code point 0. *)
Fixpoint has_nul (s : string) : bool :=
  match s with
  | EmptyString => false
  | String c rest => (c =? 0)%N || has_nul rest
  end.

(** ** Dictionaries from strings to floats, in insertion order *)

Definition dict : Type := list (string * pyfloat).

Fixpoint dict_get (k : string) (d : dict) : option pyfloat :=
  match d with
  | [] => None
  | (k', v) :: rest => if string_eqb k k' then Some v else dict_get k rest
  end.

(** [k in d] *)
Definition dict_contains (k : string) (d : dict) : bool :=
  match dict_get k d with
  | Some _ => true
  | None => false
  end.

(** [d.get(k, default)] *)
Definition dict_get_default (k : string) (default : pyfloat) (d : dict) : pyfloat :=
  match dict_get k d with
  | Some v => v
  | None => default
  end.

(** [d[k] = v]: a present key keeps its place, a new one goes last. *)
Fixpoint dict_set (k : string) (v : pyfloat) (d : dict) : dict :=
  match d with
  | [] => [(k, v)]
  | (k', v') :: rest =>
      if string_eqb k k' then (k, v) :: rest else (k', v') :: dict_set k v rest
  end.

(** [del d[k]] for a present key: the entry of [k] goes, the others keep
    their order. *)
Fixpoint dict_del (k : string) (d : dict) : dict :=
  match d with
  | [] => []
  | (k', v') :: rest =>
      if string_eqb k k' then dict_del k rest else (k', v') :: dict_del k rest
  end.

Definition dict_keys (d : dict) : list string := map fst d.

(** The keys of a dictionary are pairwise distinct. *)
Definition dict_wf (d : dict) : Prop := NoDup (dict_keys d).

(** ** The world: the module's global and the file system *)

(** What is under a path, as far as [open] and [json.load] can tell. A
    path stands for the file it resolves to: two paths of the model are
    equal when they name the same file. The file system lists the paths
    under which there is something; under a path it does not list there is
    no file, and one can be made. *)
Inductive file : Type :=
| Json (v : value)      (* a text that [json.load] parses to [v] *)
| Unparsable            (* a text that [json.load] rejects, also when log
                           records follow it *)
| ReadOnly (parsed : option value)
                        (* a file that cannot be opened for writing: a text
                           that [json.load] parses, or one it rejects *)
| WriteOnly             (* a file that cannot be opened for reading *)
| Unopenable.           (* what [open] refuses either way: a directory, a
                           path below a missing directory, a name the
                           system has no room for *)

Definition filesystem : Type := list (string * file).

Fixpoint fs_read (path : string) (fs : filesystem) : option file :=
  match fs with
  | [] => None
  | (p, f) :: rest => if string_eqb path p then Some f else fs_read path rest
  end.

Definition fs_write (path : string) (f : file) (fs : filesystem) : filesystem :=
  (path, f) :: fs.

(** What [open] raises for a path before it looks for the file: the path
    is encoded for the file system (UTF-8 with [surrogateescape] on a POSIX
    system, which has a byte for the surrogates U+DC80 to U+DCFF and for no
    other), a NUL cannot be in a path, and no file has the empty name. *)
Definition fs_char (c : N) : bool :=
  (utf8_char c || ((56448 <=? c) && (c <=? 56575)))%N.

Fixpoint fs_encodable (s : string) : bool :=
  match s with
  | EmptyString => true
  | String c rest => fs_char c && fs_encodable rest
  end.

Definition path_refused (path : string) : option exn :=
  if negb (fs_encodable path) then Some UnicodeEncodeError
  else if has_nul path then Some (ValueError MsgNullByte)
  else if str_bool path then None
  else Some OSError.

(** [with open(path, "r", encoding="utf-8") as file: json.load(file)]: the
    value, or the exception of [open] or of [json.load]. *)
Definition read_json (path : string) (fs : filesystem) : exn + value :=
  match path_refused path with
  | Some e => inl e
  | None =>
      match fs_read path fs with
      | Some (Json v) | Some (ReadOnly (Some v)) => inr v
      | Some Unparsable | Some (ReadOnly None) => inl (ValueError MsgJSONDecode)
      | Some WriteOnly | Some Unopenable | None => inl OSError
      end
  end.

(** [open(path, "w", encoding="utf-8")]: the exception it raises, if any.
    It makes the file when there is none. *)
Definition open_for_writing (path : string) (fs : filesystem) : option exn :=
  match path_refused path with
  | Some e => Some e
  | None =>
      match fs_read path fs with
      | Some (Json _) | Some Unparsable | Some WriteOnly | None => None
      | Some (ReadOnly _) | Some Unopenable => Some OSError
      end
  end.

(** The file system after [text] was written over the file at [path]; a
    file that cannot be read stays so. *)
Definition written (path : string) (text : file) (fs : filesystem) : filesystem :=
  match fs_read path fs with
  | Some WriteOnly => fs
  | _ => fs_write path text fs
  end.

Record world : Type := World { stock_data : dict; files : filesystem }.

(** At import time: [stock_data = {}]. *)
Definition initial (fs : filesystem) : world :=
  {| stock_data := []; files := fs |}.

(** ** The monad of Python calls *)

Inductive outcome (A : Type) : Type :=
| Return (a : A)
| Raise (e : exn).

Arguments Return {A} a.
Arguments Raise {A} e.

Definition Py (A : Type) : Type := world -> outcome A * world.

Definition ret {A} (a : A) : Py A := fun w => (Return a, w).

Definition raise {A} (e : exn) : Py A := fun w => (Raise e, w).

Definition bind {A B} (c : Py A) (k : A -> Py B) : Py B :=
  fun w =>
    match c w with
    | (Return a, w') => k a w'
    | (Raise e, w') => (Raise e, w')
    end.

Notation "x <- c ;; k" := (bind c (fun x => k))
  (at level 61, c at next level, right associativity).
Notation "c ;; k" := (bind c (fun _ => k))
  (at level 61, right associativity).

Definition get_stock : Py dict := fun w => (Return (stock_data w), w).

Definition put_stock (d : dict) : Py unit :=
  fun w => (Return tt, {| stock_data := d; files := files w |}).

Definition lift {A} (r : exn + A) : Py A :=
  match r with
  | inl e => raise e
  | inr a => ret a
  end.

(** [if cond: raise e] *)
Definition raise_if (cond : bool) (e : exn) : Py unit :=
  if cond then raise e else ret tt.

(** ** The operations *)

(** The guard shared by [add_item] and [remove_item]:
    [if not isinstance(item, str) or not item.strip(): raise ValueError]. *)
Definition check_item (item : value) : Py string :=
  match as_str item with
  | Some name =>
      if str_bool (strip name) then ret name else raise (ValueError MsgItem)
  | None => raise (ValueError MsgItem)
  end.

(** [if not isinstance(qty, (int, float)) or bad(qty): raise ValueError(m)] *)
Definition check_number (v : value) (bad : number -> bool) (m : message) : Py number :=
  match as_number v with
  | Some n => if bad n then raise (ValueError m) else ret n
  | None => raise (ValueError m)
  end.

Definition add_item (item qty : value) : Py unit :=
  name <- check_item item ;;
  n <- check_number qty (fun n => num_lt n (NInt 0)) MsgQuantityNonNegative ;;
  d <- get_stock ;;
  f <- lift (to_float n) ;;
  put_stock (dict_set name (fadd (dict_get_default name fzero d) f) d).

Definition remove_item (item qty : value) : Py unit :=
  name <- check_item item ;;
  n <- check_number qty (fun n => num_le n (NInt 0)) MsgQuantityPositive ;;
  d <- get_stock ;;
  match dict_get name d with
  | None => raise (KeyError (MsgNotFound name))
  | Some available =>
      f <- lift (to_float n) ;;
      let new_qty := fsub available f in
      raise_if (flt new_qty fzero)
               (ValueError (MsgInsufficient name available qty)) ;;
      if feq new_qty fzero
      then put_stock (dict_del name d)
      else put_stock (dict_set name new_qty d)
  end.

(** [stock_data[item]]: a list or a dict is unhashable, and no other value
    than a string equals a key of the dictionary. *)
Definition subscript (item : value) (d : dict) : exn + pyfloat :=
  match item with
  | VStr name =>
      match dict_get name d with
      | Some v => inr v
      | None => inl (KeyError (MsgKey item))
      end
  | VList _ | VDict _ => inl TypeError
  | _ => inl (KeyError (MsgKey item))
  end.

Definition get_qty (item : value) : Py pyfloat :=
  d <- get_stock ;;
  v <- lift (subscript item d) ;;
  lift (to_float (NFloat v)).

(** What [json.load] reads back from the text [json.dump] writes for the
    dictionary. *)
Definition dump (d : dict) : value :=
  VDict (map (fun kv => (VStr (fst kv), VFloat (snd kv))) d).

(** [json.dump(stock_data, file, indent=2, ensure_ascii=False)] into a
    UTF-8 file writes the names as they are: it succeeds when UTF-8
    encodes every name. *)
Definition dumpable (d : dict) : bool := forallb utf8_encodable (dict_keys d).

(** [save_data], without its log record. [open] truncates the file; a
    [json.dump] that fails on a name has written the start of an object,
    which is not JSON. *)
Definition save_data (file_path : string) : Py unit :=
  fun w =>
    match open_for_writing file_path (files w) with
    | Some e => (Raise e, w)
    | None =>
        if dumpable (stock_data w)
        then (Return tt,
              {| stock_data := stock_data w;
                 files := written file_path (Json (dump (stock_data w))) (files w) |})
        else (Raise UnicodeEncodeError,
              {| stock_data := stock_data w;
                 files := written file_path Unparsable (files w) |})
    end.

(** [with open(file_path) as file: data = json.load(file)] *)
Definition json_load (file_path : string) : Py value :=
  fun w => lift (read_json file_path (files w)) w.

(** The body of [for key, value in data.items()]. *)
Fixpoint load_entries (items : list (value * value)) : Py unit :=
  match items with
  | [] => ret tt
  | (key, v) :: rest =>
      match as_str key, as_number v with
      | Some k, Some n =>
          f <- lift (to_float n) ;;
          d <- get_stock ;;
          put_stock (dict_set k f d) ;;
          load_entries rest
      | _, _ => raise (ValueError MsgFileEntries)
      end
  end.

Definition load_data (file_path : string) : Py unit :=
  data <- json_load file_path ;;
  match data with
  | VDict items =>
      put_stock [] ;;
      load_entries items
  | _ => raise (ValueError MsgFileObject)
  end.

(** [[item for item, qty in stock_data.items() if qty < threshold]] *)
Fixpoint low_items (threshold : number) (d : dict) : list string :=
  match d with
  | [] => []
  | (item, qty) :: rest =>
      if num_lt (NFloat qty) threshold
      then item :: low_items threshold rest
      else low_items threshold rest
  end.

Definition check_low_items (threshold : value) : Py (list string) :=
  t <- check_number threshold (fun t => num_lt t (NInt 0)) MsgThreshold ;;
  d <- get_stock ;;
  ret (low_items t d).

(** The default [threshold=5]. *)
Definition check_low_items_default : Py (list string) := check_low_items (VInt 5).

(** ** The calls of [main] *)

Definition main_calls : Py (pyfloat * list string) :=
  add_item (VStr "apple") (VInt 10) ;;
  add_item (VStr "banana") (VInt 3) ;;
  remove_item (VStr "apple") (VInt 2) ;;
  q <- get_qty (VStr "apple") ;;
  low <- check_low_items_default ;;
  save_data "inventory.json" ;;
  load_data "inventory.json" ;;
  ret (q, low).


(** ** The side channels: the log, the caller's list, the console *)

(** [logging.basicConfig(filename="inventory.log", ...)]: the records go
    to this file, which the import of the module opens for appending. It
    is a file like any other: [save_data] and [load_data] accept its
    path. *)
Definition log_path : string := "inventory.log".

(** The file system after a record was appended to the log. The handler
    has opened the file when the module was imported and appends to it
    whatever has become of the path since. A text [json.load] parsed is,
    with a record after it, a text it rejects: a record starts with the
    digits of its time and goes on with [" - INFO - "]. A log that was
    removed or made unreadable after the import stays so. *)
Definition log_written (fs : filesystem) : filesystem :=
  match fs_read log_path fs with
  | Some (Json _) => fs_write log_path Unparsable fs
  | Some (ReadOnly (Some _)) => fs_write log_path (ReadOnly None) fs
  | _ => fs
  end.

(** A record of [logging.info]: the format with its arguments. *)
Inductive log_record : Type :=
| InfoAdded (qty item : value)        (* "Added %.2f of %s" *)
| InfoRemovedDeleted (qty item : value)
                                      (* "Removed %.2f of %s (deleted at zero)." *)
| InfoRemoved (qty item : value) (new_qty : pyfloat)
                                      (* "Removed %.2f of %s (new qty: %.2f)." *)
| InfoSaved (count : nat) (file_path : string)   (* "Saved %d items to %s" *)
| InfoLoaded (count : nat) (file_path : string). (* "Loaded %d items from %s" *)

(** An entry of the list [logs]: f"{timestamp}: Added {qty} of {item}". *)
Inductive log_entry : Type :=
| LogAdded (timestamp : string) (qty item : value).

(** A line of standard output. *)
Inductive out_line : Type :=
| OutReport                               (* "Items Report" *)
| OutItem (item : string) (qty : pyfloat) (* f"{item} -> {qty}" *)
| OutAppleStock (qty : pyfloat)           (* "Apple stock:", qty *)
| OutLowItems (items : list string).      (* "Low items:", items *)

(** The process: the world, the records it has logged, the lines it has
    printed, and the lines the encoding of its standard output can
    encode. *)
Record process : Type :=
  Process { memory : world; log_file : list log_record; stdout : list out_line;
            console : out_line -> bool }.

Definition IO (A : Type) : Type := process -> outcome A * process.

Definition io_ret {A} (a : A) : IO A := fun p => (Return a, p).

Definition io_bind {A B} (c : IO A) (k : A -> IO B) : IO B :=
  fun p =>
    match c p with
    | (Return a, p') => k a p'
    | (Raise e, p') => (Raise e, p')
    end.

Declare Scope io_scope.
Delimit Scope io_scope with io.
Notation "x <- c ;; k" := (io_bind c (fun x => k))
  (at level 61, c at next level, right associativity) : io_scope.
Notation "c ;; k" := (io_bind c (fun _ => k))
  (at level 61, right associativity) : io_scope.

(** A call that works on the world alone. *)
Definition run_py {A} (c : Py A) : IO A :=
  fun p =>
    let (o, w') := c (memory p) in
    (o, {| memory := w'; log_file := log_file p; stdout := stdout p;
           console := console p |}).

(** [logging.info(...)]: the record is appended to the log file. The
    handler escapes what the file's encoding cannot encode, and [logging]
    keeps its own failures to itself: the call never raises. *)
Definition logging_info (r : log_record) : IO unit :=
  fun p =>
    (Return tt,
     {| memory := {| stock_data := stock_data (memory p);
                     files := log_written (files (memory p)) |};
        log_file := log_file p ++ [r];
        stdout := stdout p;
        console := console p |}).

(** [print(...)] to an open standard output: the line is written, or
    [UnicodeEncodeError] is raised when the encoding of the output cannot
    encode it, and nothing of it is written. *)
Definition print (l : out_line) : IO unit :=
  fun p =>
    if console p l
    then (Return tt,
          {| memory := memory p; log_file := log_file p; stdout := stdout p ++ [l];
             console := console p |})
    else (Raise UnicodeEncodeError, p).

(** [add_item] with its side channels. [logs] is the caller's list, or
    [None]; the call returns the list as it leaves it. [now] is what
    [datetime.now().isoformat()] gives when the call reaches it. *)
Definition add_item_logged (item qty : value) (logs : option (list log_entry))
           (now : string) (p : process)
  : outcome unit * process * option (list log_entry) :=
  match run_py (add_item item qty) p with
  | (Return _, p1) =>
      (logging_info (InfoAdded qty item) p1,
       match logs with
       | Some entries => Some (entries ++ [LogAdded now qty item])
       | None => None
       end)
  | (Raise e, p1) => ((Raise e, p1), logs)
  end.

(** [remove_item] with its log records. *)
Definition remove_item_logged (item qty : value) : IO unit :=
  (name <- run_py (check_item item) ;;
   n <- run_py (check_number qty (fun n => num_le n (NInt 0)) MsgQuantityPositive) ;;
   d <- run_py get_stock ;;
   match dict_get name d with
   | None => run_py (raise (KeyError (MsgNotFound name)))
   | Some available =>
       f <- run_py (lift (to_float n)) ;;
       let new_qty := fsub available f in
       run_py (raise_if (flt new_qty fzero)
                        (ValueError (MsgInsufficient name available qty))) ;;
       if feq new_qty fzero
       then run_py (put_stock (dict_del name d)) ;;
            logging_info (InfoRemovedDeleted qty item)
       else run_py (put_stock (dict_set name new_qty d)) ;;
            logging_info (InfoRemoved qty item new_qty)
   end)%io.

(** [save_data] and [load_data] with their log records. *)
Definition save_data_logged (file_path : string) : IO unit :=
  (run_py (save_data file_path) ;;
   d <- run_py get_stock ;;
   logging_info (InfoSaved (List.length d) file_path))%io.

Definition load_data_logged (file_path : string) : IO unit :=
  (run_py (load_data file_path) ;;
   d <- run_py get_stock ;;
   logging_info (InfoLoaded (List.length d) file_path))%io.

(** [for item, qty in stock_data.items(): print(f"{item} -> {qty}")] *)
Fixpoint print_items (d : dict) : IO unit :=
  match d with
  | [] => io_ret tt
  | (item, qty) :: rest => (print (OutItem item qty) ;; print_items rest)%io
  end.

Definition print_data : IO unit :=
  (print OutReport ;;
   d <- run_py get_stock ;;
   print_items d)%io.

(** [main], after its two [add_item] calls. *)
Definition main_rest : IO unit :=
  (remove_item_logged (VStr "apple") (VInt 2) ;;
   q <- run_py (get_qty (VStr "apple")) ;;
   print (OutAppleStock q) ;;
   low <- run_py check_low_items_default ;;
   print (OutLowItems low) ;;
   save_data_logged "inventory.json" ;;
   load_data_logged "inventory.json" ;;
   print_data)%io.

(** [main]: the list [logs] starts empty and is passed to both
    [add_item] calls; [now1] and [now2] are the times they read. *)
Definition main (now1 now2 : string) (p : process)
  : outcome unit * process * option (list log_entry) :=
  match add_item_logged (VStr "apple") (VInt 10) (Some []) now1 p with
  | ((Return _, p1), logs1) =>
      match add_item_logged (VStr "banana") (VInt 3) logs1 now2 p1 with
      | ((Return _, p2), logs2) => (main_rest p2, logs2)
      | failed => failed
      end
  | failed => failed
  end.

(** A caller that passes one list to a sequence of [add_item] calls, each
    with its item, quantity and time, and goes on after an exception. *)
Fixpoint add_items_logged (calls : list (value * value * string))
         (logs : option (list log_entry)) (p : process)
  : process * option (list log_entry) :=
  match calls with
  | [] => (p, logs)
  | (item, qty, now) :: rest =>
      let '((_, p'), logs') := add_item_logged item qty logs now p in
      add_items_logged rest logs' p'
  end.

(** The entries of the calls of a sequence that succeed, and the world
    after the sequence, by [add_item] alone. *)
Fixpoint successful_adds (calls : list (value * value * string)) (w : world)
  : list log_entry * world :=
  match calls with
  | [] => ([], w)
  | (item, qty, now) :: rest =>
      match add_item item qty w with
      | (Return _, w') =>
          let (entries, w'') := successful_adds rest w' in
          (LogAdded now qty item :: entries, w'')
      | (Raise _, w') => successful_adds rest w'
      end
  end.

(** A standard output that encodes UTF-8 and refuses what it cannot
    encode: a line of the report holds the name as it is; the list of the
    low items holds the [repr] of the names, which escapes the
    surrogates. *)
Definition utf8_console (l : out_line) : bool :=
  match l with
  | OutItem item _ => utf8_encodable item
  | _ => true
  end.

(** The record [add_item] logs in the call that appends the entry. *)
Definition record_of_entry (e : log_entry) : log_record :=
  match e with
  | LogAdded _ qty item => InfoAdded qty item
  end.

(** The lines [print_data] prints for a dictionary, and the lines of a
    list that come before the first one the console cannot encode. *)
Definition report_lines (d : dict) : list out_line :=
  OutReport :: map (fun kv => OutItem (fst kv) (snd kv)) d.

Fixpoint printable_prefix (encodes : out_line -> bool) (lines : list out_line)
  : list out_line :=
  match lines with
  | [] => []
  | l :: rest => if encodes l then l :: printable_prefix encodes rest else []
  end.


(** ** Vocabulary of the properties *)

(** The operations that change the dictionary. *)
Inductive op : Type :=
| Add (item qty : value)
| Remove (item qty : value)
| Load (file_path : string).

Definition run (o : op) : Py unit :=
  match o with
  | Add item qty => add_item item qty
  | Remove item qty => remove_item item qty
  | Load file_path => load_data file_path
  end.

(** The worlds reached from an empty dictionary by operations that
    succeed, each of them [allowed] in the world it starts from. *)
Inductive reachable (allowed : op -> world -> Prop) : world -> Prop :=
| reach_initial (fs : filesystem) : reachable allowed (initial fs)
| reach_step (w : world) (o : op) (w' : world) :
    reachable allowed w ->
    allowed o w ->
    run o w = (Return tt, w') ->
    reachable allowed w'.

(** The quantities of a dictionary are floats. *)
Definition dict_valid (d : dict) : Prop :=
  Forall (fun kv => fvalid (snd kv) = true) d.

(** A value whose number, if it is one, is a number of Python. *)
Definition value_wf (v : value) : Prop :=
  match as_number v with
  | Some n => number_wf n
  | None => True
  end.

(** The operations as Python can call them: the quantities passed and the
    values read from files are numbers of Python. *)
Definition python_values (o : op) (w : world) : Prop :=
  match o with
  | Add _ qty | Remove _ qty => value_wf qty
  | Load file_path =>
      match read_json file_path (files w) with
      | inr (VDict items) => Forall value_wf (map snd items)
      | _ => True
      end
  end.

(** Every stored quantity is strictly greater than zero. *)
Definition all_positive (d : dict) : Prop :=
  Forall (fun kv => flt fzero (snd kv) = true) d.

(** No stored quantity is below zero. *)
Definition none_negative (d : dict) : Prop :=
  Forall (fun kv => flt (snd kv) fzero = false) d.

(** A value of a file that is not a number below zero. *)
Definition not_negative (v : value) : bool :=
  match as_number v with
  | Some n => negb (num_lt n (NInt 0))
  | None => true
  end.

(** A load is allowed when the file it reads holds no negative value. *)
Definition loads_without_negatives (o : op) (w : world) : Prop :=
  match o with
  | Load file_path =>
      match read_json file_path (files w) with
      | inr (VDict items) => forallb not_negative (map snd items) = true
      | _ => True
      end
  | _ => True
  end.

(** The errors of [load_data] the specification calls InvalidFormat. *)
Definition is_InvalidFormat (e : exn) : bool :=
  match e with
  | ValueError (MsgFileObject | MsgFileEntries | MsgJSONDecode) => true
  | _ => false
  end.

(** An entry of a JSON object that [load_data] accepts: a string key
    and a numeric value. *)
Definition entry_ok (kv : value * value) : bool :=
  match as_str (fst kv), as_number (snd kv) with
  | Some _, Some _ => true
  | _, _ => false
  end.

(** The top-level value is not an object, or some key is not a string, or
    some value is not numeric. *)
Definition malformed (data : value) : bool :=
  match data with
  | VDict items => negb (forallb entry_ok items)
  | _ => true
  end.

(** [isinstance(v, bool)] *)
Definition isinstance_bool (v : value) : bool :=
  match v with
  | VBool _ => true
  | _ => false
  end.

(** No value of the object is a boolean. *)
Definition no_booleans (data : value) : bool :=
  match data with
  | VDict items => forallb (fun v => negb (isinstance_bool v)) (map snd items)
  | _ => true
  end.

(** [float(v)] is defined: [v] is not an integer beyond the floats. *)
Definition convertible (v : value) : bool :=
  match as_number v with
  | Some n => match to_float n with inr _ => true | inl _ => false end
  | None => true
  end.

Definition values_convertible (data : value) : bool :=
  match data with
  | VDict items => forallb convertible (map snd items)
  | _ => true
  end.

(** The keys of a parsed object are pairwise distinct. *)
Definition object_wf (data : value) : Prop :=
  match data with
  | VDict items => NoDup (map fst items)
  | _ => True
  end.

(** The entries of a parsed object with their quantities as floats. *)
Fixpoint coerced (items : list (value * value)) : dict :=
  match items with
  | [] => []
  | (VStr name, v) :: rest =>
      match as_number v with
      | Some n =>
          match to_float n with
          | inr f => (name, f) :: coerced rest
          | inl _ => coerced rest
          end
      | None => coerced rest
      end
  | _ :: rest => coerced rest
  end.

(** An entry of the dictionary that holds an entry of a parsed object: the
    same key, and the value converted by [float]. *)
Definition loaded_from (e : value * value) (kv : string * pyfloat) : Prop :=
  fst e = VStr (fst kv) /\
  exists n, as_number (snd e) = Some n /\ to_float n = inr (snd kv).

(** The entries of a parsed object. *)
Definition entries (data : value) : list (value * value) :=
  match data with
  | VDict items => items
  | _ => []
  end.

(** The quantity stored for [name] is below the threshold. *)
Definition quantity_below (threshold : number) (d : dict) (name : string) : bool :=
  match dict_get name d with
  | Some q => num_lt (NFloat q) threshold
  | None => false
  end.

(** The inventory of the specification's examples, [{"apple": 8.0,
    "banana": 3.0}], and the world around it with a file system [fs]. *)
Definition sample_stock : dict :=
  [("apple", float_of_Z 8); ("banana", float_of_Z 3)].

Definition sample_world (fs : filesystem) : world :=
  {| stock_data := sample_stock; files := fs |}.

(** * Properties *)

(** ** The run of [main] *)

Example main_calls_run :
  main_calls (initial []) =
  (Return (float_of_Z 8, ["banana"]),
   {| stock_data := [("apple", float_of_Z 8); ("banana", float_of_Z 3)];
      files := [("inventory.json",
                 Json (VDict [(VStr "apple", VFloat (float_of_Z 8));
                              (VStr "banana", VFloat (float_of_Z 3))]))] |}).
Proof. vm_compute. reflexivity. Qed.

(** ** The examples of the specification *)

Example add_item_empty_name :
  add_item (VStr "") (VInt 5) (initial []) = (Raise (ValueError MsgItem), initial []).
Proof. reflexivity. Qed.

Example add_item_negative_quantity :
  add_item (VStr "apple") (VInt (-1)) (initial []) =
  (Raise (ValueError MsgQuantityNonNegative), initial []).
Proof. reflexivity. Qed.

Example remove_item_absent_item :
  remove_item (VStr "pear") (VInt 1) (sample_world []) =
  (Raise (KeyError (MsgNotFound "pear")), sample_world []).
Proof. reflexivity. Qed.

Example get_qty_absent_item :
  get_qty (VStr "pear") (sample_world []) =
  (Raise (KeyError (MsgKey (VStr "pear"))), sample_world []).
Proof. reflexivity. Qed.

Example check_low_items_sample :
  check_low_items_default (sample_world []) = (Return ["banana"], sample_world []).
Proof. reflexivity. Qed.

(** [float] of an integer rounds to nearest, ties to even, and overflows
    from [2 ** 1024 - 2 ** 970] on. *)
Example float_of_int_ties_to_even :
  float_of_Z (2 ^ 53 + 1) = float_of_Z (2 ^ 53) /\
  float_of_Z (2 ^ 53 + 3) = float_of_Z (2 ^ 53 + 4) /\
  to_float (NInt (2 ^ 1024 - 2 ^ 970 - 1)) = inr (SFmax_float prec emax) /\
  to_float (NInt (2 ^ 1024 - 2 ^ 970)) = inl OverflowError.
Proof. vm_compute. repeat split. Qed.

(** An [int] and a [float] compare by their exact values. *)
Example int_float_comparison_is_exact :
  num_gt (NInt (2 ^ 53 + 1)) (NFloat (float_of_Z (2 ^ 53))) = true /\
  num_lt (NFloat (float_of_Z 1)) (NInt 2) = true /\
  num_lt (NFloat S754_nan) (NInt 0) = false.
Proof. vm_compute. repeat split. Qed.

(** [True] is an [int]: a quantity of [True] adds 1.0, and a file value of
    [true] loads as 1.0. *)
Example load_data_bool :
  load_data "inventory.json"
            (initial [("inventory.json", Json (VDict [(VStr "a", VBool true)]))]) =
  (Return tt,
   {| stock_data := [("a", float_of_Z 1)];
      files := [("inventory.json", Json (VDict [(VStr "a", VBool true)]))] |}).
Proof. reflexivity. Qed.

(** [True] is an [int]: a quantity of [True] adds 1.0. *)
Example add_item_bool :
  add_item (VStr "apple") (VBool true) (initial []) =
  (Return tt, {| stock_data := [("apple", float_of_Z 1)]; files := [] |}).
Proof. reflexivity. Qed.

(** A NaN passes both guards of [add_item]: [nan < 0] is false. *)
Example add_item_nan :
  add_item (VStr "apple") (VFloat S754_nan) (sample_world []) =
  (Return tt,
   {| stock_data := [("apple", S754_nan); ("banana", float_of_Z 3)]; files := [] |}).
Proof. reflexivity. Qed.

(** * Facts about binary64 arithmetic *)

Module FloatFacts.

Lemma digits2_pos_bounds (m : positive) :
  2 ^ (Zpos (digits2_pos m) - 1) <= Zpos m < 2 ^ Zpos (digits2_pos m).
Proof.
  induction m as [m IH | m IH |]; cbn [digits2_pos].
  - rewrite Pos2Z.inj_succ.
    replace (Z.succ (Zpos (digits2_pos m)) - 1) with (Z.succ (Zpos (digits2_pos m) - 1)) by lia.
    rewrite !Z.pow_succ_r by lia. lia.
  - rewrite Pos2Z.inj_succ.
    replace (Z.succ (Zpos (digits2_pos m)) - 1) with (Z.succ (Zpos (digits2_pos m) - 1)) by lia.
    rewrite !Z.pow_succ_r by lia. lia.
  - cbn. lia.
Qed.

Lemma shr_1_m (mrs : shr_record) :
  0 <= shr_m mrs -> shr_m (shr_1 mrs) = shr_m mrs / 2.
Proof.
  destruct mrs as [m r s]; cbn [shr_m shr_1]; intros Hm.
  destruct m as [| [p | p |] | p]; cbn [shr_m]; try lia.
  - reflexivity.
  - rewrite Pos2Z.inj_xI. apply Z.div_unique with (r := 1); lia.
  - rewrite Pos2Z.inj_xO. apply Z.div_unique with (r := 0); lia.
  - reflexivity.
Qed.

Lemma iter_shr_1_m (p : positive) :
  forall mrs, 0 <= shr_m mrs ->
              shr_m (iter_pos shr_1 p mrs) = shr_m mrs / 2 ^ Zpos p.
Proof.
  induction p as [p IH | p IH |]; intros mrs Hm; cbn [iter_pos].
  - assert (H1 : 0 <= shr_m (shr_1 mrs)).
    { rewrite shr_1_m by assumption. apply Z.div_pos; lia. }
    assert (H2 : 0 <= shr_m (iter_pos shr_1 p (shr_1 mrs))).
    { rewrite IH by assumption. apply Z.div_pos; [assumption | apply Z.pow_pos_nonneg; lia]. }
    rewrite IH, IH, shr_1_m by assumption.
    assert (Hp : 0 < 2 ^ Zpos p) by (apply Z.pow_pos_nonneg; lia).
    rewrite !Z.div_div by lia.
    f_equal. rewrite (Pos2Z.inj_xI p).
    replace (2 * Zpos p + 1) with (1 + Zpos p + Zpos p) by lia.
    rewrite Z.pow_add_r; [| lia | lia]. rewrite Z.pow_add_r; [| lia | lia].
    change (2 ^ 1) with 2. lia.
  - assert (H2 : 0 <= shr_m (iter_pos shr_1 p mrs)).
    { rewrite IH by assumption. apply Z.div_pos; [assumption | apply Z.pow_pos_nonneg; lia]. }
    rewrite IH, IH by assumption.
    assert (Hp : 0 < 2 ^ Zpos p) by (apply Z.pow_pos_nonneg; lia).
    rewrite !Z.div_div by lia.
    f_equal. rewrite (Pos2Z.inj_xO p).
    replace (2 * Zpos p) with (Zpos p + Zpos p) by lia.
    rewrite Z.pow_add_r; [| lia | lia]. lia.
  - rewrite shr_1_m by assumption. reflexivity.
Qed.

Lemma shr_record_of_loc_m (m : Z) (l : location) :
  shr_m (shr_record_of_loc m l) = m.
Proof. destruct l as [| []]; reflexivity. Qed.

(** Shifting a positive mantissa to its canonical exponent keeps it
    positive, as long as the exponent it starts from is not below the
    smallest one. *)
Lemma shr_fexp_pos (m e : Z) (l : location) :
  0 < m -> femin <= e ->
  0 < shr_m (fst (shr_fexp prec emax m e l)) /\
  femin <= snd (shr_fexp prec emax m e l).
Proof.
  intros Hm He. unfold shr_fexp, shr.
  destruct m as [| p | p]; try lia. cbn [Zdigits2].
  pose proof (digits2_pos_bounds p) as [Hlo _].
  set (d := Zpos (digits2_pos p)) in *.
  destruct (fexp prec emax (d + e) - e) as [| q | q] eqn:Hn;
    cbn [fst snd]; rewrite ?shr_record_of_loc_m; try (split; lia).
  unfold fexp in Hn. fold femin in Hn.
  assert (Hq : Zpos q = d - prec) by lia.
  rewrite iter_shr_1_m by (rewrite shr_record_of_loc_m; lia).
  rewrite shr_record_of_loc_m. split; [| lia].
  apply Z.div_str_pos. split; [apply Z.pow_pos_nonneg; lia |].
  apply Z.le_trans with (2 ^ (d - 1)); [| exact Hlo].
  apply Z.pow_le_mono_r; unfold prec in *; lia.
Qed.

Lemma round_nearest_even_pos (m : Z) (l : location) :
  0 < m -> 0 < round_nearest_even m l.
Proof.
  intros Hm. destruct l as [| []]; cbn [round_nearest_even]; try lia.
  destruct (Z.even m); lia.
Qed.

Lemma binary_round_aux_signed (s : bool) (m e : Z) (l : location) :
  signed s (binary_round_aux prec emax s m e l).
Proof.
  unfold binary_round_aux.
  destruct (shr_fexp prec emax m e l) as [mrs' e'].
  destruct (shr_fexp prec emax _ e' loc_Exact) as [mrs'' e''].
  destruct (shr_m mrs''); [reflexivity | | exact I].
  destruct (e'' <=? emax - prec); reflexivity.
Qed.

Lemma binary_round_aux_nonzero (s : bool) (m e : Z) (l : location) :
  0 < m -> femin <= e ->
  nonzero_signed s (binary_round_aux prec emax s m e l).
Proof.
  intros Hm He. unfold binary_round_aux.
  pose proof (shr_fexp_pos m e l Hm He) as [H1 H1e].
  destruct (shr_fexp prec emax m e l) as [mrs' e']. cbn [fst snd] in H1, H1e.
  pose proof (shr_fexp_pos _ e' loc_Exact
                (round_nearest_even_pos _ (loc_of_shr_record mrs') H1) H1e)
    as [H2 _].
  destruct (shr_fexp prec emax _ e' loc_Exact) as [mrs'' e'']. cbn [fst] in H2.
  destruct (shr_m mrs''); try lia.
  destruct (e'' <=? emax - prec); reflexivity.
Qed.

Lemma shl_align_exponent (m : positive) (e e' : Z) :
  snd (shl_align m e e') = Z.min e e'.
Proof.
  unfold shl_align. destruct (e' - e) eqn:H; cbn [snd]; lia.
Qed.

Lemma iter_xO (m d : positive) :
  Zpos (Pos.iter xO m d) = Zpos m * 2 ^ Zpos d.
Proof.
  induction d as [| d IH] using Pos.peano_ind.
  - cbn [Pos.iter]. rewrite (Pos2Z.inj_xO m). change (2 ^ 1) with 2. lia.
  - rewrite Pos.iter_succ, (Pos2Z.inj_xO (Pos.iter xO m d)), IH, Pos2Z.inj_succ.
    rewrite Z.pow_succ_r by lia. lia.
Qed.

Lemma shl_align_mantissa (m : positive) (e e' : Z) :
  Zpos (fst (shl_align m e e')) = Zpos m * 2 ^ (e - Z.min e e').
Proof.
  unfold shl_align. destruct (e' - e) as [| d | d] eqn:H; cbn [fst].
  - replace (e - Z.min e e') with 0 by lia. cbn. lia.
  - replace (e - Z.min e e') with 0 by lia. cbn. lia.
  - rewrite iter_xO. f_equal. f_equal. lia.
Qed.

Lemma fexp_ge_emin (x : Z) : femin <= fexp prec emax x.
Proof. unfold fexp, femin. lia. Qed.

Lemma binary_round_signed (s : bool) (m : positive) (e : Z) :
  signed s (binary_round prec emax s m e).
Proof.
  unfold binary_round. destruct (shl_align m e _) as [mz ez].
  apply binary_round_aux_signed.
Qed.

Lemma binary_round_nonzero (s : bool) (m : positive) (e : Z) :
  femin <= e -> nonzero_signed s (binary_round prec emax s m e).
Proof.
  intros He. unfold binary_round.
  pose proof (shl_align_exponent m e (fexp prec emax (Zpos (digits2_pos m) + e))) as Hz.
  pose proof (fexp_ge_emin (Zpos (digits2_pos m) + e)).
  destruct (shl_align m e _) as [mz ez]. cbn [snd] in Hz.
  apply binary_round_aux_nonzero; lia.
Qed.

(** The sign of a rounded integer multiple of a power of two. *)
Lemma binary_normalize_signed (z e : Z) :
  0 <= z -> signed false (binary_normalize prec emax z e false).
Proof.
  intros Hz. destruct z as [| p | p]; cbn [binary_normalize]; try lia.
  - reflexivity.
  - apply binary_round_signed.
Qed.

Lemma binary_normalize_negative (z e : Z) :
  z < 0 -> femin <= e ->
  nonzero_signed true (binary_normalize prec emax z e false).
Proof.
  intros Hz He. destruct z as [| p | p]; cbn [binary_normalize]; try lia.
  apply binary_round_nonzero, He.
Qed.

Lemma signed_not_lt_zero (f : pyfloat) :
  signed false f -> flt f fzero = false.
Proof.
  destruct f as [s | s | | s m e]; cbn; intros H; subst; reflexivity.
Qed.

Lemma nonzero_negative_lt_zero (f : pyfloat) :
  nonzero_signed true f -> flt f fzero = true.
Proof.
  destruct f as [s | s | | s m e]; cbn; intros H; subst; try reflexivity; contradiction.
Qed.

(** What [bounded] says about a mantissa and its exponent. *)
Lemma bounded_inv (m : positive) (e : Z) :
  bounded prec emax m e = true ->
  femin <= e /\ Zpos m < 2 ^ prec /\ (femin < e -> 2 ^ (prec - 1) <= Zpos m).
Proof.
  unfold bounded, canonical_mantissa, fexp. fold femin.
  intros H. apply andb_prop in H as [H _]. apply Z.eqb_eq in H.
  pose proof (digits2_pos_bounds m) as [Hlo Hhi].
  set (d := Zpos (digits2_pos m)) in *.
  assert (Hd : d <= prec) by lia.
  split; [lia |]. split.
  - apply Z.lt_le_trans with (2 ^ d); [exact Hhi |].
    apply Z.pow_le_mono_r; lia.
  - intros He. replace prec with d by lia. exact Hlo.
Qed.

(** On canonical mantissas the lexicographic order on (exponent, mantissa)
    is the order of the values. *)
Lemma aligned_compare (m1 : positive) (e1 : Z) (m2 : positive) (e2 : Z) :
  bounded prec emax m1 e1 = true ->
  bounded prec emax m2 e2 = true ->
  (Zpos m1 * 2 ^ (e1 - Z.min e1 e2) ?= Zpos m2 * 2 ^ (e2 - Z.min e1 e2)) =
  match e1 ?= e2 with
  | Lt => Lt
  | Gt => Gt
  | Eq => Pos.compare_cont Eq m1 m2
  end.
Proof.
  intros H1 H2.
  apply bounded_inv in H1 as (He1 & Hm1 & Hn1).
  apply bounded_inv in H2 as (He2 & Hm2 & Hn2).
  assert (Hpow : 2 ^ prec = 2 * 2 ^ (prec - 1)) by reflexivity.
  destruct (Z.compare_spec e1 e2) as [Heq | Hlt | Hgt].
  - subst e2. rewrite Z.min_id, Z.sub_diag. cbn [Z.pow].
    rewrite !Z.mul_1_r. reflexivity.
  - replace (Z.min e1 e2) with e1 by lia. rewrite Z.sub_diag.
    cbn [Z.pow]. rewrite Z.mul_1_r. apply Z.compare_lt_iff.
    assert (Hp : 2 ^ 1 <= 2 ^ (e2 - e1)) by (apply Z.pow_le_mono_r; lia).
    change (2 ^ 1) with 2 in Hp. specialize (Hn2 ltac:(lia)). nia.
  - replace (Z.min e1 e2) with e2 by lia. rewrite Z.sub_diag.
    cbn [Z.pow]. rewrite Z.mul_1_r. apply Z.compare_gt_iff.
    assert (Hp : 2 ^ 1 <= 2 ^ (e1 - e2)) by (apply Z.pow_le_mono_r; lia).
    change (2 ^ 1) with 2 in Hp. specialize (Hn1 ltac:(lia)). nia.
Qed.

Lemma aligned_false_pos (m : positive) (e ez : Z) :
  ez <= e -> 0 < aligned false m e ez.
Proof.
  intros H. unfold aligned, cond_Zopp.
  assert (0 < 2 ^ (e - ez)) by (apply Z.pow_pos_nonneg; lia). nia.
Qed.

Lemma SFcompare_finite (s1 : bool) (m1 : positive) (e1 : Z)
                       (s2 : bool) (m2 : positive) (e2 : Z) :
  bounded prec emax m1 e1 = true ->
  bounded prec emax m2 e2 = true ->
  SFcompare (S754_finite s1 m1 e1) (S754_finite s2 m2 e2) =
  Some (aligned s1 m1 e1 (Z.min e1 e2) ?= aligned s2 m2 e2 (Z.min e1 e2)).
Proof.
  intros H1 H2. pose proof (aligned_compare m1 e1 m2 e2 H1 H2) as Hc.
  pose proof (aligned_false_pos m1 e1 (Z.min e1 e2) ltac:(lia)) as P1.
  pose proof (aligned_false_pos m2 e2 (Z.min e1 e2) ltac:(lia)) as P2.
  unfold aligned in *. cbn [cond_Zopp] in P1, P2.
  set (a1 := Zpos m1 * 2 ^ (e1 - Z.min e1 e2)) in *.
  set (a2 := Zpos m2 * 2 ^ (e2 - Z.min e1 e2)) in *.
  cbn [SFcompare]. f_equal.
  destruct s1, s2; cbn [cond_Zopp].
  - rewrite Z.compare_opp, (Z.compare_antisym a1 a2), Hc.
    destruct (e1 ?= e2); reflexivity.
  - symmetry. apply Z.compare_lt_iff. lia.
  - symmetry. apply Z.compare_gt_iff. lia.
  - rewrite Hc. reflexivity.
Qed.

(** The difference of two finite floats, before rounding. *)
Lemma fsub_finite (sx : bool) (mx : positive) (ex : Z)
                  (sy : bool) (my : positive) (ey : Z) :
  fsub (S754_finite sx mx ex) (S754_finite sy my ey) =
  binary_normalize prec emax
    (aligned sx mx ex (Z.min ex ey) - aligned sy my ey (Z.min ex ey))
    (Z.min ex ey) false.
Proof.
  unfold fsub, SFsub, aligned. rewrite !shl_align_mantissa.
  replace (Z.min ex (Z.min ex ey)) with (Z.min ex ey) by lia.
  replace (Z.min ey (Z.min ex ey)) with (Z.min ex ey) by lia.
  reflexivity.
Qed.

Lemma fadd_finite (sx : bool) (mx : positive) (ex : Z)
                  (sy : bool) (my : positive) (ey : Z) :
  fadd (S754_finite sx mx ex) (S754_finite sy my ey) =
  binary_normalize prec emax
    (aligned sx mx ex (Z.min ex ey) + aligned sy my ey (Z.min ex ey))
    (Z.min ex ey) false.
Proof.
  unfold fadd, SFadd, aligned. rewrite !shl_align_mantissa.
  replace (Z.min ex (Z.min ex ey)) with (Z.min ex ey) by lia.
  replace (Z.min ey (Z.min ex ey)) with (Z.min ex ey) by lia.
  reflexivity.
Qed.

Ltac by_cases_on_signs :=
  solve [ repeat match goal with s : bool |- _ => destruct s end;
          cbn in *; congruence ].

(** [x < y] makes [x - y] negative: a difference of floats that is not
    zero does not round to zero. *)
Lemma fsub_negative (x y : pyfloat) :
  fvalid x = true -> fvalid y = true ->
  flt x y = true -> flt (fsub x y) fzero = true.
Proof.
  intros Vx Vy Hlt.
  destruct x as [sx | sx | | sx mx ex]; destruct y as [sy | sy | | sy my ey];
    try by_cases_on_signs.
  cbn [fvalid valid_binary] in Vx, Vy.
  pose proof (bounded_inv _ _ Vx) as (Hx & _). pose proof (bounded_inv _ _ Vy) as (Hy & _).
  unfold flt, SFltb in Hlt. rewrite SFcompare_finite in Hlt by assumption.
  rewrite fsub_finite. apply nonzero_negative_lt_zero.
  apply binary_normalize_negative; [| lia].
  destruct (Z.compare_spec (aligned sx mx ex (Z.min ex ey))
                           (aligned sy my ey (Z.min ex ey))); try discriminate. lia.
Qed.

(** [y <= x] keeps [x - y] from being negative. *)
Lemma fsub_not_negative (x y : pyfloat) :
  fvalid x = true -> fvalid y = true ->
  fle y x = true -> flt (fsub x y) fzero = false.
Proof.
  intros Vx Vy Hle.
  destruct x as [sx | sx | | sx mx ex]; destruct y as [sy | sy | | sy my ey];
    try by_cases_on_signs.
  cbn [fvalid valid_binary] in Vx, Vy.
  unfold fle, SFleb in Hle. rewrite SFcompare_finite in Hle by assumption.
  rewrite fsub_finite. apply signed_not_lt_zero.
  apply binary_normalize_signed.
  replace (Z.min ey ex) with (Z.min ex ey) in Hle by lia.
  destruct (Z.compare_spec (aligned sy my ey (Z.min ex ey))
                           (aligned sx mx ex (Z.min ex ey))); try discriminate; lia.
Qed.

(** Adding two floats neither of which is below zero gives a float that is
    not below zero. *)
Lemma fadd_not_negative (x y : pyfloat) :
  flt x fzero = false -> flt y fzero = false -> flt (fadd x y) fzero = false.
Proof.
  intros Hx Hy.
  destruct x as [sx | sx | | sx mx ex]; destruct y as [sy | sy | | sy my ey];
    try by_cases_on_signs.
  destruct sx; [discriminate Hx |]. destruct sy; [discriminate Hy |].
  rewrite fadd_finite. apply signed_not_lt_zero, binary_normalize_signed.
  pose proof (aligned_false_pos mx ex (Z.min ex ey) ltac:(lia)).
  pose proof (aligned_false_pos my ey (Z.min ex ey) ltac:(lia)). lia.
Qed.

(** [float(n)] of an integer that is not negative is not below zero. *)
Lemma float_of_Z_not_negative (z : Z) :
  0 <= z -> flt (float_of_Z z) fzero = false.
Proof.
  intros Hz. apply signed_not_lt_zero, binary_normalize_signed, Hz.
Qed.

(** *** Rounding gives floats *)

Lemma digits2_pos_unique (m : positive) (k : Z) :
  2 ^ (k - 1) <= Zpos m < 2 ^ k -> Zpos (digits2_pos m) = k.
Proof.
  intros [Hlo Hhi]. pose proof (digits2_pos_bounds m) as [Dlo Dhi].
  set (d := Zpos (digits2_pos m)) in *.
  assert (Hd : 0 < d) by (unfold d; lia).
  destruct (Z.lt_trichotomy d k) as [H | [H | H]]; [| exact H |].
  - assert (2 ^ d <= 2 ^ (k - 1)) by (apply Z.pow_le_mono_r; lia). lia.
  - destruct (Z.le_gt_cases 0 k) as [Hk | Hk].
    + assert (2 ^ k <= 2 ^ (d - 1)) by (apply Z.pow_le_mono_r; lia). lia.
    + rewrite (Z.pow_neg_r 2 k) in Hhi by lia. lia.
Qed.

Lemma Zdigits2_shiftr (m : positive) (n : Z) :
  0 <= n < Zpos (digits2_pos m) ->
  0 < Zpos m / 2 ^ n /\
  Zdigits2 (Zpos m / 2 ^ n) = Zpos (digits2_pos m) - n.
Proof.
  intros Hn. pose proof (digits2_pos_bounds m) as [Dlo Dhi].
  set (d := Zpos (digits2_pos m)) in *.
  assert (Hp : 0 < 2 ^ n) by (apply Z.pow_pos_nonneg; lia).
  assert (Hlo : 2 ^ (d - n - 1) <= Zpos m / 2 ^ n).
  { apply Z.div_le_lower_bound; [exact Hp |].
    rewrite <- Z.pow_add_r by lia. replace (n + (d - n - 1)) with (d - 1) by lia.
    exact Dlo. }
  assert (Hhi : Zpos m / 2 ^ n < 2 ^ (d - n)).
  { apply Z.div_lt_upper_bound; [exact Hp |].
    rewrite <- Z.pow_add_r by lia. replace (n + (d - n)) with d by lia.
    exact Dhi. }
  assert (Hpos : 0 < 2 ^ (d - n - 1)) by (apply Z.pow_pos_nonneg; lia).
  split; [lia |].
  destruct (Zpos m / 2 ^ n) as [| p | p]; try lia. cbn [Zdigits2].
  apply digits2_pos_unique. split; [exact Hlo | exact Hhi].
Qed.

Lemma Zdigits2_mono (a b : Z) :
  0 < a <= b -> Zdigits2 a <= Zdigits2 b.
Proof.
  intros [Ha Hab]. destruct a as [| p | p]; try lia.
  destruct b as [| q | q]; try lia. cbn [Zdigits2].
  pose proof (digits2_pos_bounds p) as [Plo _].
  pose proof (digits2_pos_bounds q) as [_ Qhi].
  destruct (Z.le_gt_cases (Zpos (digits2_pos p)) (Zpos (digits2_pos q))) as [H | H];
    [exact H |].
  assert (2 ^ Zpos (digits2_pos q) <= 2 ^ (Zpos (digits2_pos p) - 1))
    by (apply Z.pow_le_mono_r; lia).
  lia.
Qed.

Lemma fexp_mono (x y : Z) : x <= y -> fexp prec emax x <= fexp prec emax y.
Proof. unfold fexp. lia. Qed.

(** One shift to the canonical exponent, from an exponent that is not
    above it. *)
Lemma shr_fexp_canonical (m e : Z) (l : location) :
  0 < m -> e <= fexp prec emax (Zdigits2 m + e) ->
  snd (shr_fexp prec emax m e l) = fexp prec emax (Zdigits2 m + e) /\
  0 <= shr_m (fst (shr_fexp prec emax m e l)) /\
  (0 < shr_m (fst (shr_fexp prec emax m e l)) ->
   fexp prec emax (Zdigits2 (shr_m (fst (shr_fexp prec emax m e l)))
                   + snd (shr_fexp prec emax m e l))
   = snd (shr_fexp prec emax m e l)) /\
  (shr_m (fst (shr_fexp prec emax m e l)) = 0 ->
   snd (shr_fexp prec emax m e l) = femin).
Proof.
  intros Hm He. unfold shr_fexp, shr.
  destruct m as [| p | p]; try lia. cbn [Zdigits2] in *.
  pose proof (digits2_pos_bounds p) as [Dlo Dhi].
  set (d := Zpos (digits2_pos p)) in *.
  destruct (fexp prec emax (d + e) - e) as [| q | q] eqn:Hn; try lia;
    cbn [fst snd]; rewrite ?shr_record_of_loc_m.
  - cbn [Zdigits2]. fold d. repeat split; lia.
  - rewrite iter_shr_1_m by (rewrite shr_record_of_loc_m; lia).
    rewrite shr_record_of_loc_m.
    assert (Hp : 0 < 2 ^ Zpos q) by (apply Z.pow_pos_nonneg; lia).
    split; [lia |]. split; [apply Z.div_pos; lia |].
    destruct (Z.lt_ge_cases (Zpos q) d) as [Hq | Hq].
    + destruct (Zdigits2_shiftr p (Zpos q)) as [Hpos Hdig]; [fold d; lia |].
      fold d in Hdig. split; [| lia].
      intros _. rewrite Hdig. replace (d - Zpos q + (e + Zpos q)) with (d + e) by lia.
      lia.
    + assert (Hz : Zpos p / 2 ^ Zpos q = 0).
      { apply Z.div_small. split; [lia |].
        apply Z.lt_le_trans with (2 ^ d); [exact Dhi |].
        apply Z.pow_le_mono_r; lia. }
      rewrite Hz. split; [lia |]. intros _.
      unfold fexp in Hn |- *. fold femin in Hn |- *. unfold prec in *. lia.
Qed.

Lemma shr_fexp_zero (e : Z) (l : location) :
  shr_m (fst (shr_fexp prec emax 0 e l)) = 0.
Proof.
  unfold shr_fexp, shr. cbn [Zdigits2].
  destruct (fexp prec emax (0 + e) - e); cbn [fst];
    rewrite ?iter_shr_1_m by (rewrite shr_record_of_loc_m; lia);
    rewrite shr_record_of_loc_m; reflexivity.
Qed.

Lemma round_nearest_even_bounds (m : Z) (l : location) :
  m <= round_nearest_even m l <= m + 1.
Proof.
  destruct l as [| []]; cbn [round_nearest_even]; try lia.
  destruct (Z.even m); lia.
Qed.

Lemma binary_round_aux_valid (s : bool) (m e : Z) (l : location) :
  0 < m -> e <= fexp prec emax (Zdigits2 m + e) ->
  fvalid (binary_round_aux prec emax s m e l) = true.
Proof.
  intros Hm He. unfold binary_round_aux.
  pose proof (shr_fexp_canonical m e l Hm He) as (_ & H0 & Hcan & Hzero).
  destruct (shr_fexp prec emax m e l) as [mrs' e']. cbn [fst snd] in *.
  pose proof (round_nearest_even_bounds (shr_m mrs') (loc_of_shr_record mrs')) as Hr.
  set (m2 := round_nearest_even (shr_m mrs') (loc_of_shr_record mrs')) in *.
  destruct (Z.eq_dec m2 0) as [Hm2 | Hm2].
  - rewrite Hm2. pose proof (shr_fexp_zero e' loc_Exact) as Hz.
    destruct (shr_fexp prec emax 0 e' loc_Exact) as [mrs'' e'']. cbn [fst] in Hz.
    rewrite Hz. reflexivity.
  - assert (He' : e' <= fexp prec emax (Zdigits2 m2 + e')).
    { destruct (Z.eq_dec (shr_m mrs') 0) as [Hz | Hz].
      - rewrite (Hzero Hz). apply fexp_ge_emin.
      - rewrite <- (Hcan ltac:(lia)) at 1. apply fexp_mono.
        pose proof (Zdigits2_mono (shr_m mrs') m2 ltac:(lia)). lia. }
    pose proof (shr_fexp_canonical m2 e' loc_Exact ltac:(lia) He')
      as (_ & H0' & Hcan' & _).
    destruct (shr_fexp prec emax m2 e' loc_Exact) as [mrs'' e'']. cbn [fst snd] in *.
    destruct (shr_m mrs'') as [| p | p]; try reflexivity.
    destruct (e'' <=? emax - prec) eqn:Hmax; [| reflexivity].
    cbn [fvalid valid_binary]. unfold bounded, canonical_mantissa.
    rewrite Hmax, andb_true_r. apply Z.eqb_eq. apply Hcan'. lia.
Qed.

Lemma Zdigits2_shiftl (m d : positive) :
  Zpos (digits2_pos (Pos.iter xO m d)) = Zpos (digits2_pos m) + Zpos d.
Proof.
  apply digits2_pos_unique. rewrite iter_xO.
  pose proof (digits2_pos_bounds m) as [Dlo Dhi].
  assert (Hp : 0 < 2 ^ Zpos d) by (apply Z.pow_pos_nonneg; lia).
  replace (Zpos (digits2_pos m) + Zpos d - 1)
    with (Zpos (digits2_pos m) - 1 + Zpos d) by lia.
  rewrite !Z.pow_add_r by lia. nia.
Qed.

Lemma binary_round_valid (s : bool) (m : positive) (e : Z) :
  fvalid (binary_round prec emax s m e) = true.
Proof.
  unfold binary_round, shl_align.
  destruct (fexp prec emax (Zpos (digits2_pos m) + e) - e) as [| d | d] eqn:Hd.
  - apply binary_round_aux_valid; cbn [Zdigits2]; lia.
  - apply binary_round_aux_valid; cbn [Zdigits2]; lia.
  - apply binary_round_aux_valid; [lia |]. cbn [Zdigits2].
    rewrite Zdigits2_shiftl.
    replace (Zpos (digits2_pos m) + Zpos d
             + fexp prec emax (Zpos (digits2_pos m) + e))
      with (Zpos (digits2_pos m) + e) by lia.
    lia.
Qed.

Lemma binary_normalize_valid (z e : Z) (szero : bool) :
  fvalid (binary_normalize prec emax z e szero) = true.
Proof.
  destruct z; cbn [binary_normalize]; [reflexivity | |]; apply binary_round_valid.
Qed.

(** [float(n)] is a float. *)
Lemma float_of_Z_valid (z : Z) : fvalid (float_of_Z z) = true.
Proof. apply binary_normalize_valid. Qed.

(** Sums and differences of floats are floats. *)
Lemma fadd_valid (x y : pyfloat) :
  fvalid x = true -> fvalid y = true -> fvalid (fadd x y) = true.
Proof.
  intros Vx Vy.
  destruct x as [sx | sx | | sx mx ex]; destruct y as [sy | sy | | sy my ey];
    try (rewrite fadd_finite; apply binary_normalize_valid);
    try assumption; try reflexivity;
    destruct sx, sy; reflexivity.
Qed.

Lemma fsub_valid (x y : pyfloat) :
  fvalid x = true -> fvalid y = true -> fvalid (fsub x y) = true.
Proof.
  intros Vx Vy.
  destruct x as [sx | sx | | sx mx ex]; destruct y as [sy | sy | | sy my ey];
    try (rewrite fsub_finite; apply binary_normalize_valid);
    try assumption; try reflexivity;
    destruct sx, sy; reflexivity.
Qed.

(** *** Rounding is monotone *)

Lemma shr_1_spec (mrs : shr_record) :
  0 <= shr_m mrs ->
  shr_1 mrs =
  {| shr_m := shr_m mrs / 2;
     shr_r := Z.odd (shr_m mrs);
     shr_s := shr_r mrs || shr_s mrs |}.
Proof.
  intros Hm. pose proof (shr_1_m mrs Hm) as Hdiv.
  destruct mrs as [m r s]. cbn [shr_m shr_r shr_s] in *.
  rewrite <- Hdiv. destruct m as [| [p | p |] | p]; try lia; reflexivity.
Qed.

Lemma mod_pow2_succ (M k : Z) :
  0 <= k ->
  Z.odd (M / 2 ^ k) = true \/ M mod 2 ^ k <> 0 ->
  M mod 2 ^ (k + 1) <> 0.
Proof.
  intros Hk H Hmod.
  assert (Hp : 0 < 2 ^ k) by (apply Z.pow_pos_nonneg; lia).
  assert (Hs : 2 ^ (k + 1) = 2 ^ k * 2) by (rewrite Z.pow_add_r by lia; reflexivity).
  apply Z.mod_divide in Hmod; [| lia]. destruct Hmod as [c Hc].
  rewrite Hs in Hc.
  assert (HM : M = (c * 2) * 2 ^ k) by lia.
  destruct H as [Hodd | Hne].
  - rewrite HM, Z.div_mul in Hodd by lia.
    rewrite Z.mul_comm, Z.odd_mul in Hodd. discriminate Hodd.
  - apply Hne. rewrite HM. apply Z.mod_mul. lia.
Qed.

Lemma shr_1_inexact (mrs : shr_record) (M k : Z) :
  0 <= k -> 0 <= M ->
  shr_m mrs = M / 2 ^ k ->
  (inexact mrs = true -> M mod 2 ^ k <> 0) ->
  shr_m (shr_1 mrs) = M / 2 ^ (k + 1) /\
  (inexact (shr_1 mrs) = true -> M mod 2 ^ (k + 1) <> 0).
Proof.
  intros Hk HM Hm Hin.
  assert (Hp : 0 < 2 ^ k) by (apply Z.pow_pos_nonneg; lia).
  assert (H0 : 0 <= shr_m mrs) by (rewrite Hm; apply Z.div_pos; lia).
  rewrite (shr_1_spec mrs H0). cbn [shr_m]. unfold inexact. cbn [shr_r shr_s].
  split.
  - rewrite Hm, Z.div_div by lia. f_equal. rewrite Z.pow_add_r by lia. reflexivity.
  - intros Hor. apply mod_pow2_succ; [exact Hk |].
    apply orb_true_iff in Hor as [Hodd | Hrs].
    + left. rewrite <- Hm. exact Hodd.
    + right. apply Hin. exact Hrs.
Qed.

Lemma iter_shr_1_inexact (p : positive) :
  forall (mrs : shr_record) (M k : Z),
    0 <= k -> 0 <= M ->
    shr_m mrs = M / 2 ^ k ->
    (inexact mrs = true -> M mod 2 ^ k <> 0) ->
    shr_m (iter_pos shr_1 p mrs) = M / 2 ^ (k + Zpos p) /\
    (inexact (iter_pos shr_1 p mrs) = true -> M mod 2 ^ (k + Zpos p) <> 0).
Proof.
  induction p as [p IH | p IH |]; intros mrs M k Hk HM Hm Hin; cbn [iter_pos].
  - destruct (shr_1_inexact mrs M k Hk HM Hm Hin) as [H1 H1'].
    destruct (IH _ M (k + 1) ltac:(lia) HM H1 H1') as [H2 H2'].
    destruct (IH _ M (k + 1 + Zpos p) ltac:(lia) HM H2 H2') as [H3 H3'].
    replace (k + Zpos p~1) with (k + 1 + Zpos p + Zpos p) by lia. auto.
  - destruct (IH _ M k Hk HM Hm Hin) as [H2 H2'].
    destruct (IH _ M (k + Zpos p) ltac:(lia) HM H2 H2') as [H3 H3'].
    replace (k + Zpos p~0) with (k + Zpos p + Zpos p) by lia. auto.
  - apply shr_1_inexact; assumption.
Qed.

(** Shifting an exact mantissa: the quotient, and a remainder that is not
    zero whenever the record says so. *)
Lemma shr_exact_spec (m e n : Z) :
  0 <= m ->
  let '(mrs, e') := shr (shr_record_of_loc m loc_Exact) e n in
  e' = e + Z.max 0 n /\
  shr_m mrs = m / 2 ^ Z.max 0 n /\
  (inexact mrs = true -> m / 2 ^ Z.max 0 n * 2 ^ Z.max 0 n < m).
Proof.
  intros Hm. unfold shr. destruct n as [| q | q]; cbn [shr_record_of_loc].
  - replace (Z.max 0 0) with 0 by lia. cbn [shr_m]. rewrite Z.div_1_r.
    repeat split; [lia | discriminate].
  - replace (Z.max 0 (Zpos q)) with (Zpos q) by lia.
    destruct (iter_shr_1_inexact q {| shr_m := m; shr_r := false; shr_s := false |}
                                 m 0 ltac:(lia) Hm) as [H1 H2].
    + cbn [shr_m]. rewrite Z.div_1_r. reflexivity.
    + discriminate.
    + cbn [Z.add] in H1, H2. split; [reflexivity |]. split; [exact H1 |].
      intros Hin. specialize (H2 Hin).
      assert (Hp : 0 < 2 ^ Zpos q) by (apply Z.pow_pos_nonneg; lia).
      pose proof (Z.div_mod m (2 ^ Zpos q) ltac:(lia)).
      pose proof (Z.mod_pos_bound m (2 ^ Zpos q) Hp). lia.
  - replace (Z.max 0 (Zneg q)) with 0 by lia. cbn [shr_m]. rewrite Z.div_1_r.
    repeat split; [lia | discriminate].
Qed.

Lemma round_nearest_even_cases (mrs : shr_record) :
  round_nearest_even (shr_m mrs) (loc_of_shr_record mrs) = shr_m mrs \/
  (round_nearest_even (shr_m mrs) (loc_of_shr_record mrs) = shr_m mrs + 1 /\
   inexact mrs = true).
Proof.
  destruct mrs as [m [] []]; cbn; auto.
  destruct (Z.even m); auto.
Qed.

Lemma scaled_shift (m e n : Z) :
  0 <= n -> femin <= e -> scaled (m * 2 ^ n) e = scaled m (e + n).
Proof.
  intros Hn He. unfold scaled.
  replace (e + n - femin) with (n + (e - femin)) by lia.
  rewrite Z.pow_add_r by lia. lia.
Qed.

Lemma scaled_le (a b e : Z) : femin <= e -> a <= b -> scaled a e <= scaled b e.
Proof.
  intros He Hab. unfold scaled.
  assert (0 < 2 ^ (e - femin)) by (apply Z.pow_pos_nonneg; lia). nia.
Qed.

Lemma scaled_lt (a b e : Z) : femin <= e -> a < b -> scaled a e < scaled b e.
Proof.
  intros He Hab. unfold scaled.
  assert (0 < 2 ^ (e - femin)) by (apply Z.pow_pos_nonneg; lia). nia.
Qed.

(** The first shift of [binary_round_aux]: the mantissa is cut to [prec]
    digits, and whenever a bit that is not zero was cut the value went
    down. *)
Lemma shr_fexp_first (m e : Z) :
  0 < m -> femin <= e -> e <= fexp prec emax (Zdigits2 m + e) ->
  let '(mrs, e') := shr_fexp prec emax m e loc_Exact in
  femin <= e' /\ 0 < shr_m mrs /\
  fexp prec emax (Zdigits2 (shr_m mrs) + e') = e' /\
  scaled (shr_m mrs) e' <= scaled m e /\
  (inexact mrs = true ->
   scaled (shr_m mrs) e' < scaled m e /\ 2 ^ (prec - 1) <= shr_m mrs).
Proof.
  intros Hm He Hcan. unfold shr_fexp.
  set (n := fexp prec emax (Zdigits2 m + e) - e).
  assert (Hn : 0 <= n) by (unfold n; lia).
  pose proof (shr_exact_spec m e n ltac:(lia)) as Hshr.
  destruct (shr (shr_record_of_loc m loc_Exact) e n) as [mrs e'].
  destruct Hshr as (-> & Hdiv & Hin).
  replace (Z.max 0 n) with n in * by lia.
  destruct m as [| p | p]; try lia. cbn [Zdigits2] in *.
  pose proof (digits2_pos_bounds p) as [Dlo Dhi].
  set (d := Zpos (digits2_pos p)) in *.
  assert (Hp : 0 < 2 ^ n) by (apply Z.pow_pos_nonneg; lia).
  assert (Hnd : n < d).
  { unfold n, fexp. fold femin. unfold prec. lia. }
  destruct (Zdigits2_shiftr p n) as [Hpos Hdig]; [fold d; lia |]. fold d in Hdig.
  rewrite <- Hdiv in Hpos, Hdig.
  assert (Hle : shr_m mrs * 2 ^ n <= Zpos p).
  { rewrite Hdiv, Z.mul_comm. apply Z.mul_div_le. exact Hp. }
  split; [lia |]. split; [exact Hpos |]. split.
  { rewrite Hdig. replace (d - n + (e + n)) with (d + e) by lia. unfold n. lia. }
  split.
  { rewrite <- scaled_shift by lia. apply scaled_le; lia. }
  intros Hi. specialize (Hin Hi). rewrite <- Hdiv in Hin. split.
  - rewrite <- scaled_shift by lia. apply scaled_lt; lia.
  - assert (Hn0 : 0 < n).
    { destruct (Z.eq_dec n 0) as [E | E]; [| lia].
      exfalso. rewrite E in Hdiv, Hin. change (2 ^ 0) with 1 in Hdiv, Hin.
      rewrite Z.div_1_r in Hdiv. lia. }
    assert (Hdp : d - n = prec).
    { unfold n, fexp. fold femin. unfold n, fexp in Hn0. fold femin in Hn0. lia. }
    destruct (shr_m mrs) as [| p' | p']; try lia. cbn [Zdigits2] in Hdig.
    pose proof (digits2_pos_bounds p') as [Plo _].
    rewrite Hdig, Hdp in Plo. exact Plo.
Qed.

(** The second shift of [binary_round_aux] loses nothing. *)
Lemma shr_fexp_second (m m2 e : Z) :
  0 < m -> femin <= e ->
  fexp prec emax (Zdigits2 m + e) = e ->
  m2 = m \/ m2 = m + 1 ->
  let '(mrs, e') := shr_fexp prec emax m2 e loc_Exact in
  femin <= e' /\ scaled (shr_m mrs) e' = scaled m2 e.
Proof.
  intros Hm He Hcan Hm2. unfold shr_fexp.
  set (n := fexp prec emax (Zdigits2 m2 + e) - e).
  pose proof (shr_exact_spec m2 e n ltac:(lia)) as Hshr.
  destruct (shr (shr_record_of_loc m2 loc_Exact) e n) as [mrs e'].
  destruct Hshr as (-> & Hdiv & _).
  assert (Hmono : Zdigits2 m <= Zdigits2 m2) by (apply Zdigits2_mono; lia).
  assert (Hn : 0 <= n).
  { unfold n. rewrite <- Hcan at 2. pose proof (fexp_mono _ _ (Zplus_le_compat_r _ _ e Hmono)).
    lia. }
  replace (Z.max 0 n) with n in * by lia.
  split; [lia |].
  rewrite <- scaled_shift by lia. f_equal.
  destruct (Z.eq_dec n 0) as [E | E].
  { rewrite Hdiv, E. cbn [Z.pow]. rewrite Z.div_1_r. lia. }
  (* a longer mantissa: [m2] is a power of two *)
  destruct m as [| p | p]; try lia. cbn [Zdigits2] in *.
  pose proof (digits2_pos_bounds p) as [Dlo Dhi].
  set (d := Zpos (digits2_pos p)) in *.
  assert (Hd : 0 < d) by (unfold d; lia).
  destruct m2 as [| p2 | p2]; try lia. cbn [Zdigits2] in *.
  pose proof (digits2_pos_bounds p2) as [D2lo D2hi].
  set (d2 := Zpos (digits2_pos p2)) in *.
  assert (Hd2 : d < d2).
  { destruct (Z.eq_dec d d2) as [E' | E']; [| lia].
    exfalso. apply E. unfold n. rewrite <- E'. lia. }
  assert (Hpow : 2 ^ d <= 2 ^ (d2 - 1)) by (apply Z.pow_le_mono_r; lia).
  assert (Hp2 : Zpos p2 = 2 ^ d) by lia.
  assert (Hd2' : d2 = d + 1).
  { unfold d2. apply digits2_pos_unique. rewrite Hp2.
    replace (d + 1 - 1) with d by lia. split; [lia |].
    apply Z.pow_lt_mono_r; lia. }
  assert (Hn1 : n = 1).
  { unfold n in *. rewrite Hd2' in *. unfold fexp in *. fold femin in *. lia. }
  rewrite Hdiv, Hn1, Hp2. change (2 ^ 1) with 2.
  replace d with (1 + (d - 1)) by lia. rewrite Z.pow_add_r by lia.
  change (2 ^ 1) with 2. rewrite (Z.mul_comm 2), Z.div_mul by lia. lia.
Qed.

(** The float a positive integer multiple of a power of two rounds to lies
    on the side of the value its mantissa was cut on, at most one unit of
    the last place away. *)
Lemma binary_round_aux_value (m e : Z) :
  0 < m -> femin <= e -> e <= fexp prec emax (Zdigits2 m + e) ->
  match binary_round_aux prec emax false m e loc_Exact with
  | S754_finite s mf ef =>
      s = false /\ femin <= ef /\
      exists m' e',
        femin <= e' /\ 0 < m' /\ scaled m' e' <= scaled m e /\
        (scaled (Zpos mf) ef = scaled m' e' \/
         (scaled (Zpos mf) ef = scaled (m' + 1) e' /\
          scaled m' e' < scaled m e /\ 2 ^ (prec - 1) <= m'))
  | _ => True
  end.
Proof.
  intros Hm He Hcan. unfold binary_round_aux.
  pose proof (shr_fexp_first m e Hm He Hcan) as H1.
  destruct (shr_fexp prec emax m e loc_Exact) as [mrs' e'].
  destruct H1 as (He' & Hpos & Hcan' & Hle & Hin).
  pose proof (round_nearest_even_cases mrs') as Hround.
  set (m2 := round_nearest_even (shr_m mrs') (loc_of_shr_record mrs')) in *.
  pose proof (shr_fexp_second (shr_m mrs') m2 e' Hpos He' Hcan'
                ltac:(destruct Hround as [-> | [-> _]]; auto)) as H2.
  destruct (shr_fexp prec emax m2 e' loc_Exact) as [mrs'' e''].
  destruct H2 as (He'' & Hval).
  destruct (shr_m mrs'') as [| mf | mf]; try exact I.
  destruct (e'' <=? emax - prec); [| exact I].
  split; [reflexivity |]. split; [exact He'' |].
  exists (shr_m mrs'), e'. repeat split; try assumption.
  destruct Hround as [E | [E Hi]].
  - left. rewrite Hval, E. reflexivity.
  - right. rewrite Hval, E. destruct (Hin Hi). auto.
Qed.

Lemma binary_round_value (p : positive) (e : Z) :
  femin <= e ->
  match binary_round prec emax false p e with
  | S754_finite s mf ef =>
      s = false /\ femin <= ef /\
      exists m' e',
        femin <= e' /\ 0 < m' /\ scaled m' e' <= scaled (Zpos p) e /\
        (scaled (Zpos mf) ef = scaled m' e' \/
         (scaled (Zpos mf) ef = scaled (m' + 1) e' /\
          scaled m' e' < scaled (Zpos p) e /\ 2 ^ (prec - 1) <= m'))
  | _ => True
  end.
Proof.
  intros He. unfold binary_round, shl_align.
  pose proof (fexp_ge_emin (Zpos (digits2_pos p) + e)) as Hf.
  destruct (fexp prec emax (Zpos (digits2_pos p) + e) - e) as [| d | d] eqn:Hd.
  - apply binary_round_aux_value; cbn [Zdigits2]; lia.
  - apply binary_round_aux_value; cbn [Zdigits2]; lia.
  - assert (Hs : scaled (Zpos p) e =
                 scaled (Zpos (Pos.iter xO p d))
                        (fexp prec emax (Zpos (digits2_pos p) + e))).
    { rewrite iter_xO, scaled_shift by lia. f_equal. lia. }
    rewrite Hs. apply binary_round_aux_value; [lia | lia |].
    cbn [Zdigits2]. rewrite Zdigits2_shiftl.
    replace (Zpos (digits2_pos p) + Zpos d
             + fexp prec emax (Zpos (digits2_pos p) + e))
      with (Zpos (digits2_pos p) + e) by lia.
    lia.
Qed.

(** A float above a value that was rounded up is not below the result. *)
Lemma round_up_below (m' e' mq eq v : Z) :
  femin <= e' -> femin <= eq ->
  0 < mq < 2 ^ prec -> 2 ^ (prec - 1) <= m' ->
  scaled m' e' < v -> v <= scaled mq eq ->
  scaled (m' + 1) e' <= scaled mq eq.
Proof.
  intros He' Heq Hmq Hm' Hlt Hle.
  destruct (Z.le_gt_cases e' eq) as [H | H].
  - replace eq with (e' + (eq - e')) in Hle |- * by lia.
    rewrite <- scaled_shift in Hle |- * by lia.
    apply scaled_le; [exact He' |].
    destruct (Z.lt_ge_cases m' (mq * 2 ^ (eq - e'))) as [Hk | Hk]; [lia |].
    pose proof (scaled_le _ _ e' He' Hk). lia.
  - exfalso.
    replace e' with (eq + (e' - eq)) in Hlt by lia.
    rewrite <- scaled_shift in Hlt by lia.
    assert (Hp : 2 ^ 1 <= 2 ^ (e' - eq)) by (apply Z.pow_le_mono_r; lia).
    change (2 ^ 1) with 2 in Hp.
    assert (Hpow : 2 ^ prec = 2 * 2 ^ (prec - 1)) by reflexivity.
    assert (Hk : mq <= m' * 2 ^ (e' - eq)) by nia.
    pose proof (scaled_le _ _ eq Heq Hk). lia.
Qed.

Lemma compare_mul_pos (a b c : Z) : 0 < c -> (a * c ?= b * c) = (a ?= b).
Proof. intros Hc. symmetry. apply Zmult_compare_compat_r. lia. Qed.

Lemma compare_float_Z_scaled (mq : positive) (eq z : Z) :
  femin <= eq ->
  compare_float_Z (S754_finite false mq eq) z =
  Some (scaled (Zpos mq) eq ?= scaled z 0).
Proof.
  intros Heq. cbn [compare_float_Z cond_Zopp]. f_equal. unfold scaled.
  assert (Hfe : femin < 0) by reflexivity.
  destruct (0 <=? eq) eqn:E.
  - apply Z.leb_le in E.
    replace (eq - femin) with (eq + (0 - femin)) by lia.
    rewrite Z.pow_add_r, Z.mul_assoc by lia.
    apply eq_sym, compare_mul_pos, Z.pow_pos_nonneg; lia.
  - apply Z.leb_gt in E.
    replace (0 - femin) with (- eq + (eq - femin)) by lia.
    rewrite Z.pow_add_r, Z.mul_assoc by lia.
    apply eq_sym, compare_mul_pos, Z.pow_pos_nonneg; lia.
Qed.

Lemma aligned_compare_scaled (m1 : positive) (e1 : Z) (m2 : positive) (e2 : Z) :
  femin <= e1 -> femin <= e2 ->
  (aligned false m1 e1 (Z.min e1 e2) ?= aligned false m2 e2 (Z.min e1 e2)) =
  (scaled (Zpos m1) e1 ?= scaled (Zpos m2) e2).
Proof.
  intros H1 H2. unfold aligned, scaled. cbn [cond_Zopp].
  set (ez := Z.min e1 e2).
  replace (e1 - femin) with (e1 - ez + (ez - femin)) by lia.
  replace (e2 - femin) with (e2 - ez + (ez - femin)) by lia.
  rewrite !Z.pow_add_r, !Z.mul_assoc by lia.
  apply eq_sym, compare_mul_pos, Z.pow_pos_nonneg; lia.
Qed.

(** [float] is monotone against the floats: an integer that is at most a
    float converts to a float that is at most that float. *)
Lemma to_float_le (z : Z) (q f : pyfloat) :
  0 < z -> fvalid q = true ->
  to_float (NInt z) = inr f ->
  num_le (NInt z) (NFloat q) = true ->
  fle f q = true.
Proof.
  intros Hz Vq Hf Hle.
  assert (Hfz : f = float_of_Z z /\ forall s, f <> S754_infinity s).
  { cbn [to_float] in Hf. destruct (float_of_Z z); split; congruence. }
  destruct Hfz as [-> Hninf].
  pose proof (float_of_Z_valid z) as Vf.
  destruct z as [| p | p]; try lia.
  unfold float_of_Z in *. cbn [binary_normalize] in *.
  pose proof (binary_round_nonzero false p 0 ltac:(unfold femin; cbn; lia)) as Hnz.
  pose proof (binary_round_value p 0 ltac:(unfold femin; cbn; lia)) as Hval.
  destruct (binary_round prec emax false p 0) as [s | s | | s mf ef];
    try contradiction; cbn [nonzero_signed] in Hnz; subst s.
  { exfalso. apply (Hninf false). reflexivity. }
  destruct Hval as (_ & Hef & m' & e' & He' & Hm' & Hlow & Hcases).
  unfold num_le in Hle. cbn [num_compare] in Hle.
  destruct q as [sq | sq | | sq mq eq].
  - cbn in Hle. discriminate Hle.
  - destruct sq; [cbn in Hle; discriminate Hle | reflexivity].
  - cbn in Hle. discriminate Hle.
  - cbn [fvalid valid_binary] in Vq, Vf.
    pose proof (bounded_inv _ _ Vq) as (Heq & Hmq & _).
    destruct sq.
    + exfalso. cbn [compare_float_Z cond_Zopp] in Hle.
      assert (Hp : 0 < 2 ^ eq \/ eq < 0).
      { destruct (Z.le_gt_cases 0 eq); [left; apply Z.pow_pos_nonneg; lia | right; lia]. }
      assert (Hp' : 0 <= 2 ^ (- eq)) by (apply Z.pow_nonneg; lia).
      destruct (0 <=? eq) eqn:E.
      * apply Z.leb_le in E. destruct Hp as [Hp | Hp]; [| lia].
        destruct (Z.compare_spec (- (Zpos mq * 2 ^ eq)) (Zpos p));
          cbn in Hle; try discriminate Hle; nia.
      * destruct (Z.compare_spec (- Zpos mq) (Zpos p * 2 ^ (- eq)));
          cbn in Hle; try discriminate Hle; nia.
    + rewrite compare_float_Z_scaled in Hle by exact Heq.
      cbn [option_CompOpp] in Hle.
      assert (HQ : scaled (Zpos p) 0 <= scaled (Zpos mq) eq).
      { destruct (Z.compare_spec (scaled (Zpos mq) eq) (scaled (Zpos p) 0));
          cbn in Hle; try discriminate Hle; lia. }
      assert (HF : scaled (Zpos mf) ef <= scaled (Zpos mq) eq).
      { destruct Hcases as [-> | (-> & Hlt & Hprec)]; [lia |].
        apply (round_up_below m' e' (Zpos mq) eq (scaled (Zpos p) 0)); auto; lia. }
      unfold fle, SFleb. rewrite SFcompare_finite by assumption.
      rewrite aligned_compare_scaled by assumption.
      destruct (Z.compare_spec (scaled (Zpos mf) ef) (scaled (Zpos mq) eq));
        try reflexivity; lia.
Qed.

End FloatFacts.

(** * Facts about dictionaries *)

(** * Facts about strings *)

Lemma string_eqb_refl (s : string) : string_eqb s s = true.
Proof.
  induction s as [| c s IH]; cbn [string_eqb]; [reflexivity |].
  rewrite N.eqb_refl. exact IH.
Qed.

Lemma string_eqb_eq (s t : string) : string_eqb s t = true <-> s = t.
Proof.
  split; [| intros ->; apply string_eqb_refl].
  revert t. induction s as [| c s IH]; intros [| d t]; cbn [string_eqb];
    try discriminate; [reflexivity |].
  intros H. apply andb_prop in H as [Hc Hs].
  apply N.eqb_eq in Hc. apply IH in Hs. congruence.
Qed.

Lemma string_eqb_neq (s t : string) : string_eqb s t = false <-> s <> t.
Proof.
  rewrite <- string_eqb_eq. destruct (string_eqb s t); split; congruence.
Qed.

Lemma string_eqb_sym (s t : string) : string_eqb s t = string_eqb t s.
Proof.
  destruct (string_eqb t s) eqn:E.
  - apply string_eqb_eq in E. subst t. apply string_eqb_refl.
  - apply string_eqb_neq. apply string_eqb_neq in E. congruence.
Qed.

Lemma string_dec (s t : string) : {s = t} + {s <> t}.
Proof.
  destruct (string_eqb s t) eqn:E.
  - left. apply string_eqb_eq, E.
  - right. apply string_eqb_neq, E.
Defined.

Section DictFacts.

Variable k : string.

Lemma dict_get_set_eq (v : pyfloat) (d : dict) :
  dict_get k (dict_set k v d) = Some v.
Proof.
  induction d as [| [k' v'] rest IH]; cbn [dict_set dict_get].
  - rewrite string_eqb_refl. reflexivity.
  - destruct (string_eqb k k') eqn:E; cbn [dict_get].
    + rewrite string_eqb_refl. reflexivity.
    + rewrite E. exact IH.
Qed.

Lemma dict_get_set_ne (k' : string) (v : pyfloat) (d : dict) :
  k <> k' -> dict_get k' (dict_set k v d) = dict_get k' d.
Proof.
  intros Hne. apply string_eqb_neq in Hne.
  assert (Hne' : string_eqb k' k = false) by (rewrite string_eqb_sym; exact Hne).
  induction d as [| [k0 v0] rest IH]; cbn [dict_set dict_get].
  - rewrite Hne'. reflexivity.
  - destruct (string_eqb k k0) eqn:E; cbn [dict_get].
    + apply string_eqb_eq in E. subst k0. rewrite Hne'. reflexivity.
    + rewrite IH. reflexivity.
Qed.

Lemma dict_get_del_eq (d : dict) : dict_get k (dict_del k d) = None.
Proof.
  induction d as [| [k' v'] rest IH]; cbn [dict_del dict_get].
  - reflexivity.
  - destruct (string_eqb k k') eqn:E; cbn [dict_get]; [| rewrite E]; exact IH.
Qed.

Lemma dict_get_del_ne (k' : string) (d : dict) :
  k <> k' -> dict_get k' (dict_del k d) = dict_get k' d.
Proof.
  intros Hne.
  induction d as [| [k0 v0] rest IH]; cbn [dict_del dict_get].
  - reflexivity.
  - destruct (string_eqb k k0) eqn:E; cbn [dict_get].
    + apply string_eqb_eq in E. subst k0.
      destruct (string_eqb k' k) eqn:E'; [| exact IH].
      apply string_eqb_eq in E'. congruence.
    + rewrite IH. reflexivity.
Qed.

Lemma dict_get_absent (d : dict) :
  dict_get k d = None <-> ~ In k (dict_keys d).
Proof.
  induction d as [| [k' v'] rest IH]; cbn [dict_get dict_keys map fst In].
  - tauto.
  - destruct (string_eqb k k') eqn:E.
    + apply string_eqb_eq in E. subst k'. split; [discriminate | tauto].
    + apply string_eqb_neq in E. rewrite IH. unfold dict_keys.
      split; [intros H [H' | H']; congruence | tauto].
Qed.

(** A new key goes to the end of the dictionary. *)
Lemma dict_set_absent (v : pyfloat) (d : dict) :
  dict_get k d = None -> dict_set k v d = d ++ [(k, v)].
Proof.
  induction d as [| [k' v'] rest IH]; cbn [dict_get dict_set app].
  - reflexivity.
  - destruct (string_eqb k k'); [discriminate |].
    intros H. rewrite IH by exact H. reflexivity.
Qed.

Lemma dict_set_Forall (P : string * pyfloat -> Prop) (v : pyfloat) (d : dict) :
  Forall P d -> P (k, v) -> Forall P (dict_set k v d).
Proof.
  intros Hd Hv. induction Hd as [| [k' v'] rest Hx Hrest IH]; cbn [dict_set].
  - constructor; [exact Hv | constructor].
  - destruct (string_eqb k k'); constructor; assumption.
Qed.

Lemma dict_del_Forall (P : string * pyfloat -> Prop) (d : dict) :
  Forall P d -> Forall P (dict_del k d).
Proof.
  intros Hd. induction Hd as [| [k' v'] rest Hx Hrest IH]; cbn [dict_del].
  - constructor.
  - destruct (string_eqb k k'); [exact IH | constructor; assumption].
Qed.

Lemma dict_get_Forall (P : string * pyfloat -> Prop) (v : pyfloat) (d : dict) :
  Forall P d -> dict_get k d = Some v -> P (k, v).
Proof.
  intros Hd. induction Hd as [| [k' v'] rest Hx Hrest IH]; cbn [dict_get].
  - discriminate.
  - destruct (string_eqb k k') eqn:E; [| exact IH].
    apply string_eqb_eq in E. subst k'. intros [= ->]. exact Hx.
Qed.

End DictFacts.

(** * Facts about the comparison of numbers *)

Lemma num_lt_float_zero (f : pyfloat) :
  num_lt (NFloat f) (NInt 0) = flt f fzero.
Proof.
  destruct f as [s | s | | s m e]; try reflexivity.
  unfold num_lt, flt, SFltb. cbn [num_compare compare_float_Z SFcompare fzero].
  assert (Hp : 0 < Zpos m * 2 ^ e \/ e < 0).
  { destruct (Z.le_gt_cases 0 e) as [H | H]; [left | right; lia].
    assert (0 < 2 ^ e) by (apply Z.pow_pos_nonneg; lia). nia. }
  destruct (0 <=? e) eqn:E.
  - apply Z.leb_le in E. destruct Hp as [Hp | Hp]; [| lia].
    destruct s; cbn [cond_Zopp].
    + replace (- (Zpos m * 2 ^ e) ?= 0) with Lt; [reflexivity |].
      symmetry. apply Z.compare_lt_iff. lia.
    + replace (Zpos m * 2 ^ e ?= 0) with Gt; [reflexivity |].
      symmetry. apply Z.compare_gt_iff. lia.
  - rewrite Z.mul_0_l. destruct s; reflexivity.
Qed.

(** [n >= 0] rules out [n < 0]. *)
Lemma num_ge_zero_not_lt (n : number) :
  num_ge n (NInt 0) = true -> num_lt n (NInt 0) = false.
Proof.
  unfold num_ge, num_le, num_lt. destruct n as [z | f]; cbn [num_compare].
  - rewrite (Z.compare_antisym z 0). destruct (z ?= 0); cbn; congruence.
  - destruct (compare_float_Z f 0) as [[] |]; cbn; congruence.
Qed.

(** [n > 0] rules out [n <= 0]. *)
Lemma num_gt_zero_not_le (n : number) :
  num_gt n (NInt 0) = true -> num_le n (NInt 0) = false.
Proof.
  unfold num_gt, num_le, num_lt. destruct n as [z | f]; cbn [num_compare].
  - rewrite (Z.compare_antisym z 0). destruct (z ?= 0); cbn; congruence.
  - destruct (compare_float_Z f 0) as [[] |]; cbn; congruence.
Qed.

Lemma positive_not_zero (f : pyfloat) :
  flt fzero f = true -> feq f fzero = false.
Proof.
  destruct f as [[] | [] | | [] m e]; cbn; congruence.
Qed.

Lemma to_float_valid (n : number) (f : pyfloat) :
  number_wf n -> to_float n = inr f -> fvalid f = true.
Proof.
  destruct n as [z | g]; cbn [number_wf to_float].
  - intros _ Hf. pose proof (FloatFacts.float_of_Z_valid z) as Hv.
    destruct (float_of_Z z); congruence.
  - congruence.
Qed.

(** [qty <= q], as Python compares a number with a float, carries over to
    [float(qty) <= q]. *)
Lemma to_float_le_float (n : number) (q f : pyfloat) :
  number_wf n -> fvalid q = true ->
  num_gt n (NInt 0) = true ->
  to_float n = inr f ->
  num_le n (NFloat q) = true ->
  fle f q = true.
Proof.
  destruct n as [z | g]; cbn [number_wf]; intros Vn Vq Hgt Hf Hle.
  - apply (FloatFacts.to_float_le z q f); try assumption.
    unfold num_gt, num_lt in Hgt. cbn [num_compare] in Hgt.
    destruct (Z.compare_spec 0 z); try discriminate Hgt. assumption.
  - cbn [to_float] in Hf. injection Hf as <-. exact Hle.
Qed.

Lemma sample_stock_wf : dict_wf sample_stock.
Proof.
  unfold dict_wf, sample_stock. cbn [dict_keys map fst].
  repeat constructor; cbn [In]; intuition discriminate.
Defined.

(** * Running the operations *)

Ltac unfold_py :=
  unfold add_item, remove_item, get_qty, check_low_items, load_data, json_load,
    check_item, check_number, get_stock, put_stock, lift, raise_if, bind, ret, raise.

Ltac unfold_py_in H :=
  unfold add_item, remove_item, get_qty, check_low_items, load_data, json_load,
    check_item, check_number, get_stock, put_stock, lift, raise_if, bind, ret, raise
    in H.

Lemma add_item_run (w : world) (name : string) (qty : value) (n : number) (f : pyfloat) :
  str_bool (strip name) = true ->
  as_number qty = Some n ->
  num_lt n (NInt 0) = false ->
  to_float n = inr f ->
  add_item (VStr name) qty w =
  (Return tt,
   {| stock_data :=
        dict_set name (fadd (dict_get_default name fzero (stock_data w)) f) (stock_data w);
      files := files w |}).
Proof.
  intros Hs Hn Hlt Hf. unfold_py. cbn [as_str]. rewrite Hs, Hn, Hlt, Hf. reflexivity.
Qed.

Lemma get_qty_run (w : world) (name : string) :
  get_qty (VStr name) w =
  match dict_get name (stock_data w) with
  | Some v => (Return v, w)
  | None => (Raise (KeyError (MsgKey (VStr name))), w)
  end.
Proof.
  unfold_py. cbn [subscript]. destruct (dict_get name (stock_data w)); reflexivity.
Qed.

Lemma remove_item_run (w : world) (name : string) (q : pyfloat)
      (qty : value) (n : number) (f : pyfloat) :
  str_bool (strip name) = true ->
  as_number qty = Some n ->
  num_le n (NInt 0) = false ->
  dict_get name (stock_data w) = Some q ->
  to_float n = inr f ->
  remove_item (VStr name) qty w =
  if flt (fsub q f) fzero
  then (Raise (ValueError (MsgInsufficient name q qty)), w)
  else if feq (fsub q f) fzero
       then (Return tt, {| stock_data := dict_del name (stock_data w); files := files w |})
       else (Return tt, {| stock_data := dict_set name (fsub q f) (stock_data w);
                           files := files w |}).
Proof.
  intros Hs Hn Hle Hq Hf. unfold_py. cbn [as_str].
  rewrite Hs, Hn, Hle, Hq, Hf.
  destruct (flt (fsub q f) fzero); [reflexivity |].
  destruct (feq (fsub q f) fzero); reflexivity.
Qed.

(** * The claims *)

(** ** C3: [add_item] followed by [get_qty] *)

(** C3, as stated, fails: [add_item("apple", 10 ** 400)] on the empty
    inventory has a name that is not blank and a numeric quantity that is
    not negative, and raises [OverflowError] at [float(qty)]; so it is not
    true that [add_item] succeeds for every numeric [qty >= 0]. *)
Lemma add_item_int_beyond_floats :
  ~ (forall (w : world) (name : string) (qty : value) (n : number),
        reachable python_values w ->
        str_bool (strip name) = true ->
        as_number qty = Some n ->
        number_wf n ->
        num_ge n (NInt 0) = true ->
        exists w', add_item (VStr name) qty w = (Return tt, w')).
Proof.
  intros H.
  destruct (H (initial []) "apple" (VInt (10 ^ 400)) (NInt (10 ^ 400))) as [w' Hw'];
    try (vm_compute; reflexivity).
  - apply reach_initial.
  - vm_compute in Hw'. discriminate Hw'.
Qed.

(** C3, amended: for every inventory, every item name that is not empty
    after trimming and every numeric [qty >= 0] that [float] converts (a
    float, or an integer within the range of the floats), [add_item]
    succeeds, and [get_qty] then returns the quantity stored before (0.0
    for an absent item) plus [float(qty)]. *)
Theorem add_item_then_get_qty
        (w : world) (name : string) (qty : value) (n : number) (f : pyfloat) :
  str_bool (strip name) = true ->
  as_number qty = Some n ->
  num_ge n (NInt 0) = true ->
  to_float n = inr f ->
  exists w',
    add_item (VStr name) qty w = (Return tt, w') /\
    get_qty (VStr name) w' =
    (Return (fadd (dict_get_default name fzero (stock_data w)) f), w').
Proof.
  intros Hs Hn Hge Hf. eexists. split.
  - apply (add_item_run w name qty n f); auto using num_ge_zero_not_lt.
  - rewrite get_qty_run. cbn [stock_data]. rewrite dict_get_set_eq. reflexivity.
Qed.

Lemma add_item_then_get_qty_witness :
  exists w',
    add_item (VStr "apple") (VInt 2) (sample_world []) = (Return tt, w') /\
    get_qty (VStr "apple") w' = (Return (float_of_Z 10), w').
Proof.
  apply (add_item_then_get_qty (sample_world []) "apple" (VInt 2) (NInt 2)
                               (float_of_Z 2));
    reflexivity.
Defined.

(** ** C4: [remove_item] of at most the stored quantity *)

(** C4, as stated, fails: [load_data] accepts the file [{" ": 5}], after
    which the item [" "] is present with quantity 5.0; [remove_item(" ", 1)]
    has [0 < 1 <= 5.0] and raises [ValueError], the name being blank. *)
Lemma remove_item_blank_name :
  ~ (forall (w : world) (name : string) (q : pyfloat) (qty : value) (n : number),
        reachable python_values w ->
        dict_get name (stock_data w) = Some q ->
        as_number qty = Some n ->
        number_wf n ->
        num_gt n (NInt 0) = true ->
        num_le n (NFloat q) = true ->
        exists w', remove_item (VStr name) qty w = (Return tt, w')).
Proof.
  intros H.
  pose (fs := [("inventory.json", Json (VDict [(VStr " ", VInt 5)]))]).
  destruct (H {| stock_data := [(" ", float_of_Z 5)]; files := fs |}
              " " (float_of_Z 5) (VInt 1) (NInt 1)) as [w' Hw'];
    try (vm_compute; reflexivity).
  - apply reach_step with (w := initial fs) (o := Load "inventory.json").
    + apply reach_initial.
    + repeat constructor.
    + vm_compute. reflexivity.
  - vm_compute in Hw'. discriminate Hw'.
Qed.

(** The amount has to convert as well: with the quantity [inf] stored,
    [remove_item("a", 10 ** 400)] has [0 < qty <= inf] and raises
    [OverflowError]. *)
Lemma remove_item_int_beyond_floats :
  num_le (NInt (10 ^ 400)) (NFloat (S754_infinity false)) = true /\
  remove_item (VStr "a") (VInt (10 ^ 400))
              {| stock_data := [("a", S754_infinity false)]; files := [] |} =
  (Raise OverflowError,
   {| stock_data := [("a", S754_infinity false)]; files := [] |}).
Proof. split; vm_compute; reflexivity. Qed.

(** C4, amended: for every item present in the inventory under a name
    that is not empty after trimming, with stored quantity [q], and every
    numeric [qty] with [0 < qty <= q] that [float] converts, [remove_item]
    succeeds; afterwards [get_qty] returns [q - float(qty)] when that is
    positive, and raises [KeyError] when it is exactly zero, the entry
    being deleted. *)
Theorem remove_item_then_get_qty
        (w : world) (name : string) (q : pyfloat)
        (qty : value) (n : number) (f : pyfloat) :
  str_bool (strip name) = true ->
  dict_get name (stock_data w) = Some q ->
  fvalid q = true ->
  as_number qty = Some n ->
  number_wf n ->
  num_gt n (NInt 0) = true ->
  num_le n (NFloat q) = true ->
  to_float n = inr f ->
  exists w',
    remove_item (VStr name) qty w = (Return tt, w') /\
    (flt fzero (fsub q f) = true ->
     get_qty (VStr name) w' = (Return (fsub q f), w')) /\
    (feq (fsub q f) fzero = true ->
     get_qty (VStr name) w' = (Raise (KeyError (MsgKey (VStr name))), w')).
Proof.
  intros Hs Hq Vq Hn Vn Hgt Hle Hf.
  pose proof (to_float_valid n f Vn Hf) as Vf.
  pose proof (to_float_le_float n q f Vn Vq Hgt Hf Hle) as Hle'.
  rewrite (remove_item_run w name q qty n f)
    by auto using num_gt_zero_not_le.
  rewrite (FloatFacts.fsub_not_negative q f Vq Vf Hle').
  destruct (feq (fsub q f) fzero) eqn:Ez; eexists; (split; [reflexivity |]);
    rewrite get_qty_run; cbn [stock_data].
  - rewrite dict_get_del_eq. split; [| reflexivity].
    intros Hpos. apply positive_not_zero in Hpos. congruence.
  - rewrite dict_get_set_eq. split; [reflexivity | discriminate].
Qed.

Lemma remove_item_then_get_qty_witness :
  exists w',
    remove_item (VStr "apple") (VInt 2) (sample_world []) = (Return tt, w') /\
    get_qty (VStr "apple") w' = (Return (float_of_Z 6), w').
Proof.
  destruct (remove_item_then_get_qty (sample_world []) "apple" (float_of_Z 8)
                                     (VInt 2) (NInt 2) (float_of_Z 2))
    as (w' & Hremove & Hpositive & _);
    try first [reflexivity | exact I].
  exists w'. split; [exact Hremove | apply Hpositive; reflexivity].
Defined.

(** ** C5: [remove_item] of more than the stored quantity *)

(** C5, as stated, fails: after [add_item("a", 2 ** 53)] the stored
    quantity is 9007199254740992.0, and [2 ** 53 + 1] is strictly greater;
    [float(2 ** 53 + 1)] rounds to 9007199254740992.0, the difference is
    0.0, and [remove_item("a", 2 ** 53 + 1)] succeeds and deletes the
    entry. *)
Lemma remove_item_rounded_quantity :
  ~ (forall (w : world) (name : string) (q : pyfloat) (qty : value) (n : number),
        reachable python_values w ->
        dict_get name (stock_data w) = Some q ->
        as_number qty = Some n ->
        number_wf n ->
        num_gt n (NFloat q) = true ->
        exists (available : pyfloat) (tried : value),
          remove_item (VStr name) qty w =
          (Raise (ValueError (MsgInsufficient name available tried)), w)).
Proof.
  intros H.
  destruct (H {| stock_data := [("a", float_of_Z (2 ^ 53))]; files := [] |}
              "a" (float_of_Z (2 ^ 53)) (VInt (2 ^ 53 + 1)) (NInt (2 ^ 53 + 1)))
    as (available & tried & Hw');
    try (vm_compute; reflexivity).
  - apply reach_step with (w := initial []) (o := Add (VStr "a") (VInt (2 ^ 53))).
    + apply reach_initial.
    + exact I.
    + vm_compute. reflexivity.
  - vm_compute in Hw'. discriminate Hw'.
Qed.

(** C5, amended: for every item present in the inventory under a name
    that is not empty after trimming, with stored quantity [q], and every
    numeric [qty > 0] that [float] converts with [float(qty) > q],
    [remove_item] raises the [ValueError] that reports the available
    quantity [q] and the requested [qty], and leaves the inventory as it
    was. *)
Theorem remove_item_insufficient_stock
        (w : world) (name : string) (q : pyfloat)
        (qty : value) (n : number) (f : pyfloat) :
  str_bool (strip name) = true ->
  dict_get name (stock_data w) = Some q ->
  fvalid q = true ->
  as_number qty = Some n ->
  number_wf n ->
  num_gt n (NInt 0) = true ->
  to_float n = inr f ->
  flt q f = true ->
  remove_item (VStr name) qty w =
  (Raise (ValueError (MsgInsufficient name q qty)), w).
Proof.
  intros Hs Hq Vq Hn Vn Hgt Hf Hlt.
  pose proof (to_float_valid n f Vn Hf) as Vf.
  rewrite (remove_item_run w name q qty n f)
    by auto using num_gt_zero_not_le.
  rewrite (FloatFacts.fsub_negative q f Vq Vf Hlt). reflexivity.
Qed.

Lemma remove_item_insufficient_stock_witness :
  remove_item (VStr "banana") (VInt 5) (sample_world []) =
  (Raise (ValueError (MsgInsufficient "banana" (float_of_Z 3) (VInt 5))),
   sample_world []).
Proof.
  apply (remove_item_insufficient_stock (sample_world []) "banana" (float_of_Z 3)
                                        (VInt 5) (NInt 5) (float_of_Z 5));
    first [reflexivity | exact I].
Defined.

(** ** C1: the stored quantities *)

Lemma add_item_inv (w : world) (item qty : value) (w' : world) :
  add_item item qty w = (Return tt, w') ->
  exists name n f,
    item = VStr name /\ as_number qty = Some n /\
    num_lt n (NInt 0) = false /\ to_float n = inr f /\
    w' = {| stock_data :=
              dict_set name (fadd (dict_get_default name fzero (stock_data w)) f)
                       (stock_data w);
            files := files w |}.
Proof.
  unfold_py. destruct item as [| | | | name | |]; cbn [as_str]; try discriminate.
  destruct (str_bool (strip name)); [| discriminate].
  destruct (as_number qty) as [n |]; [| discriminate].
  destruct (num_lt n (NInt 0)) eqn:Hlt; [discriminate |].
  destruct (to_float n) as [e | f] eqn:Hf; [discriminate |].
  intros [= <-]. exists name, n, f. auto.
Qed.

Lemma remove_item_inv (w : world) (item qty : value) (w' : world) :
  remove_item item qty w = (Return tt, w') ->
  exists name new_qty,
    item = VStr name /\ flt new_qty fzero = false /\
    (feq new_qty fzero = true /\
     w' = {| stock_data := dict_del name (stock_data w); files := files w |}
     \/
     feq new_qty fzero = false /\
     w' = {| stock_data := dict_set name new_qty (stock_data w); files := files w |}).
Proof.
  unfold_py. destruct item as [| | | | name | |]; cbn [as_str]; try discriminate.
  destruct (str_bool (strip name)); [| discriminate].
  destruct (as_number qty) as [n |]; [| discriminate].
  destruct (num_le n (NInt 0)); [discriminate |].
  destruct (dict_get name (stock_data w)) as [q |]; [| discriminate].
  destruct (to_float n) as [e | f]; [discriminate |].
  destruct (flt (fsub q f) fzero) eqn:Hneg; [discriminate |].
  destruct (feq (fsub q f) fzero) eqn:Hz; intros [= <-];
    exists name, (fsub q f); auto.
Qed.

Lemma to_float_not_negative (n : number) (f : pyfloat) :
  num_lt n (NInt 0) = false -> to_float n = inr f -> flt f fzero = false.
Proof.
  destruct n as [z | g]; cbn [to_float].
  - intros Hz Hf.
    assert (Hf' : f = float_of_Z z).
    { destruct (float_of_Z z); congruence. }
    subst f. apply FloatFacts.float_of_Z_not_negative.
    unfold num_lt in Hz. cbn [num_compare] in Hz.
    destruct (Z.compare_spec z 0); try discriminate; lia.
  - rewrite num_lt_float_zero. congruence.
Qed.

(** The loop of [load_data] over a file without negative values keeps the
    dictionary free of negative quantities. *)
Lemma load_entries_none_negative (items : list (value * value)) :
  forallb not_negative (map snd items) = true ->
  forall (w w' : world) (o : outcome unit),
    none_negative (stock_data w) ->
    load_entries items w = (o, w') ->
    none_negative (stock_data w').
Proof.
  induction items as [| [key v] rest IH]; cbn [map snd forallb load_entries];
    intros Hall w w' o Hw Hrun.
  - unfold ret in Hrun. congruence.
  - apply andb_prop in Hall as [Hv Hrest].
    unfold not_negative in Hv.
    destruct (as_str key) as [k |]; [| unfold raise in Hrun; congruence].
    destruct (as_number v) as [n |]; [| unfold raise in Hrun; congruence].
    apply negb_true_iff in Hv.
    unfold_py. unfold_py_in Hrun.
    destruct (to_float n) as [e | f] eqn:Hf; [congruence |].
    apply (IH Hrest _ w' o) in Hrun; [exact Hrun |]. cbn [stock_data].
    apply dict_set_Forall; [exact Hw |].
    apply (to_float_not_negative n f Hv Hf).
Qed.

Lemma load_data_inv (w : world) (file_path : string) (o : outcome unit) (w' : world) :
  load_data file_path w = (o, w') ->
  (exists items,
      read_json file_path (files w) = inr (VDict items) /\
      load_entries items {| stock_data := []; files := files w |} = (o, w'))
  \/ (exists e, o = Raise e /\ w' = w).
Proof.
  unfold_py. destruct (read_json file_path (files w)) as [e | data].
  - intros [= <- <-]. right. eexists. split; reflexivity.
  - destruct data as [| | | | | | items];
      try (intros [= <- <-]; right; eexists; split; reflexivity).
    intros H. left. exists items. split; [reflexivity | exact H].
Qed.

(** C1, as stated, fails: [add_item("x", 0)] on the empty inventory
    succeeds and stores the entry ["x": 0.0], whose quantity is not
    strictly greater than zero. *)
Lemma add_item_zero_quantity :
  ~ (forall w : world, reachable python_values w -> all_positive (stock_data w)).
Proof.
  intros H.
  assert (Hr : reachable python_values
                 {| stock_data := [("x", fzero)]; files := [] |}).
  { apply reach_step with (w := initial []) (o := Add (VStr "x") (VInt 0)).
    - apply reach_initial.
    - exact I.
    - vm_compute. reflexivity. }
  apply H in Hr. cbn [stock_data] in Hr. inversion Hr as [| kv rest Hkv Hrest].
  cbn in Hkv. discriminate Hkv.
Qed.

(** [load_data] stores the numbers of the file whatever their sign. *)
Lemma load_data_negative_value :
  load_data "inventory.json"
            (initial [("inventory.json", Json (VDict [(VStr "a", VInt (-5))]))]) =
  (Return tt,
   {| stock_data := [("a", float_of_Z (-5))];
      files := [("inventory.json", Json (VDict [(VStr "a", VInt (-5))]))] |}) /\
  flt (float_of_Z (-5)) fzero = true.
Proof. split; vm_compute; reflexivity. Qed.

(** C1, amended: in every inventory reached from the empty mapping by
    successful [add_item], [remove_item] and [load_data] calls, the loaded
    files holding no negative value, no stored quantity is below zero; and
    a successful [remove_item] never leaves the item it removed from in the
    mapping with a quantity equal to zero. *)
Theorem stored_quantities_not_negative (w : world) :
  reachable loads_without_negatives w ->
  none_negative (stock_data w) /\
  (forall (item qty : value) (w' : world) (name : string) (left : pyfloat),
      remove_item item qty w = (Return tt, w') ->
      item = VStr name ->
      dict_get name (stock_data w') = Some left ->
      feq left fzero = false).
Proof.
  intros Hr. split.
  - induction Hr as [fs | w o w' Hr IH Hallowed Hrun].
    + constructor.
    + destruct o as [item qty | item qty | file_path]; cbn [run] in Hrun.
      * apply add_item_inv in Hrun as (name & n & f & _ & _ & Hlt & Hf & ->).
        cbn [stock_data]. apply dict_set_Forall; [exact IH |]. cbn [snd].
        apply FloatFacts.fadd_not_negative.
        -- unfold dict_get_default.
           destruct (dict_get name (stock_data w)) as [q |] eqn:Hq; [| reflexivity].
           apply (dict_get_Forall name _ q (stock_data w) IH Hq).
        -- apply (to_float_not_negative n f Hlt Hf).
      * apply remove_item_inv in Hrun
          as (name & new_qty & _ & Hneg & [[_ ->] | [_ ->]]); cbn [stock_data].
        -- apply dict_del_Forall, IH.
        -- apply dict_set_Forall; [exact IH | exact Hneg].
      * cbn [loads_without_negatives] in Hallowed.
        apply load_data_inv in Hrun as [(items & Hread & Hrun) | (e & [=] & _)].
        rewrite Hread in Hallowed.
        apply (load_entries_none_negative items Hallowed _ w' _) in Hrun;
          [exact Hrun | constructor].
  - intros item qty w' name left Hrun -> Hget.
    apply remove_item_inv in Hrun
      as (name' & new_qty & [= <-] & _ & [[_ ->] | [Hz ->]]);
      cbn [stock_data] in Hget.
    + rewrite dict_get_del_eq in Hget. discriminate Hget.
    + rewrite dict_get_set_eq in Hget. congruence.
Qed.

Lemma stored_quantities_not_negative_witness :
  none_negative [("apple", float_of_Z 10)].
Proof.
  apply (stored_quantities_not_negative
           {| stock_data := [("apple", float_of_Z 10)]; files := [] |}).
  apply reach_step with (w := initial []) (o := Add (VStr "apple") (VInt 10)).
  - apply reach_initial.
  - exact I.
  - reflexivity.
Defined.

(** ** The dictionary of a reachable world *)

Lemma dict_set_keys (k : string) (v : pyfloat) (d : dict) :
  dict_keys (dict_set k v d) =
  if dict_contains k d then dict_keys d else dict_keys d ++ [k].
Proof.
  unfold dict_contains.
  destruct (dict_get k d) as [q |] eqn:Hq.
  - induction d as [| [k' v'] rest IH]; cbn [dict_get dict_set] in *; [discriminate |].
    destruct (string_eqb k k') eqn:E; cbn [dict_keys map fst].
    + apply string_eqb_eq in E. subst k'. reflexivity.
    + f_equal. apply IH, Hq.
  - rewrite dict_set_absent by exact Hq. unfold dict_keys. rewrite map_app. reflexivity.
Qed.

Lemma dict_set_wf (k : string) (v : pyfloat) (d : dict) :
  dict_wf d -> dict_wf (dict_set k v d).
Proof.
  unfold dict_wf. intros Hd. rewrite dict_set_keys. unfold dict_contains.
  destruct (dict_get k d) eqn:Hq; [exact Hd |].
  apply NoDup_app; [exact Hd | repeat constructor; intros [] | ].
  intros x Hx [Heq | []]. subst x. apply (dict_get_absent k d) in Hq. contradiction.
Qed.

Lemma dict_del_keys (k x : string) (d : dict) :
  In x (dict_keys (dict_del k d)) -> In x (dict_keys d).
Proof.
  induction d as [| [k' v'] rest IH]; cbn [dict_del dict_keys map In fst]; [tauto |].
  destruct (string_eqb k k'); cbn [dict_keys map In fst]; intuition.
Qed.

Lemma dict_del_wf (k : string) (d : dict) : dict_wf d -> dict_wf (dict_del k d).
Proof.
  unfold dict_wf. induction d as [| [k' v'] rest IH];
    cbn [dict_del dict_keys map fst]; intros Hd; [constructor |].
  inversion Hd as [| x xs Hnotin Hrest]; subst.
  destruct (string_eqb k k'); cbn [dict_keys map fst].
  - apply IH, Hrest.
  - constructor; [| apply IH, Hrest].
    intros H. apply Hnotin. apply (dict_del_keys k k' rest H).
Qed.

(** The loop of [load_data] keeps the keys distinct and, over a file of
    Python numbers, the quantities floats. *)
Lemma load_entries_wf (items : list (value * value)) :
  Forall value_wf (map snd items) ->
  forall (w w' : world) (o : outcome unit),
    dict_wf (stock_data w) -> dict_valid (stock_data w) ->
    load_entries items w = (o, w') ->
    dict_wf (stock_data w') /\ dict_valid (stock_data w').
Proof.
  induction items as [| [key v] rest IH]; cbn [map snd load_entries];
    intros Hall w w' o Hwf Hval Hrun.
  - unfold ret in Hrun. injection Hrun as _ <-. auto.
  - inversion Hall as [| x xs Hv Hrest]; subst. unfold value_wf in Hv.
    destruct (as_str key) as [k |];
      [| unfold raise in Hrun; injection Hrun as _ <-; auto].
    destruct (as_number v) as [n |];
      [| unfold raise in Hrun; injection Hrun as _ <-; auto].
    unfold_py_in Hrun.
    destruct (to_float n) as [e | f] eqn:Hf; [injection Hrun as _ <-; auto |].
    apply (IH Hrest _ w' o) in Hrun; [exact Hrun | |]; cbn [stock_data].
    + apply dict_set_wf, Hwf.
    + apply dict_set_Forall; [exact Hval |]. apply (to_float_valid n f Hv Hf).
Qed.

(** In every world Python reaches the dictionary has distinct keys and
    holds floats. *)
Lemma reachable_world_wf (w : world) :
  reachable python_values w ->
  dict_wf (stock_data w) /\ dict_valid (stock_data w).
Proof.
  intros Hr. induction Hr as [fs | w o w' Hr [IHwf IHval] Hallowed Hrun].
  - split; constructor.
  - destruct o as [item qty | item qty | file_path];
      cbn [run python_values] in Hrun, Hallowed.
    + unfold value_wf in Hallowed.
      apply add_item_inv in Hrun as (name & n & f & _ & Hn & _ & Hf & ->).
      rewrite Hn in Hallowed. cbn [stock_data]. split.
      * apply dict_set_wf, IHwf.
      * apply dict_set_Forall; [exact IHval |]. cbn [snd].
        apply FloatFacts.fadd_valid; [| apply (to_float_valid n f Hallowed Hf)].
        unfold dict_get_default.
        destruct (dict_get name (stock_data w)) as [q |] eqn:Hq; [| reflexivity].
        apply (dict_get_Forall name _ q (stock_data w) IHval Hq).
    + unfold value_wf in Hallowed. revert Hrun. unfold_py.
      destruct item as [| | | | name | |]; cbn [as_str]; try discriminate.
      destruct (str_bool (strip name)); [| discriminate].
      destruct (as_number qty) as [n |]; [| discriminate].
      destruct (num_le n (NInt 0)); [discriminate |].
      destruct (dict_get name (stock_data w)) as [q |] eqn:Hq; [| discriminate].
      destruct (to_float n) as [e | f] eqn:Hf; [discriminate |].
      destruct (flt (fsub q f) fzero); [discriminate |].
      destruct (feq (fsub q f) fzero); intros [= <-]; cbn [stock_data]; split.
      * apply dict_del_wf, IHwf.
      * apply dict_del_Forall, IHval.
      * apply dict_set_wf, IHwf.
      * apply dict_set_Forall; [exact IHval |]. cbn [snd].
        apply FloatFacts.fsub_valid; [| apply (to_float_valid n f Hallowed Hf)].
        apply (dict_get_Forall name _ q (stock_data w) IHval Hq).
    + apply load_data_inv in Hrun as [(items & Hread & Hrun) | (e & [=] & _)].
      rewrite Hread in Hallowed.
      apply (load_entries_wf items Hallowed _ w' _) in Hrun;
        [exact Hrun | constructor | constructor].
Qed.

(** ** C2, C6, C7, C8: [load_data] *)

(** The loop of [load_data] over entries that are all accepted, whose
    numbers [float] converts and whose keys are new: every entry goes to
    the end of the dictionary, in the order of the file. *)
Lemma load_entries_accepted (items : list (value * value)) :
  forallb entry_ok items = true ->
  forallb convertible (map snd items) = true ->
  NoDup (map fst items) ->
  forall (acc : dict) (fs : filesystem),
    (forall k, In (VStr k) (map fst items) -> ~ In k (dict_keys acc)) ->
    load_entries items {| stock_data := acc; files := fs |} =
    (Return tt, {| stock_data := acc ++ coerced items; files := fs |}).
Proof.
  induction items as [| [key v] rest IH];
    cbn [forallb map fst snd load_entries coerced];
    intros Hok Hconv Hnd acc fs Hnew.
  - rewrite app_nil_r. reflexivity.
  - apply andb_prop in Hok as [Hkv Hok]. apply andb_prop in Hconv as [Hv Hconv].
    inversion Hnd as [| key' rest' Hnotin Hnd']; subst.
    unfold entry_ok in Hkv. cbn [fst snd] in Hkv. unfold convertible in Hv.
    destruct key as [| | | | k | |]; cbn [as_str] in Hkv |- *; try discriminate.
    destruct (as_number v) as [n |]; [| discriminate].
    destruct (to_float n) as [e | f] eqn:Hf; [discriminate |].
    unfold_py. cbn [stock_data files].
    rewrite dict_set_absent
      by (apply dict_get_absent, Hnew; left; reflexivity).
    rewrite IH; try assumption.
    + rewrite <- app_assoc. reflexivity.
    + intros k' Hin Hin'. unfold dict_keys in Hin'.
      rewrite map_app in Hin'. apply in_app_or in Hin' as [Hin' | Hin'].
      * apply (Hnew k'); [right; exact Hin | exact Hin'].
      * cbn in Hin'. destruct Hin' as [<- | []]. contradiction.
Qed.

(** The loop of [load_data] over a file with an entry that is not
    accepted raises the [ValueError] of the entries. *)
Lemma load_entries_rejected (items : list (value * value)) :
  forallb entry_ok items = false ->
  forallb convertible (map snd items) = true ->
  forall w : world,
  exists w', load_entries items w = (Raise (ValueError MsgFileEntries), w').
Proof.
  induction items as [| [key v] rest IH];
    cbn [forallb map snd load_entries]; intros Hbad Hconv w.
  - discriminate Hbad.
  - apply andb_prop in Hconv as [Hv Hconv].
    unfold entry_ok in Hbad. cbn [fst snd] in Hbad. unfold convertible in Hv.
    destruct (as_str key) as [k |]; [| eexists; reflexivity].
    destruct (as_number v) as [n |]; [| eexists; reflexivity].
    destruct (to_float n) as [e | f] eqn:Hf; [discriminate |].
    cbn [andb] in Hbad. unfold_py.
    apply (IH Hbad Hconv).
Qed.

(** Of accepted entries whose numbers convert, [coerced] drops none. *)
Lemma coerced_loaded_from (items : list (value * value)) :
  forallb entry_ok items = true ->
  forallb convertible (map snd items) = true ->
  Forall2 loaded_from items (coerced items).
Proof.
  induction items as [| [key v] rest IH]; cbn [forallb map snd coerced];
    intros Hok Hconv; [constructor |].
  apply andb_prop in Hok as [Hkv Hok]. apply andb_prop in Hconv as [Hv Hconv].
  unfold entry_ok in Hkv. cbn [fst snd] in Hkv. unfold convertible in Hv.
  destruct key as [| | | | k | |]; cbn [as_str] in Hkv; try discriminate.
  destruct (as_number v) as [n |] eqn:Hn; [| discriminate].
  destruct (to_float n) as [e | f] eqn:Hf; [discriminate |].
  constructor; [| apply IH; assumption].
  split; [reflexivity |]. exists n. auto.
Qed.




(** C2 fails on the code at the file [{"banana": 3, "pear": "many"}] read
    over the inventory [{"apple": 8.0}]: [load_data] raises the
    [ValueError] of the entries, and by then it has emptied the dictionary
    and stored ["banana": 3.0]; the entry of ["apple"] is gone. *)
Lemma load_data_invalid_entry_partial :
  load_data "inventory.json"
    {| stock_data := [("apple", float_of_Z 8)];
       files := [("inventory.json",
                  Json (VDict [(VStr "banana", VInt 3); (VStr "pear", VStr "many")]))] |}
  = (Raise (ValueError MsgFileEntries),
     {| stock_data := [("banana", float_of_Z 3)];
        files := [("inventory.json",
                   Json (VDict [(VStr "banana", VInt 3); (VStr "pear", VStr "many")]))] |}).
Proof. vm_compute. reflexivity. Qed.

(** C8: when the file parses as a JSON value that is not an object,
    [load_data] raises the [ValueError] of the top-level value and leaves
    the inventory, and the whole world, as it was. *)
Theorem load_data_not_an_object (w : world) (file_path : string) (data : value) :
  read_json file_path (files w) = inr data ->
  isinstance_dict data = false ->
  load_data file_path w = (Raise (ValueError MsgFileObject), w).
Proof.
  intros Hread Hdata. unfold_py. rewrite Hread.
  destruct data; try reflexivity. discriminate Hdata.
Qed.

Lemma load_data_not_an_object_witness :
  load_data "inventory.json"
    (sample_world [("inventory.json", Json (VList [VStr "apple"; VInt 8]))])
  = (Raise (ValueError MsgFileObject),
     sample_world [("inventory.json", Json (VList [VStr "apple"; VInt 8]))]).
Proof.
  apply (load_data_not_an_object
           (sample_world [("inventory.json", Json (VList [VStr "apple"; VInt 8]))])
           "inventory.json" (VList [VStr "apple"; VInt 8]));
    reflexivity.
Defined.

(** *** Files *)



Lemma fs_read_log_written (path : string) (fs : filesystem) :
  path <> log_path ->
  fs_read path (log_written fs) = fs_read path fs.
Proof.
  intros Hne. unfold log_written.
  destruct (fs_read log_path fs) as [[v | | [v |] | |] |]; try reflexivity;
    unfold fs_write; cbn [fs_read];
    (replace (string_eqb path log_path) with false
      by (symmetry; apply string_eqb_neq, Hne)); reflexivity.
Qed.

Lemma read_json_log_written (path : string) (fs : filesystem) :
  path <> log_path ->
  read_json path (log_written fs) = read_json path fs.
Proof.
  intros Hne. unfold read_json. rewrite (fs_read_log_written path fs Hne). reflexivity.
Qed.

(** Once a record is in the log, [json.load] reads no value from the log
    file. *)
Lemma fs_read_log_path_written (fs : filesystem) :
  match fs_read log_path (log_written fs) with
  | Some (Json _) | Some (ReadOnly (Some _)) => False
  | _ => True
  end.
Proof.
  unfold log_written.
  destruct (fs_read log_path fs) as [[v | | [v |] | |] |] eqn:E;
    try (rewrite E; exact I);
    unfold fs_write; cbn [fs_read]; rewrite string_eqb_refl; exact I.
Qed.

Lemma log_written_twice (fs : filesystem) :
  log_written (log_written fs) = log_written fs.
Proof.
  unfold log_written at 1. pose proof (fs_read_log_path_written fs) as H.
  destruct (fs_read log_path (log_written fs)) as [[v | | [v |] | |] |];
    try reflexivity; contradiction.
Qed.










(** C7, as stated, fails: the file [{"a": 10 ** 400}] parses as a JSON
    object whose key is a string and whose value is numeric, yet
    [load_data] neither replaces the inventory by its contents nor raises
    a [ValueError]: it raises [OverflowError] at [float(value)], after it
    has emptied the dictionary. *)
Lemma load_data_int_beyond_floats :
  ~ (forall (w : world) (file_path : string) (data : value),
        read_json file_path (files w) = inr data ->
        object_wf data ->
        Forall value_wf (map snd (entries data)) ->
        malformed data = false ->
        (exists w', load_data file_path w = (Return tt, w')) \/
        (exists e w', load_data file_path w = (Raise e, w') /\
                      is_InvalidFormat e = true)).
Proof.
  intros H.
  destruct (H (sample_world [("inventory.json",
                              Json (VDict [(VStr "a", VInt (10 ^ 400))]))])
              "inventory.json" (VDict [(VStr "a", VInt (10 ^ 400))]))
    as [[w' Hw'] | (e & w' & Hw' & He)]; try reflexivity.
  - cbn [object_wf map fst]. repeat constructor. intros [].
  - repeat constructor.
  - vm_compute in Hw'. discriminate Hw'.
  - vm_compute in Hw'. injection Hw' as <- _. discriminate He.
Qed.

(** C7, amended: for every file whose contents parse as JSON with no
    boolean among the values of the object and every integer among them
    within the range of the floats, [load_data] raises the [ValueError] of
    a bad format if and only if the top-level value is not an object, or
    some value of the object is not numeric, or some key is not a string;
    in every other case it succeeds and the inventory becomes the entries
    of the file, in their order, with the quantities converted by
    [float]. *)
Theorem load_data_outcome (w : world) (file_path : string) (data : value) :
  read_json file_path (files w) = inr data ->
  no_booleans data = true ->
  values_convertible data = true ->
  object_wf data ->
  ((exists e w', load_data file_path w = (Raise e, w') /\ is_InvalidFormat e = true)
   <-> malformed data = true) /\
  (malformed data = false ->
   load_data file_path w =
   (Return tt, {| stock_data := coerced (entries data); files := files w |}) /\
   Forall2 loaded_from (entries data) (coerced (entries data))).
Proof.
  intros Hread _ Hconv Hwf.
  assert (Hgood : malformed data = false ->
                  load_data file_path w =
                  (Return tt,
                   {| stock_data := coerced (entries data); files := files w |}) /\
                  Forall2 loaded_from (entries data) (coerced (entries data))).
  { intros Hm. destruct data as [| | | | | | items]; try discriminate Hm.
    cbn [malformed values_convertible object_wf entries] in Hm, Hconv, Hwf |- *.
    apply negb_false_iff in Hm. split; [| apply coerced_loaded_from; assumption].
    unfold load_data, json_load, bind, put_stock. rewrite Hread.
    unfold lift, ret. cbn [files].
    rewrite (load_entries_accepted items Hm Hconv Hwf [] (files w)).
    - reflexivity.
    - intros k _ []. }
  split; [split |]; [| | exact Hgood].
  - intros (e & w' & Hrun & He).
    destruct (malformed data) eqn:Hm; [reflexivity |].
    destruct (Hgood eq_refl) as [Hrun' _]. congruence.
  - intros Hm. destruct data as [| | | | | | items];
      try (exists (ValueError MsgFileObject), w; split; [| reflexivity];
           unfold_py; rewrite Hread; reflexivity).
    cbn [malformed values_convertible] in Hm, Hconv. apply negb_true_iff in Hm.
    destruct (load_entries_rejected items Hm Hconv
                {| stock_data := []; files := files w |}) as [w' Hw'].
    exists (ValueError MsgFileEntries), w'. split; [| reflexivity].
    unfold load_data, json_load, bind, put_stock. rewrite Hread. exact Hw'.
Qed.

Lemma load_data_outcome_witness :
  load_data "inventory.json"
    {| stock_data := [("pear", float_of_Z 1)];
       files := [("inventory.json",
                  Json (VDict [(VStr "apple", VInt 8);
                               (VStr "banana", VFloat (float_of_Z 3))]))] |}
  = (Return tt,
     sample_world [("inventory.json",
                    Json (VDict [(VStr "apple", VInt 8);
                                 (VStr "banana", VFloat (float_of_Z 3))]))]).
Proof.
  apply (load_data_outcome
           {| stock_data := [("pear", float_of_Z 1)];
              files := [("inventory.json",
                         Json (VDict [(VStr "apple", VInt 8);
                                      (VStr "banana", VFloat (float_of_Z 3))]))] |}
           "inventory.json"
           (VDict [(VStr "apple", VInt 8); (VStr "banana", VFloat (float_of_Z 3))])).
  - reflexivity.
  - reflexivity.
  - reflexivity.
  - cbn [object_wf map fst]. repeat constructor; cbn [In]; intuition discriminate.
  - reflexivity.
Defined.

(** ** C9: [check_low_items] *)

Lemma quantity_below_cons_eq (t : number) (k : string) (q : pyfloat) (rest : dict) :
  quantity_below t ((k, q) :: rest) k = num_lt (NFloat q) t.
Proof.
  unfold quantity_below. cbn [dict_get]. rewrite string_eqb_refl. reflexivity.
Qed.

Lemma quantity_below_cons_ne (t : number) (k k' : string) (q : pyfloat) (rest : dict) :
  k <> k' ->
  quantity_below t ((k, q) :: rest) k' = quantity_below t rest k'.
Proof.
  intros Hne. unfold quantity_below. cbn [dict_get].
  replace (string_eqb k' k) with false; [reflexivity |].
  symmetry. apply string_eqb_neq. congruence.
Qed.

(** On a dictionary the comprehension over the items is the filter of the
    keys by their stored quantity. *)
Lemma low_items_filter (t : number) (d : dict) :
  dict_wf d -> low_items t d = filter (quantity_below t d) (dict_keys d).
Proof.
  unfold dict_wf. induction d as [| [k q] rest IH];
    cbn [low_items dict_keys map fst filter]; intros Hnd.
  - reflexivity.
  - inversion Hnd as [| k0 keys Hnotin Hnd']; subst.
    rewrite quantity_below_cons_eq.
    assert (Hrest : filter (quantity_below t ((k, q) :: rest)) (map fst rest) =
                    filter (quantity_below t rest) (dict_keys rest)).
    { apply filter_ext_in. intros k' Hin.
      apply quantity_below_cons_ne. intros ->. contradiction. }
    rewrite Hrest, <- (IH Hnd'). reflexivity.
Qed.

(** C9: for every inventory and every numeric threshold [>= 0],
    [check_low_items] returns the names of the inventory, in its iteration
    order, whose stored quantity is strictly below the threshold (those
    names exactly, hence none when no item matches); for a threshold that
    is not numeric or is below zero it raises [ValueError]; either way the
    inventory is as before. *)
Theorem check_low_items_result (w : world) (threshold : value) :
  dict_wf (stock_data w) ->
  (forall t : number,
      as_number threshold = Some t ->
      num_ge t (NInt 0) = true ->
      check_low_items threshold w =
      (Return (filter (quantity_below t (stock_data w)) (dict_keys (stock_data w))), w)
      /\
      (forall name : string,
          In name (filter (quantity_below t (stock_data w)) (dict_keys (stock_data w)))
          <-> exists q, dict_get name (stock_data w) = Some q /\
                        num_lt (NFloat q) t = true)
      /\
      ((forall name q, dict_get name (stock_data w) = Some q ->
                       num_lt (NFloat q) t = false) ->
       check_low_items threshold w = (Return [], w)))
  /\
  (as_number threshold = None \/
   (exists t, as_number threshold = Some t /\ num_lt t (NInt 0) = true) ->
   check_low_items threshold w = (Raise (ValueError MsgThreshold), w)).
Proof.
  intros Hwf. split.
  - intros t Ht Hge.
    assert (Hrun : check_low_items threshold w =
                   (Return (filter (quantity_below t (stock_data w))
                                   (dict_keys (stock_data w))), w)).
    { unfold_py. rewrite Ht, (num_ge_zero_not_lt t Hge).
      rewrite (low_items_filter t (stock_data w) Hwf). reflexivity. }
    assert (Hmem : forall name : string,
               In name (filter (quantity_below t (stock_data w))
                               (dict_keys (stock_data w)))
               <-> exists q, dict_get name (stock_data w) = Some q /\
                             num_lt (NFloat q) t = true).
    { intros name. rewrite filter_In. unfold quantity_below. split.
      - intros [_ Hq]. destruct (dict_get name (stock_data w)) as [q |];
          [exists q; auto | discriminate].
      - intros (q & Hq & Hlt). rewrite Hq. split; [| exact Hlt].
        destruct (in_dec string_dec name (dict_keys (stock_data w))) as [Hin | Hout];
          [exact Hin |].
        apply dict_get_absent in Hout. congruence. }
    split; [exact Hrun |]. split; [exact Hmem |].
    intros Hnone. rewrite Hrun. f_equal. f_equal.
    destruct (filter _ _) as [| name rest] eqn:Hf; [reflexivity |].
    destruct (proj1 (Hmem name)) as (q & Hq & Hlt); [left; reflexivity |].
    rewrite (Hnone name q Hq) in Hlt. discriminate Hlt.
  - intros [Hnone | (t & Ht & Hlt)]; unfold_py.
    + rewrite Hnone. reflexivity.
    + rewrite Ht, Hlt. reflexivity.
Qed.

Lemma check_low_items_result_witness :
  check_low_items (VInt 5) (sample_world []) = (Return ["banana"], sample_world []) /\
  check_low_items (VInt (-1)) (sample_world []) =
  (Raise (ValueError MsgThreshold), sample_world []).
Proof.
  split.
  - exact (proj1 (proj1 (check_low_items_result (sample_world []) (VInt 5)
                                                 sample_stock_wf)
                        (NInt 5) eq_refl eq_refl)).
  - apply (proj2 (check_low_items_result (sample_world []) (VInt (-1))
                                         sample_stock_wf)).
    right. exists (NInt (-1)). split; reflexivity.
Defined.

(** ** C10: names are stored as they are given *)

(** [add_item] leaves the entries of the other names alone, whatever its
    outcome. *)
Lemma add_item_other_name (w : world) (name other : string) (qty : value) :
  name <> other ->
  dict_get other (stock_data (snd (add_item (VStr name) qty w))) =
  dict_get other (stock_data w).
Proof.
  intros Hne. unfold_py. cbn [as_str].
  destruct (str_bool (strip name)); [| reflexivity].
  destruct (as_number qty) as [n |]; [| reflexivity].
  destruct (num_lt n (NInt 0)); [reflexivity |].
  destruct (to_float n) as [e | f]; [reflexivity |].
  cbn [snd stock_data]. apply dict_get_set_ne, Hne.
Qed.

(** So does [remove_item]. *)
Lemma remove_item_other_name (w : world) (name other : string) (qty : value) :
  name <> other ->
  dict_get other (stock_data (snd (remove_item (VStr name) qty w))) =
  dict_get other (stock_data w).
Proof.
  intros Hne. unfold_py. cbn [as_str].
  destruct (str_bool (strip name)); [| reflexivity].
  destruct (as_number qty) as [n |]; [| reflexivity].
  destruct (num_le n (NInt 0)); [reflexivity |].
  destruct (dict_get name (stock_data w)) as [q |]; [| reflexivity].
  destruct (to_float n) as [e | f]; [reflexivity |].
  destruct (flt (fsub q f) fzero); [reflexivity |].
  destruct (feq (fsub q f) fzero); cbn [snd stock_data].
  - apply dict_get_del_ne, Hne.
  - apply dict_get_set_ne, Hne.
Qed.

(** [remove_item] of a name that is not a key raises and changes nothing. *)
Lemma remove_item_absent (w : world) (name : string) (qty : value) :
  dict_get name (stock_data w) = None ->
  exists e, remove_item (VStr name) qty w = (Raise e, w).
Proof.
  intros Hget. unfold_py. cbn [as_str].
  destruct (str_bool (strip name)); [| eexists; reflexivity].
  destruct (as_number qty) as [n |]; [| eexists; reflexivity].
  destruct (num_le n (NInt 0)); [eexists; reflexivity |].
  rewrite Hget. eexists; reflexivity.
Qed.

(** C10: names are keys as they are given, trimming only decides whether a
    name is blank. For two names that differ only in leading or trailing
    white space: [add_item] under one, with a quantity that passes the
    guard and converts, succeeds whenever the name is not blank, and
    stores the sum under that very spelling, the entry of the other
    spelling staying as it was; [add_item] and [remove_item] under one
    never change what [get_qty] returns for the other, whatever their
    outcome; and when only the other is stored, [get_qty] and
    [remove_item] under the first find no entry: they raise [KeyError]
    ([remove_item] when its guards pass) and leave the inventory alone. *)
Theorem names_stored_verbatim (w : world) (a b : string) (qty : value) :
  strip a = strip b ->
  a <> b ->
  (forall n f,
      str_bool (strip a) = true ->
      as_number qty = Some n -> num_lt n (NInt 0) = false -> to_float n = inr f ->
      exists w',
        add_item (VStr a) qty w = (Return tt, w') /\
        get_qty (VStr a) w' =
        (Return (fadd (dict_get_default a fzero (stock_data w)) f), w') /\
        dict_get b (stock_data w') = dict_get b (stock_data w)) /\
  (forall w', add_item (VStr a) qty w = (Return tt, w') ->
              dict_contains a (stock_data w') = true) /\
  fst (get_qty (VStr b) (snd (add_item (VStr a) qty w))) = fst (get_qty (VStr b) w) /\
  fst (get_qty (VStr b) (snd (remove_item (VStr a) qty w))) = fst (get_qty (VStr b) w) /\
  (dict_get a (stock_data w) = None ->
   get_qty (VStr a) w = (Raise (KeyError (MsgKey (VStr a))), w) /\
   (exists e, remove_item (VStr a) qty w = (Raise e, w)) /\
   (forall n,
       str_bool (strip a) = true ->
       as_number qty = Some n -> num_le n (NInt 0) = false ->
       remove_item (VStr a) qty w = (Raise (KeyError (MsgNotFound a)), w))).
Proof.
  intros _ Hne. split; [| split; [| split; [| split]]].
  - intros n f Hs Hn Hlt Hf. eexists. split; [| split].
    + apply (add_item_run w a qty n f); assumption.
    + rewrite get_qty_run. cbn [stock_data]. rewrite dict_get_set_eq. reflexivity.
    + cbn [stock_data]. apply dict_get_set_ne, Hne.
  - intros w' Hrun.
    apply add_item_inv in Hrun as (name & n & f & [= <-] & _ & _ & _ & ->).
    unfold dict_contains. cbn [stock_data]. rewrite dict_get_set_eq. reflexivity.
  - rewrite !get_qty_run, (add_item_other_name w a b qty Hne).
    destruct (dict_get b (stock_data w)); reflexivity.
  - rewrite !get_qty_run, (remove_item_other_name w a b qty Hne).
    destruct (dict_get b (stock_data w)); reflexivity.
  - intros Hget. split; [| split].
    + rewrite get_qty_run, Hget. reflexivity.
    + apply remove_item_absent, Hget.
    + intros n Hs Hn Hle. unfold_py. cbn [as_str]. rewrite Hs, Hn, Hle, Hget.
      reflexivity.
Qed.

Lemma names_stored_verbatim_witness :
  exists w',
    add_item (VStr " apple") (VInt 1) (sample_world []) = (Return tt, w') /\
    get_qty (VStr " apple") w' = (Return (float_of_Z 1), w') /\
    dict_get "apple" (stock_data w') = Some (float_of_Z 8).
Proof.
  destruct (names_stored_verbatim (sample_world []) " apple" "apple" (VInt 1))
    as [Hadd _]; [reflexivity | discriminate |].
  exact (Hadd (NInt 1) (float_of_Z 1) eq_refl eq_refl eq_refl eq_refl).
Defined.

(** * Further properties of the operations *)

(** ** Failures of [add_item] and [remove_item] *)

(** X1: [add_item] validates before it mutates. It succeeds exactly when
    the item is a string that is not blank and the quantity is a number
    that is not below zero and that [float] converts; when it raises, the
    exception is one of its two [ValueError]s or the [OverflowError] of
    [float], and the world is as before the call. *)
Theorem add_item_succeeds_or_leaves_alone (w : world) (item qty : value) :
  ((exists w', add_item item qty w = (Return tt, w')) <->
   (exists name n f,
       item = VStr name /\ str_bool (strip name) = true /\
       as_number qty = Some n /\ num_lt n (NInt 0) = false /\
       to_float n = inr f)) /\
  (forall e w',
      add_item item qty w = (Raise e, w') ->
      w' = w /\
      (e = ValueError MsgItem \/ e = ValueError MsgQuantityNonNegative \/
       e = OverflowError)).
Proof.
  split; [split |].
  - intros [w' Hrun]. revert Hrun. unfold_py.
    destruct item as [| | | | name | |]; cbn [as_str]; try discriminate.
    destruct (str_bool (strip name)) eqn:Hs; [| discriminate].
    destruct (as_number qty) as [n |]; [| discriminate].
    destruct (num_lt n (NInt 0)) eqn:Hlt; [discriminate |].
    destruct (to_float n) as [e | f] eqn:Hf; [discriminate |].
    intros _. exists name, n, f. auto.
  - intros (name & n & f & -> & Hs & Hn & Hlt & Hf).
    eexists. apply (add_item_run w name qty n f); assumption.
  - intros e w'. unfold_py.
    destruct item as [| | | | name | |]; cbn [as_str];
      try (intros [= <- <-]; auto).
    destruct (str_bool (strip name)); [| intros [= <- <-]; auto].
    destruct (as_number qty) as [n |]; [| intros [= <- <-]; auto].
    destruct (num_lt n (NInt 0)); [intros [= <- <-]; auto |].
    destruct n as [z | g]; cbn [to_float].
    + destruct (float_of_Z z); try discriminate. intros [= <- <-]. auto.
    + discriminate.
Qed.

(** X2: [remove_item] validates before it mutates, in this order: the
    name ([ValueError]), the amount ([ValueError]), the presence of the
    item ([KeyError]), the conversion of the amount ([OverflowError]), the
    stock ([ValueError] with the available quantity and the amount). Each
    check decides as soon as the checks before it have passed, whatever
    the later ones would say; when all pass the call returns; and whenever
    it raises the world is as before the call. *)
Theorem remove_item_raises_and_leaves_alone (w : world) (item qty : value) :
  (forall e w', remove_item item qty w = (Raise e, w') -> w' = w) /\
  ((forall name, item = VStr name -> str_bool (strip name) = false) ->
   remove_item item qty w = (Raise (ValueError MsgItem), w)) /\
  (forall name,
      item = VStr name -> str_bool (strip name) = true ->
      ((forall n, as_number qty = Some n -> num_le n (NInt 0) = true) ->
       remove_item item qty w = (Raise (ValueError MsgQuantityPositive), w)) /\
      (forall n,
          as_number qty = Some n -> num_le n (NInt 0) = false ->
          (dict_get name (stock_data w) = None ->
           remove_item item qty w = (Raise (KeyError (MsgNotFound name)), w)) /\
          (forall q,
              dict_get name (stock_data w) = Some q ->
              (forall e, to_float n = inl e ->
                         e = OverflowError /\
                         remove_item item qty w = (Raise OverflowError, w)) /\
              (forall f,
                  to_float n = inr f ->
                  (flt (fsub q f) fzero = true ->
                   remove_item item qty w =
                   (Raise (ValueError (MsgInsufficient name q qty)), w)) /\
                  (flt (fsub q f) fzero = false ->
                   exists w', remove_item item qty w = (Return tt, w')))))).
Proof.
  split; [| split].
  - intros e w'. unfold_py.
    destruct item as [| | | | name | |]; cbn [as_str];
      try (intros [= _ <-]; reflexivity).
    destruct (str_bool (strip name)); [| intros [= _ <-]; reflexivity].
    destruct (as_number qty) as [n |]; [| intros [= _ <-]; reflexivity].
    destruct (num_le n (NInt 0)); [intros [= _ <-]; reflexivity |].
    destruct (dict_get name (stock_data w)) as [q |]; [| intros [= _ <-]; reflexivity].
    destruct (to_float n) as [e' | f]; [intros [= _ <-]; reflexivity |].
    destruct (flt (fsub q f) fzero); [intros [= _ <-]; reflexivity |].
    destruct (feq (fsub q f) fzero); discriminate.
  - intros Hblank. unfold_py.
    destruct item as [| | | | name | |]; cbn [as_str]; try reflexivity.
    rewrite (Hblank name eq_refl). reflexivity.
  - intros name -> Hs. split.
    + intros Hbad. unfold_py. cbn [as_str]. rewrite Hs.
      destruct (as_number qty) as [n |]; [| reflexivity].
      rewrite (Hbad n eq_refl). reflexivity.
    + intros n Hn Hle. split.
      * intros Hget. unfold_py. cbn [as_str]. rewrite Hs, Hn, Hle, Hget. reflexivity.
      * intros q Hget. split.
        -- intros e He. unfold_py. cbn [as_str]. rewrite Hs, Hn, Hle, Hget, He.
           destruct n as [z | g]; cbn [to_float] in He; [| discriminate He].
           destruct (float_of_Z z); try discriminate He; injection He as <-;
             split; reflexivity.
        -- intros f Hf.
           rewrite (remove_item_run w name q qty n f Hs Hn Hle Hget Hf). split.
           ++ intros ->. reflexivity.
           ++ intros ->. destruct (feq (fsub q f) fzero); eexists; reflexivity.
Qed.

(** X3: an item that is not in the inventory. For a name that is not
    blank and a numeric amount that passes the guard [qty <= 0],
    [remove_item] of an absent item raises the [KeyError] of the item,
    before it converts the amount; [get_qty] of an absent name raises
    [KeyError] too; the world is as before either call. *)
Theorem absent_item_raises_KeyError
        (w : world) (name : string) (qty : value) (n : number) :
  dict_get name (stock_data w) = None ->
  get_qty (VStr name) w = (Raise (KeyError (MsgKey (VStr name))), w) /\
  (str_bool (strip name) = true ->
   as_number qty = Some n ->
   num_le n (NInt 0) = false ->
   remove_item (VStr name) qty w = (Raise (KeyError (MsgNotFound name)), w)).
Proof.
  intros Hget. split.
  - rewrite get_qty_run, Hget. reflexivity.
  - intros Hs Hn Hle. unfold_py. cbn [as_str]. rewrite Hs, Hn, Hle, Hget.
    reflexivity.
Qed.

Lemma absent_item_raises_KeyError_witness :
  get_qty (VStr "pear") (sample_world []) =
  (Raise (KeyError (MsgKey (VStr "pear"))), sample_world []) /\
  remove_item (VStr "pear") (VInt (10 ^ 400)) (sample_world []) =
  (Raise (KeyError (MsgNotFound "pear")), sample_world []).
Proof.
  destruct (absent_item_raises_KeyError (sample_world []) "pear"
                                        (VInt (10 ^ 400)) (NInt (10 ^ 400)))
    as [Hget Hremove]; [reflexivity |].
  split; [exact Hget | apply Hremove; reflexivity].
Defined.

(** ** What a call changes *)

Lemma dict_del_keys_filter (k : string) (d : dict) :
  dict_keys (dict_del k d) =
  filter (fun k' => negb (string_eqb k k')) (dict_keys d).
Proof.
  induction d as [| [k' v'] rest IH]; cbn [dict_del dict_keys map fst filter];
    [reflexivity |].
  destruct (string_eqb k k'); cbn [negb dict_keys map fst]; [| f_equal]; exact IH.
Qed.

(** *** The calls with their log records *)

Lemma add_item_files (w : world) (item qty : value) (o : outcome unit) (w' : world) :
  add_item item qty w = (o, w') -> files w' = files w.
Proof.
  unfold_py. destruct item as [| | | | name | |]; cbn [as_str];
    try (intros [= _ <-]; reflexivity).
  destruct (str_bool (strip name)); [| intros [= _ <-]; reflexivity].
  destruct (as_number qty) as [n |]; [| intros [= _ <-]; reflexivity].
  destruct (num_lt n (NInt 0)); [intros [= _ <-]; reflexivity |].
  destruct (to_float n) as [e | f]; intros [= _ <-]; reflexivity.
Qed.

Lemma add_item_logged_inv
      (p : process) (item qty : value) (logs : option (list log_entry)) (now : string)
      (p' : process) (logs' : option (list log_entry)) :
  add_item_logged item qty logs now p = ((Return tt, p'), logs') ->
  exists w',
    add_item item qty (memory p) = (Return tt, w') /\
    p' = {| memory := {| stock_data := stock_data w';
                         files := log_written (files (memory p)) |};
            log_file := log_file p ++ [InfoAdded qty item];
            stdout := stdout p;
            console := console p |} /\
    logs' = match logs with
            | Some entries => Some (entries ++ [LogAdded now qty item])
            | None => None
            end.
Proof.
  unfold add_item_logged, run_py, logging_info.
  destruct (add_item item qty (memory p)) as [[[] | e] w'] eqn:Hrun;
    cbn [memory log_file stdout console]; [| discriminate].
  intros [= <- <-]. exists w'. rewrite (add_item_files _ _ _ _ _ Hrun). auto.
Qed.

(** [remove_item] with its log record is [remove_item] followed, when it
    returns, by the record: of the deletion when the item is gone, of the
    quantity that is left otherwise. *)
Lemma remove_item_logged_unfold (p : process) (item qty : value) :
  remove_item_logged item qty p =
  match remove_item item qty (memory p) with
  | (Return _, w') =>
      (Return tt,
       {| memory := {| stock_data := stock_data w';
                       files := log_written (files (memory p)) |};
          log_file :=
            log_file p ++
            [match as_str item with
             | Some name =>
                 match dict_get name (stock_data w') with
                 | None => InfoRemovedDeleted qty item
                 | Some remaining => InfoRemoved qty item remaining
                 end
             | None => InfoRemovedDeleted qty item
             end];
          stdout := stdout p;
          console := console p |})
  | (Raise e, _) => (Raise e, p)
  end.
Proof.
  unfold remove_item_logged, io_bind, run_py, logging_info. unfold_py.
  destruct p as [[d fs] lf out enc]. cbn [memory log_file stdout console stock_data files].
  destruct item as [| | | | name | |]; cbn [as_str]; try reflexivity.
  destruct (str_bool (strip name)); cbn [memory log_file stdout console]; [| reflexivity].
  destruct (as_number qty) as [n |]; cbn [memory log_file stdout console];
    [| reflexivity].
  destruct (num_le n (NInt 0)); cbn [memory log_file stdout console stock_data];
    [reflexivity |].
  destruct (dict_get name d) as [q |]; cbn [memory log_file stdout console];
    [| reflexivity].
  destruct (to_float n) as [e | f]; cbn [memory log_file stdout console];
    [reflexivity |].
  destruct (flt (fsub q f) fzero); cbn [memory log_file stdout console];
    [reflexivity |].
  destruct (feq (fsub q f) fzero);
    cbn [memory log_file stdout console stock_data files].
  - rewrite dict_get_del_eq. reflexivity.
  - rewrite dict_get_set_eq. reflexivity.
Qed.

(** X4: a successful [add_item] touches one entry and the log. The
    entries of the other names keep their quantities, the keys keep their
    order, a name that was present keeps its place and a new name goes
    last; the log gains the record of the call; every file but the log
    reads as before, and nothing is printed. *)
Theorem add_item_changes_one_entry
        (p : process) (name : string) (qty : value)
        (logs : option (list log_entry)) (now : string)
        (p' : process) (logs' : option (list log_entry)) :
  add_item_logged (VStr name) qty logs now p = ((Return tt, p'), logs') ->
  (forall other, other <> name ->
                 dict_get other (stock_data (memory p')) =
                 dict_get other (stock_data (memory p))) /\
  dict_keys (stock_data (memory p')) =
  (if dict_contains name (stock_data (memory p))
   then dict_keys (stock_data (memory p))
   else dict_keys (stock_data (memory p)) ++ [name]) /\
  log_file p' = log_file p ++ [InfoAdded qty (VStr name)] /\
  (forall path, path <> log_path ->
                fs_read path (files (memory p')) = fs_read path (files (memory p))) /\
  stdout p' = stdout p.
Proof.
  intros Hrun.
  apply add_item_logged_inv in Hrun as (w' & Hrun & -> & _).
  apply add_item_inv in Hrun as (name' & n & f & [= <-] & _ & _ & _ & ->).
  cbn [memory stock_data files log_file stdout].
  split; [| split; [apply dict_set_keys | split; [reflexivity | split]]].
  - intros other Hne. apply dict_get_set_ne. congruence.
  - intros path Hne. apply fs_read_log_written, Hne.
  - reflexivity.
Qed.

Lemma add_item_changes_one_entry_witness :
  dict_keys (stock_data (memory (snd (fst
    (add_item_logged (VStr "pear") (VInt 1) None ""
       {| memory := sample_world []; log_file := []; stdout := [];
          console := utf8_console |}))))) =
  ["apple"; "banana"; "pear"].
Proof.
  exact (proj1 (proj2 (add_item_changes_one_entry
                         {| memory := sample_world []; log_file := []; stdout := [];
                            console := utf8_console |}
                         "pear" (VInt 1) None ""
                         (snd (fst (add_item_logged (VStr "pear") (VInt 1) None ""
                                      {| memory := sample_world []; log_file := [];
                                         stdout := []; console := utf8_console |})))
                         None eq_refl))).
Defined.

(** X5: a successful [remove_item] touches one entry and the log. The
    entries of the other names keep their quantities and their order; the
    item was present, the amount converts, and the item is deleted exactly
    when the difference is zero: then it is the one key that goes,
    otherwise it keeps its place and holds the difference; the log gains
    one record; every file but the log reads as before, and nothing is
    printed. *)
Theorem remove_item_changes_one_entry
        (p : process) (name : string) (qty : value) (p' : process) :
  remove_item_logged (VStr name) qty p = (Return tt, p') ->
  (forall other, other <> name ->
                 dict_get other (stock_data (memory p')) =
                 dict_get other (stock_data (memory p))) /\
  (exists q n f,
      dict_get name (stock_data (memory p)) = Some q /\
      as_number qty = Some n /\ to_float n = inr f /\
      if feq (fsub q f) fzero
      then dict_get name (stock_data (memory p')) = None /\
           dict_keys (stock_data (memory p')) =
           filter (fun k => negb (string_eqb name k)) (dict_keys (stock_data (memory p)))
      else dict_get name (stock_data (memory p')) = Some (fsub q f) /\
           dict_keys (stock_data (memory p')) = dict_keys (stock_data (memory p))) /\
  (exists r, log_file p' = log_file p ++ [r]) /\
  (forall path, path <> log_path ->
                fs_read path (files (memory p')) = fs_read path (files (memory p))) /\
  stdout p' = stdout p.
Proof.
  rewrite remove_item_logged_unfold.
  destruct (remove_item (VStr name) qty (memory p)) as [[[] | e] w'] eqn:Hrun;
    [| discriminate].
  intros [= <-]. cbn [memory stock_data files log_file stdout].
  assert (Hfacts : exists q n f,
             str_bool (strip name) = true /\
             dict_get name (stock_data (memory p)) = Some q /\
             as_number qty = Some n /\ num_le n (NInt 0) = false /\
             to_float n = inr f).
  { revert Hrun. unfold_py. cbn [as_str].
    destruct (str_bool (strip name)) eqn:Hs; [| discriminate].
    destruct (as_number qty) as [n |] eqn:Hn; [| discriminate].
    destruct (num_le n (NInt 0)) eqn:Hle; [discriminate |].
    destruct (dict_get name (stock_data (memory p))) as [q |] eqn:Hq; [| discriminate].
    destruct (to_float n) as [e | f] eqn:Hf; [discriminate |].
    intros _. exists q, n, f. repeat split; auto. }
  destruct Hfacts as (q & n & f & Hs & Hq & Hn & Hle & Hf).
  rewrite (remove_item_run (memory p) name q qty n f Hs Hn Hle Hq Hf) in Hrun.
  destruct (flt (fsub q f) fzero); [discriminate Hrun |].
  split; [| split; [| split; [| split]]].
  - intros other Hne.
    destruct (feq (fsub q f) fzero); injection Hrun as <-; cbn [stock_data].
    + apply dict_get_del_ne. congruence.
    + apply dict_get_set_ne. congruence.
  - exists q, n, f. split; [exact Hq |]. split; [exact Hn |]. split; [exact Hf |].
    destruct (feq (fsub q f) fzero); injection Hrun as <-; cbn [stock_data].
    + split; [apply dict_get_del_eq | apply dict_del_keys_filter].
    + split; [apply dict_get_set_eq |].
      rewrite dict_set_keys. unfold dict_contains. rewrite Hq. reflexivity.
  - eexists; reflexivity.
  - intros path Hne. apply fs_read_log_written, Hne.
  - reflexivity.
Qed.

Lemma remove_item_changes_one_entry_witness :
  dict_get "banana"
    (stock_data (memory (snd
       (remove_item_logged (VStr "apple") (VInt 8)
          {| memory := sample_world []; log_file := []; stdout := [];
             console := utf8_console |})))) =
  Some (float_of_Z 3).
Proof.
  apply (proj1 (remove_item_changes_one_entry
                  {| memory := sample_world []; log_file := []; stdout := [];
                     console := utf8_console |}
                  "apple" (VInt 8)
                  (snd (remove_item_logged (VStr "apple") (VInt 8)
                          {| memory := sample_world []; log_file := []; stdout := [];
                             console := utf8_console |}))
                  eq_refl) "banana").
  discriminate.
Defined.

(** ** Adding and removing the same amount *)



Lemma num_gt_zero_not_lt (n : number) :
  num_gt n (NInt 0) = true -> num_lt n (NInt 0) = false.
Proof.
  unfold num_gt, num_lt. destruct n as [z | f]; cbn [num_compare].
  - rewrite (Z.compare_antisym z 0). destruct (z ?= 0); cbn; congruence.
  - destruct (compare_float_Z f 0) as [[] |]; cbn; congruence.
Qed.

(** A number above zero converts to a float above zero: finite, or the
    infinity. *)
Lemma to_float_positive (n : number) (f : pyfloat) :
  num_gt n (NInt 0) = true ->
  to_float n = inr f ->
  flt f (S754_infinity false) = true ->
  exists m e, f = S754_finite false m e.
Proof.
  destruct n as [z | g]; cbn [to_float]; intros Hgt Hf Hfin.
  - unfold num_gt, num_lt in Hgt. cbn [num_compare] in Hgt.
    destruct (Z.compare_spec 0 z); try discriminate Hgt.
    destruct z as [| p | p]; try lia.
    pose proof (FloatFacts.binary_round_nonzero false p 0
                  ltac:(unfold femin; cbn; lia)) as Hnz.
    unfold float_of_Z in Hf. cbn [binary_normalize] in Hf.
    destruct (binary_round prec emax false p 0) as [s | s | | s m e];
      try contradiction; cbn [nonzero_signed] in Hnz; subst s;
      [discriminate Hf |].
    injection Hf as <-. eauto.
  - injection Hf as <-.
    assert (Hneg : num_lt (NFloat g) (NInt 0) = false)
      by (apply num_gt_zero_not_lt, Hgt).
    rewrite num_lt_float_zero in Hneg.
    destruct g as [s | s | | s m e]; try discriminate.
    + destruct s; discriminate.
    + destruct s; [discriminate Hneg | eauto].
Qed.



(** ** Not a number *)

Lemma fadd_nan (x : pyfloat) : fadd x S754_nan = S754_nan.
Proof. destruct x as [s | s | | s m e]; reflexivity. Qed.

Lemma num_lt_nan (t : number) : num_lt (NFloat S754_nan) t = false.
Proof. destruct t; reflexivity. Qed.



(** ** Integers and floats *)

Lemma float_of_Z_lt_zero (z : Z) : flt (float_of_Z z) fzero = (z <? 0).
Proof.
  destruct (Z.ltb_spec z 0) as [H | H].
  - apply FloatFacts.nonzero_negative_lt_zero.
    apply FloatFacts.binary_normalize_negative; [exact H |].
    unfold femin. cbn. lia.
  - apply FloatFacts.float_of_Z_not_negative, H.
Qed.

(** X8: an integer amount is the amount of its float. For every integer
    that [float] converts, [add_item] with the integer and [add_item]
    with [float] of it have the same outcome and leave the same world:
    the guard [qty < 0] gives the same answer on both. *)
Theorem add_item_int_as_float (w : world) (item : value) (z : Z) (f : pyfloat) :
  to_float (NInt z) = inr f ->
  add_item item (VInt z) w = add_item item (VFloat f) w.
Proof.
  intros Hf.
  assert (Hfz : f = float_of_Z z).
  { cbn [to_float] in Hf. destruct (float_of_Z z); congruence. }
  assert (Hlt : num_lt (NInt z) (NInt 0) = num_lt (NFloat f) (NInt 0)).
  { rewrite num_lt_float_zero, Hfz, float_of_Z_lt_zero.
    unfold num_lt. cbn [num_compare]. unfold Z.ltb. destruct (z ?= 0); reflexivity. }
  unfold_py. cbn [as_number].
  destruct item as [| | | | name | |]; cbn [as_str]; try reflexivity.
  destruct (str_bool (strip name)); [| reflexivity].
  rewrite Hlt. destruct (num_lt (NFloat f) (NInt 0)); [reflexivity |].
  rewrite Hf. reflexivity.
Qed.

Lemma add_item_int_as_float_witness :
  add_item (VStr "apple") (VInt 2) (sample_world []) =
  add_item (VStr "apple") (VFloat (float_of_Z 2)) (sample_world []).
Proof.
  apply (add_item_int_as_float (sample_world []) (VStr "apple") 2 (float_of_Z 2)).
  reflexivity.
Defined.

(** ** Loading and saving *)

Lemma load_entries_files (items : list (value * value)) :
  forall (w w' : world) (o : outcome unit),
    load_entries items w = (o, w') -> files w' = files w.
Proof.
  induction items as [| [key v] rest IH]; cbn [load_entries]; intros w w' o.
  - unfold ret. intros [= _ <-]. reflexivity.
  - destruct (as_str key) as [k |]; [| unfold raise; intros [= _ <-]; reflexivity].
    destruct (as_number v) as [n |]; [| unfold raise; intros [= _ <-]; reflexivity].
    unfold_py. destruct (to_float n) as [e | f]; [intros [= _ <-]; reflexivity |].
    intros Hrun. apply IH in Hrun. exact Hrun.
Qed.

(** The loop of [load_data] does not look at the files. *)
Lemma load_entries_any_files (items : list (value * value)) :
  forall (d : dict) (fs1 fs2 : filesystem),
    fst (load_entries items {| stock_data := d; files := fs1 |}) =
    fst (load_entries items {| stock_data := d; files := fs2 |}) /\
    stock_data (snd (load_entries items {| stock_data := d; files := fs1 |})) =
    stock_data (snd (load_entries items {| stock_data := d; files := fs2 |})).
Proof.
  induction items as [| [key v] rest IH]; cbn [load_entries]; intros d fs1 fs2.
  - split; reflexivity.
  - destruct (as_str key) as [k |]; [| split; reflexivity].
    destruct (as_number v) as [n |]; [| split; reflexivity].
    unfold_py. destruct (to_float n) as [e | f]; [split; reflexivity |].
    cbn [stock_data files]. apply IH.
Qed.

(** [load_data] with its log record is [load_data] followed, when it
    returns, by the record. *)
Lemma load_data_logged_unfold (p : process) (file_path : string) :
  load_data_logged file_path p =
  match load_data file_path (memory p) with
  | (Return _, w') =>
      (Return tt,
       {| memory := {| stock_data := stock_data w';
                       files := log_written (files (memory p)) |};
          log_file := log_file p ++ [InfoLoaded (List.length (stock_data w')) file_path];
          stdout := stdout p;
          console := console p |})
  | (Raise e, w') =>
      (Raise e,
       {| memory := w'; log_file := log_file p; stdout := stdout p;
          console := console p |})
  end.
Proof.
  unfold load_data_logged, io_bind, run_py, logging_info, get_stock.
  destruct (load_data file_path (memory p)) as [[[] | e] w'] eqn:Hrun;
    cbn [memory log_file stdout console]; [| reflexivity].
  assert (Hfiles : files w' = files (memory p)).
  { destruct (load_data_inv _ _ _ _ Hrun) as [(items & _ & Hloop) | (e & [=] & _)].
    apply load_entries_files in Hloop. exact Hloop. }
  rewrite Hfiles. reflexivity.
Qed.

(** Loading again, over whatever files read the same at the path, gives
    the outcome and the inventory of the first load. *)
Lemma load_data_again
      (w : world) (file_path : string) (o : outcome unit) (w' : world)
      (fs' : filesystem) :
  load_data file_path w = (o, w') ->
  read_json file_path fs' = read_json file_path (files w) ->
  fst (load_data file_path {| stock_data := stock_data w'; files := fs' |}) = o /\
  stock_data (snd (load_data file_path {| stock_data := stock_data w'; files := fs' |})) =
  stock_data w'.
Proof.
  intros Hrun Hread.
  destruct (load_data_inv w file_path o w' Hrun)
    as [(items & Hitems & Hloop) | (e & -> & ->)].
  - unfold load_data, json_load, bind, put_stock. cbn [files].
    rewrite Hread, Hitems. unfold lift, ret. cbn [files].
    destruct (load_entries_any_files items [] fs' (files w)) as [Ho Hs].
    rewrite Ho, Hs, Hloop. split; reflexivity.
  - revert Hrun. unfold load_data, json_load, bind, put_stock. cbn [files].
    rewrite Hread.
    destruct (read_json file_path (files w)) as [e' | data]; cbn [lift];
      unfold raise, ret.
    + intros [= ->]. split; reflexivity.
    + destruct data as [| | | | | | items]; try (intros [= ->]; split; reflexivity).
      intros Hloop. destruct w as [d fs]. cbn [files stock_data] in *.
      destruct (load_entries_any_files items [] fs' fs) as [Ho Hs].
      rewrite Ho, Hs, Hloop. split; reflexivity.
Qed.

(** X9: of the files [load_data] touches the log alone, and loading a
    file twice is loading it once: whatever the file at a path other than
    the log's holds, every file but the log reads after [load_data] as
    before, and a second [load_data] of the path has the outcome of the
    first and leaves the inventory the first left. *)
Theorem load_data_idempotent (p : process) (file_path : string) :
  file_path <> log_path ->
  (forall path, path <> log_path ->
                fs_read path (files (memory (snd (load_data_logged file_path p)))) =
                fs_read path (files (memory p))) /\
  fst (load_data_logged file_path (snd (load_data_logged file_path p))) =
  fst (load_data_logged file_path p) /\
  stock_data (memory (snd (load_data_logged file_path
                             (snd (load_data_logged file_path p))))) =
  stock_data (memory (snd (load_data_logged file_path p))).
Proof.
  intros Hlog. rewrite (load_data_logged_unfold p).
  destruct (load_data file_path (memory p)) as [o w'] eqn:Hrun.
  assert (Hfiles : files w' = files (memory p)).
  { destruct (load_data_inv _ _ _ _ Hrun) as [(items & _ & Hloop) | (e & _ & ->)];
      [| reflexivity].
    apply load_entries_files in Hloop. exact Hloop. }
  destruct o as [[] | e]; cbn [fst snd memory files stock_data].
  - split; [intros path Hne; apply fs_read_log_written, Hne |].
    rewrite load_data_logged_unfold. cbn [memory log_file stdout console].
    destruct (load_data_again (memory p) file_path (Return tt) w'
                              (log_written (files (memory p))) Hrun
                              (read_json_log_written _ _ Hlog)) as [Ho Hs].
    destruct (load_data file_path
                {| stock_data := stock_data w';
                   files := log_written (files (memory p)) |}) as [o2 w2].
    cbn [fst snd] in Ho, Hs. subst o2. cbn [fst snd memory stock_data].
    split; [reflexivity | exact Hs].
  - split; [intros path Hne; rewrite Hfiles; reflexivity |].
    rewrite load_data_logged_unfold. cbn [memory log_file stdout console].
    destruct (load_data_again (memory p) file_path (Raise e) w' (files w') Hrun)
      as [Ho Hs]; [rewrite Hfiles; reflexivity |].
    destruct w' as [d' fs']. cbn [stock_data files] in *.
    destruct (load_data file_path {| stock_data := d'; files := fs' |}) as [o2 w2].
    cbn [fst snd] in Ho, Hs. subst o2. cbn [fst snd memory stock_data].
    split; [reflexivity | exact Hs].
Qed.

Lemma load_data_idempotent_witness :
  fst (load_data_logged "inventory.json"
         (snd (load_data_logged "inventory.json"
                 {| memory := sample_world [("inventory.json",
                                             Json (VDict [(VStr "kiwi", VInt 4)]))];
                    log_file := []; stdout := []; console := utf8_console |}))) =
  Return tt.
Proof.
  exact (proj1 (proj2 (load_data_idempotent
                         {| memory := sample_world [("inventory.json",
                                                     Json (VDict [(VStr "kiwi", VInt 4)]))];
                            log_file := []; stdout := []; console := utf8_console |}
                         "inventory.json" ltac:(discriminate)))).
Defined.


(** ** The low-stock report *)

Lemma num_lt_float_zero_float (q : pyfloat) (s : bool) :
  num_lt (NFloat q) (NFloat (S754_zero s)) = flt q fzero.
Proof. destruct q as [[] | [] | | [] m e]; reflexivity. Qed.

(** X11: a threshold of zero reports nothing. On every inventory without
    a quantity below zero (as [add_item] and [remove_item] keep it),
    [check_low_items] with the threshold [0], [0.0], [-0.0] or [False]
    passes the guard and returns the empty list. *)
Theorem check_low_items_zero (w : world) (threshold : value) (t : number) :
  none_negative (stock_data w) ->
  as_number threshold = Some t ->
  (t = NInt 0 \/ exists s, t = NFloat (S754_zero s)) ->
  check_low_items threshold w = (Return [], w).
Proof.
  intros Hnn Ht Hzero. unfold_py. rewrite Ht.
  assert (Hguard : num_lt t (NInt 0) = false)
    by (destruct Hzero as [-> | [[] ->]]; reflexivity).
  rewrite Hguard. f_equal. f_equal.
  induction Hnn as [| [k q] rest Hq Hrest IH]; cbn [low_items]; [reflexivity |].
  cbn [snd] in Hq.
  assert (Hlt : num_lt (NFloat q) t = false).
  { destruct Hzero as [-> | [s ->]].
    - rewrite num_lt_float_zero. exact Hq.
    - rewrite num_lt_float_zero_float. exact Hq. }
  rewrite Hlt. exact IH.
Qed.

Lemma check_low_items_zero_witness :
  check_low_items (VBool false) (sample_world []) = (Return [], sample_world []).
Proof.
  apply (check_low_items_zero (sample_world []) (VBool false) (NInt 0)).
  - repeat constructor.
  - reflexivity.
  - left. reflexivity.
Defined.

(** ** The order of numbers *)

Lemma scaled_pos (m e : Z) : 0 < m -> femin <= e -> 0 < scaled m e.
Proof.
  intros Hm He. unfold scaled.
  assert (0 < 2 ^ (e - femin)) by (apply Z.pow_pos_nonneg; lia). nia.
Qed.

Lemma cond_Zopp_mul (s : bool) (a c : Z) : cond_Zopp s a * c = cond_Zopp s (a * c).
Proof. destruct s; cbn [cond_Zopp]; lia. Qed.

Lemma aligned_scaled (s : bool) (m : positive) (e ez : Z) :
  femin <= ez -> ez <= e ->
  aligned s m e ez * 2 ^ (ez - femin) = cond_Zopp s (scaled (Zpos m) e).
Proof.
  intros H1 H2. unfold aligned, scaled. rewrite cond_Zopp_mul. f_equal.
  replace (e - femin) with (e - ez + (ez - femin)) by lia.
  rewrite Z.pow_add_r by lia. lia.
Qed.

(** On floats [SFcompare] is the order of the values. *)
Lemma SFcompare_value (x y : pyfloat) :
  fvalid x = true -> fvalid y = true ->
  SFcompare x y =
  match float_value x, float_value y with
  | Some a, Some b => Some (extended_compare a b)
  | _, _ => None
  end.
Proof.
  intros Vx Vy.
  destruct x as [sx | sx | | sx mx ex]; destruct y as [sy | sy | | sy my ey];
    cbn [float_value]; try reflexivity;
    try (destruct sx; reflexivity); try (destruct sy; reflexivity);
    try (destruct sx, sy; reflexivity).
  - (* zero, finite *)
    cbn [fvalid valid_binary] in Vy.
    pose proof (FloatFacts.bounded_inv _ _ Vy) as (Hy & _).
    pose proof (scaled_pos (Zpos my) ey ltac:(lia) Hy).
    cbn [SFcompare extended_compare]. f_equal.
    destruct sy; cbn [cond_Zopp]; symmetry;
      [apply Z.compare_gt_iff | apply Z.compare_lt_iff]; lia.
  - (* finite, zero *)
    cbn [fvalid valid_binary] in Vx.
    pose proof (FloatFacts.bounded_inv _ _ Vx) as (Hx & _).
    pose proof (scaled_pos (Zpos mx) ex ltac:(lia) Hx).
    cbn [SFcompare extended_compare]. f_equal.
    destruct sx; cbn [cond_Zopp]; symmetry;
      [apply Z.compare_lt_iff | apply Z.compare_gt_iff]; lia.
  - (* finite, finite *)
    cbn [fvalid valid_binary] in Vx, Vy.
    pose proof (FloatFacts.bounded_inv _ _ Vx) as (Hx & _).
    pose proof (FloatFacts.bounded_inv _ _ Vy) as (Hy & _).
    rewrite FloatFacts.SFcompare_finite by assumption.
    cbn [extended_compare]. f_equal.
    rewrite <- (FloatFacts.compare_mul_pos _ _ (2 ^ (Z.min ex ey - femin)))
      by (apply Z.pow_pos_nonneg; lia).
    rewrite !aligned_scaled by lia. reflexivity.
Qed.

(** Comparing a float with an integer is comparing the values. *)
Lemma compare_float_Z_value (f : pyfloat) (z : Z) :
  fvalid f = true ->
  compare_float_Z f z =
  match float_value f with
  | Some a => Some (extended_compare a (Finite (scaled z 0)))
  | None => None
  end.
Proof.
  intros Vf. assert (Hfe : femin < 0) by reflexivity.
  destruct f as [s | s | | s m e]; cbn [float_value compare_float_Z extended_compare].
  - f_equal. unfold scaled.
    rewrite <- (FloatFacts.compare_mul_pos 0 z (2 ^ (0 - femin)))
      by (apply Z.pow_pos_nonneg; lia).
    reflexivity.
  - destruct s; reflexivity.
  - reflexivity.
  - cbn [fvalid valid_binary] in Vf.
    pose proof (FloatFacts.bounded_inv _ _ Vf) as (He & _).
    f_equal. unfold scaled. destruct (0 <=? e) eqn:E.
    + apply Z.leb_le in E.
      rewrite <- (FloatFacts.compare_mul_pos _ z (2 ^ (0 - femin)))
        by (apply Z.pow_pos_nonneg; lia).
      rewrite cond_Zopp_mul. f_equal. f_equal.
      replace (e - femin) with (e + (0 - femin)) by lia.
      rewrite Z.pow_add_r by lia. lia.
    + apply Z.leb_gt in E.
      rewrite <- (FloatFacts.compare_mul_pos _ _ (2 ^ (e - femin)))
        by (apply Z.pow_pos_nonneg; lia).
      rewrite cond_Zopp_mul. f_equal.
      replace (0 - femin) with (- e + (e - femin)) by lia.
      rewrite Z.pow_add_r by lia. lia.
Qed.

Lemma extended_compare_antisym (x y : extended) :
  extended_compare y x = CompOpp (extended_compare x y).
Proof.
  destruct x, y; cbn [extended_compare CompOpp]; try reflexivity.
  apply Z.compare_antisym.
Qed.

(** Python's comparison of two numbers is the comparison of their
    values. *)
Lemma num_compare_value (a b : number) :
  number_wf a -> number_wf b ->
  num_compare a b =
  match number_value a, number_value b with
  | Some x, Some y => Some (extended_compare x y)
  | _, _ => None
  end.
Proof.
  destruct a as [x | x], b as [y | y]; cbn [number_wf num_compare number_value];
    intros Va Vb.
  - cbn [extended_compare]. f_equal. unfold scaled. symmetry.
    apply FloatFacts.compare_mul_pos, Z.pow_pos_nonneg; [lia | cbn; lia].
  - rewrite (compare_float_Z_value y x Vb).
    destruct (float_value y) as [v |]; [| reflexivity].
    cbn [option_CompOpp]. rewrite <- extended_compare_antisym. reflexivity.
  - rewrite (compare_float_Z_value x y Va).
    destruct (float_value x); reflexivity.
  - apply SFcompare_value; assumption.
Qed.

Lemma extended_lt_le_trans (x y z : extended) :
  extended_compare x y = Lt ->
  extended_compare y z <> Gt ->
  extended_compare x z = Lt.
Proof.
  destruct x as [| a |], y as [| b |], z as [| c |];
    cbn [extended_compare]; intros H1 H2;
    try discriminate H1; try reflexivity; try (exfalso; apply H2; reflexivity).
  change (a < b) in H1. change (b <= c) in H2. change (a < c). lia.
Qed.

Lemma extended_le_trans (x y z : extended) :
  extended_compare x y <> Gt ->
  extended_compare y z <> Gt ->
  extended_compare x z <> Gt.
Proof.
  destruct x as [| a |], y as [| b |], z as [| c |];
    cbn [extended_compare]; intros H1 H2;
    try discriminate; try (exfalso; apply H1; reflexivity);
    try (exfalso; apply H2; reflexivity).
  change (a <= b) in H1. change (b <= c) in H2. change (a <= c). lia.
Qed.

(** [a < b] and [b <= c] give [a < c], across integers and floats. *)
Lemma num_lt_le_trans (a b c : number) :
  number_wf a -> number_wf b -> number_wf c ->
  num_lt a b = true -> num_le b c = true -> num_lt a c = true.
Proof.
  intros Va Vb Vc. unfold num_lt, num_le.
  rewrite (num_compare_value a b Va Vb), (num_compare_value b c Vb Vc),
    (num_compare_value a c Va Vc).
  destruct (number_value a) as [x |]; [| discriminate].
  destruct (number_value b) as [y |]; [| discriminate].
  destruct (number_value c) as [z |]; [| discriminate].
  intros H1 H2.
  rewrite (extended_lt_le_trans x y z); [reflexivity | |].
  - destruct (extended_compare x y); congruence.
  - destruct (extended_compare y z); congruence.
Qed.

Lemma num_le_trans (a b c : number) :
  number_wf a -> number_wf b -> number_wf c ->
  num_le a b = true -> num_le b c = true -> num_le a c = true.
Proof.
  intros Va Vb Vc. unfold num_le.
  rewrite (num_compare_value a b Va Vb), (num_compare_value b c Vb Vc),
    (num_compare_value a c Va Vc).
  destruct (number_value a) as [x |]; [| discriminate].
  destruct (number_value b) as [y |]; [| discriminate].
  destruct (number_value c) as [z |]; [| discriminate].
  intros H1 H2.
  pose proof (extended_le_trans x y z) as H.
  destruct (extended_compare x z); try reflexivity.
  exfalso. apply H; [| | reflexivity].
  - destruct (extended_compare x y); congruence.
  - destruct (extended_compare y z); congruence.
Qed.

(** X12: raising the threshold never takes an item off the report. For
    two numeric thresholds [0 <= t1 <= t2], on every inventory,
    [check_low_items] succeeds for both and every name it returns for
    [t1] it returns for [t2]; the comparisons are exact between integers
    and floats. *)
Theorem check_low_items_monotone
        (w : world) (threshold1 threshold2 : value) (t1 t2 : number) :
  dict_valid (stock_data w) ->
  as_number threshold1 = Some t1 -> number_wf t1 ->
  as_number threshold2 = Some t2 -> number_wf t2 ->
  num_ge t1 (NInt 0) = true ->
  num_le t1 t2 = true ->
  exists r1 r2,
    check_low_items threshold1 w = (Return r1, w) /\
    check_low_items threshold2 w = (Return r2, w) /\
    incl r1 r2.
Proof.
  intros Hval H1 V1 H2 V2 Hge Hle.
  assert (Hge2 : num_ge t2 (NInt 0) = true).
  { unfold num_ge in *. apply (num_le_trans (NInt 0) t1 t2); auto. exact I. }
  exists (low_items t1 (stock_data w)), (low_items t2 (stock_data w)).
  split; [| split].
  - unfold_py. rewrite H1, (num_ge_zero_not_lt t1 Hge). reflexivity.
  - unfold_py. rewrite H2, (num_ge_zero_not_lt t2 Hge2). reflexivity.
  - induction Hval as [| [k q] rest Hq Hrest IH]; cbn [low_items].
    + apply incl_refl.
    + cbn [snd] in Hq. destruct (num_lt (NFloat q) t1) eqn:Hlt.
      * rewrite (num_lt_le_trans (NFloat q) t1 t2 Hq V1 V2 Hlt Hle).
        apply incl_cons; [left; reflexivity | apply incl_tl, IH].
      * destruct (num_lt (NFloat q) t2); [apply incl_tl, IH | exact IH].
Qed.

Lemma check_low_items_monotone_witness :
  exists r1 r2,
    check_low_items (VInt 5) (sample_world []) = (Return r1, sample_world []) /\
    check_low_items (VFloat (float_of_Z 9)) (sample_world []) =
    (Return r2, sample_world []) /\
    incl r1 r2.
Proof.
  apply (check_low_items_monotone (sample_world []) (VInt 5) (VFloat (float_of_Z 9))
                                  (NInt 5) (NFloat (float_of_Z 9)));
    try first [reflexivity | exact I].
  repeat constructor.
Defined.

(** * The side channels *)

(** ** The list [logs] *)

Lemma add_item_stock_only (w1 w2 : world) (item qty : value) :
  stock_data w1 = stock_data w2 ->
  fst (add_item item qty w1) = fst (add_item item qty w2) /\
  stock_data (snd (add_item item qty w1)) = stock_data (snd (add_item item qty w2)).
Proof.
  destruct w1 as [d1 fs1], w2 as [d2 fs2]. cbn [stock_data]. intros ->. unfold_py.
  destruct item as [| | | | name | |]; cbn [as_str fst snd]; auto.
  destruct (str_bool (strip name)); cbn [fst snd]; auto.
  destruct (as_number qty) as [n |]; cbn [fst snd]; auto.
  destruct (num_lt n (NInt 0)); cbn [fst snd]; auto.
  destruct (to_float n) as [e | f]; cbn [fst snd stock_data]; auto.
Qed.

Lemma add_items_logged_run (calls : list (value * value * string)) :
  forall (logs : option (list log_entry)) (p : process) (w : world),
    stock_data w = stock_data (memory p) ->
    stock_data (memory (fst (add_items_logged calls logs p))) =
    stock_data (snd (successful_adds calls w)) /\
    snd (add_items_logged calls logs p) =
    match logs with
    | Some entries => Some (entries ++ fst (successful_adds calls w))
    | None => None
    end /\
    log_file (fst (add_items_logged calls logs p)) =
    log_file p ++ map record_of_entry (fst (successful_adds calls w)) /\
    files (memory (fst (add_items_logged calls logs p))) =
    match fst (successful_adds calls w) with
    | [] => files (memory p)
    | _ :: _ => log_written (files (memory p))
    end /\
    stdout (fst (add_items_logged calls logs p)) = stdout p.
Proof.
  induction calls as [| [[item qty] now] rest IH]; intros logs p w Hd;
    cbn [add_items_logged successful_adds].
  - cbn [fst snd map]. rewrite app_nil_r. destruct logs; rewrite ?app_nil_r; auto.
  - destruct (add_item_stock_only w (memory p) item qty Hd) as [Ho Hs].
    unfold add_item_logged, run_py, logging_info.
    destruct (add_item item qty (memory p)) as [o1 w1] eqn:E1.
    destruct (add_item item qty w) as [o2 w2] eqn:E2.
    cbn [fst snd] in Ho, Hs. subst o2.
    pose proof (add_item_files _ _ _ _ _ E1) as Hf.
    destruct o1 as [[] | e]; cbn [memory log_file stdout console].
    + match goal with
      | |- context [add_items_logged rest ?l ?q] =>
          destruct (IH l q w2) as (Hm & Hl & Hr & Hfs & Hout); [exact Hs |]
      end.
      cbn [memory stock_data files log_file stdout] in Hm, Hl, Hr, Hfs, Hout.
      destruct (successful_adds rest w2) as [entries w3].
      cbn [fst snd map record_of_entry] in *.
      rewrite Hm, Hl, Hr, Hfs, Hout, Hf. repeat split.
      * destruct logs; [rewrite <- app_assoc |]; reflexivity.
      * rewrite <- app_assoc. reflexivity.
      * destruct entries; [reflexivity | apply log_written_twice].
    + match goal with
      | |- context [add_items_logged rest ?l ?q] =>
          destruct (IH l q w2) as (Hm & Hl & Hr & Hfs & Hout); [exact Hs |]
      end.
      cbn [memory stock_data files log_file stdout] in Hm, Hl, Hr, Hfs, Hout.
      rewrite Hm, Hl, Hr, Hfs, Hout, Hf. repeat split.
Qed.

(** X13: the caller's list holds the successful calls. Over any sequence
    of [add_item] calls that share one list [logs], the list ends up with
    what it held followed by one entry per call that succeeded, in call
    order, each with the time, quantity and item of its call; a call that
    raises adds nothing; with [logs=None] nothing is recorded; the
    inventory is what the calls give without any list; the log gains the
    records of the same calls in the same order; the files are as they
    were but for the log, which is written when a call succeeded; and
    nothing is printed. *)
Theorem add_items_logged_entries
        (calls : list (value * value * string)) (logs : option (list log_entry))
        (p : process) :
  stock_data (memory (fst (add_items_logged calls logs p))) =
  stock_data (snd (successful_adds calls (memory p))) /\
  snd (add_items_logged calls logs p) =
  match logs with
  | Some entries => Some (entries ++ fst (successful_adds calls (memory p)))
  | None => None
  end /\
  log_file (fst (add_items_logged calls logs p)) =
  log_file p ++ map record_of_entry (fst (successful_adds calls (memory p))) /\
  files (memory (fst (add_items_logged calls logs p))) =
  match fst (successful_adds calls (memory p)) with
  | [] => files (memory p)
  | _ :: _ => log_written (files (memory p))
  end /\
  stdout (fst (add_items_logged calls logs p)) = stdout p.
Proof. apply add_items_logged_run. reflexivity. Qed.

(** ** The log *)

(** X14: what [remove_item] logs. The outcome and the inventory are those
    of the call without the log; a call that raises logs nothing and
    leaves the files alone; a call that succeeds appends one record to the
    log file, which says the item was deleted exactly when the item is no
    longer in the inventory and otherwise carries the quantity the
    inventory now holds for it; nothing is printed. *)
Theorem remove_item_logged_record (p : process) (item qty : value) :
  fst (remove_item_logged item qty p) = fst (remove_item item qty (memory p)) /\
  stock_data (memory (snd (remove_item_logged item qty p))) =
  stock_data (snd (remove_item item qty (memory p))) /\
  stdout (snd (remove_item_logged item qty p)) = stdout p /\
  match fst (remove_item_logged item qty p) with
  | Raise _ =>
      log_file (snd (remove_item_logged item qty p)) = log_file p /\
      files (memory (snd (remove_item_logged item qty p))) = files (memory p)
  | Return _ =>
      files (memory (snd (remove_item_logged item qty p))) =
      log_written (files (memory p)) /\
      exists name,
        item = VStr name /\
        log_file (snd (remove_item_logged item qty p)) =
        log_file p ++
        [match dict_get name
                        (stock_data (memory (snd (remove_item_logged item qty p))))
         with
         | None => InfoRemovedDeleted qty item
         | Some remaining => InfoRemoved qty item remaining
         end]
  end.
Proof.
  rewrite remove_item_logged_unfold.
  destruct (remove_item item qty (memory p)) as [[[] | e] w'] eqn:Hrun;
    cbn [fst snd memory stock_data files log_file stdout].
  - repeat split.
    destruct item as [| | | | name | |];
      try (revert Hrun; unfold_py; cbn [as_str]; discriminate).
    exists name. cbn [as_str]. auto.
  - repeat split.
    assert (Hw : snd (remove_item item qty (memory p)) = memory p).
    { revert Hrun. unfold_py. clear.
      destruct item as [| | | | name | |]; cbn [as_str snd]; try reflexivity.
      destruct (str_bool (strip name)); cbn [snd]; [| reflexivity].
      destruct (as_number qty) as [n |]; cbn [snd]; [| reflexivity].
      destruct (num_le n (NInt 0)); cbn [snd]; [reflexivity |].
      destruct (dict_get name (stock_data (memory p))) as [q |]; cbn [snd];
        [| reflexivity].
      destruct (to_float n) as [e' | f]; cbn [snd]; [reflexivity |].
      destruct (flt (fsub q f) fzero); cbn [snd]; [reflexivity |].
      destruct (feq (fsub q f) fzero); discriminate. }
    rewrite Hrun in Hw. cbn [snd] in Hw. rewrite Hw. reflexivity.
Qed.



(** ** The console *)

Lemma print_items_output (d : dict) :
  forall p : process,
    print_items d p =
    (if forallb (console p) (map (fun kv => OutItem (fst kv) (snd kv)) d)
     then Return tt else Raise UnicodeEncodeError,
     {| memory := memory p;
        log_file := log_file p;
        stdout := stdout p ++
                  printable_prefix (console p)
                                   (map (fun kv => OutItem (fst kv) (snd kv)) d);
        console := console p |}).
Proof.
  induction d as [| [item qty] rest IH]; intros p;
    cbn [print_items map fst snd forallb printable_prefix].
  - unfold io_ret. rewrite app_nil_r. destruct p; reflexivity.
  - unfold io_bind, print. destruct (console p (OutItem item qty)); cbn [andb].
    + rewrite IH. cbn [memory log_file stdout console].
      rewrite <- app_assoc. reflexivity.
    + rewrite app_nil_r. destruct p; reflexivity.
Qed.

(** X16: [print_data] reports the whole inventory and nothing else. On
    every inventory, the empty one too, it prints the header and then one
    line per item, in the order of the inventory, each with the item's
    name and quantity. It returns when the console can encode every line;
    otherwise it raises [UnicodeEncodeError] at the first line the console
    cannot encode, with the lines before that one printed. Either way it
    changes neither the inventory nor the files nor the log. *)
Theorem print_data_output (p : process) :
  print_data p =
  (if forallb (console p) (report_lines (stock_data (memory p)))
   then Return tt else Raise UnicodeEncodeError,
   {| memory := memory p;
      log_file := log_file p;
      stdout := stdout p ++
                printable_prefix (console p) (report_lines (stock_data (memory p)));
      console := console p |}).
Proof.
  unfold print_data, io_bind, print, run_py, get_stock, report_lines.
  cbn [forallb printable_prefix].
  destruct (console p OutReport); cbn [andb memory log_file stdout console].
  - rewrite print_items_output. cbn [memory log_file stdout console].
    rewrite <- app_assoc. destruct p as [[d fs] l o enc]. reflexivity.
  - rewrite app_nil_r. destruct p; reflexivity.
Qed.

(** ** [main] *)

(** The run of [main] from the start: with an empty inventory, the log
    file as the import of the module leaves it and no other file, on a
    console that encodes UTF-8, whatever the clock reads, [main] raises
    nothing; it leaves the inventory [{"apple": 8.0, "banana": 3.0}] and
    the file ["inventory.json"] with its dump, the list [logs] with the
    two additions, five log records, and on the console the apple stock
    8.0, the low items [["banana"]] and the report of the two items. *)
Example main_run (now1 now2 : string) :
  main now1 now2
       {| memory := initial [("inventory.log", Unparsable)];
          log_file := []; stdout := []; console := utf8_console |} =
  ((Return tt,
    {| memory :=
         {| stock_data := sample_stock;
            files := [("inventory.json", Json (dump sample_stock));
                      ("inventory.log", Unparsable)] |};
       log_file :=
         [InfoAdded (VInt 10) (VStr "apple");
          InfoAdded (VInt 3) (VStr "banana");
          InfoRemoved (VInt 2) (VStr "apple") (float_of_Z 8);
          InfoSaved 2 "inventory.json";
          InfoLoaded 2 "inventory.json"];
       stdout :=
         [OutAppleStock (float_of_Z 8);
          OutLowItems ["banana"];
          OutReport;
          OutItem "apple" (float_of_Z 8);
          OutItem "banana" (float_of_Z 3)];
       console := utf8_console |}),
   Some [LogAdded now1 (VInt 10) (VStr "apple");
         LogAdded now2 (VInt 3) (VStr "banana")]).
Proof. reflexivity. Qed.

(** * More on the inventory *)

(** ** The queries *)

(** X17: the queries only read. [get_qty] and [check_low_items] leave
    the world as it was, whatever they are given and whether they return
    or raise; [get_qty] returns the stored quantity of a name that is a
    key, raises [TypeError] for a list or a dict (they cannot be keys)
    and [KeyError] for everything else. *)
Theorem queries_only_read (w : world) (item threshold : value) :
  snd (get_qty item w) = w /\
  snd (check_low_items threshold w) = w /\
  fst (get_qty item w) =
  match item with
  | VStr name =>
      match dict_get name (stock_data w) with
      | Some q => Return q
      | None => Raise (KeyError (MsgKey item))
      end
  | VList _ | VDict _ => Raise TypeError
  | _ => Raise (KeyError (MsgKey item))
  end.
Proof.
  split; [| split].
  - unfold_py. destruct item as [| | | | name | |]; cbn [subscript]; try reflexivity.
    destruct (dict_get name (stock_data w)); reflexivity.
  - unfold_py. destruct (as_number threshold) as [t |]; [| reflexivity].
    destruct (num_lt t (NInt 0)); reflexivity.
  - unfold_py. destruct item as [| | | | name | |]; cbn [subscript]; try reflexivity.
    destruct (dict_get name (stock_data w)); reflexivity.
Qed.

(** ** Removing the whole stock *)

(** X18: removing what is there deletes the item. For an item under a
    name that is not blank whose stored quantity is positive and finite,
    [remove_item] of an amount that converts to exactly the stored
    quantity succeeds and deletes the entry: the other entries stay as
    they were and [get_qty] of the item then raises [KeyError]. *)
Theorem remove_item_whole_stock
        (w : world) (name : string) (qty : value) (n : number) (q : pyfloat) :
  str_bool (strip name) = true ->
  dict_get name (stock_data w) = Some q ->
  as_number qty = Some n ->
  num_gt n (NInt 0) = true ->
  to_float n = inr q ->
  flt q (S754_infinity false) = true ->
  remove_item (VStr name) qty w =
  (Return tt, {| stock_data := dict_del name (stock_data w); files := files w |}) /\
  get_qty (VStr name)
          {| stock_data := dict_del name (stock_data w); files := files w |} =
  (Raise (KeyError (MsgKey (VStr name))),
   {| stock_data := dict_del name (stock_data w); files := files w |}).
Proof.
  intros Hs Hget Hn Hgt Hf Hfin.
  destruct (to_float_positive n q Hgt Hf Hfin) as (m & e & ->).
  split.
  - rewrite (remove_item_run w name (S754_finite false m e) qty n
                             (S754_finite false m e))
      by auto using num_gt_zero_not_le.
    rewrite FloatFacts.fsub_finite, Z.sub_diag. reflexivity.
  - rewrite get_qty_run. cbn [stock_data]. rewrite dict_get_del_eq. reflexivity.
Qed.

Lemma remove_item_whole_stock_witness :
  remove_item (VStr "banana") (VInt 3) (sample_world []) =
  (Return tt, {| stock_data := [("apple", float_of_Z 8)]; files := [] |}).
Proof.
  apply (remove_item_whole_stock (sample_world []) "banana" (VInt 3) (NInt 3)
                                 (float_of_Z 3));
    reflexivity.
Defined.

(** ** The order of additions *)

Lemma fadd_comm (x y : pyfloat) : fadd x y = fadd y x.
Proof.
  destruct x as [sx | sx | | sx mx ex]; destruct y as [sy | sy | | sy my ey];
    try reflexivity; try (destruct sx, sy; reflexivity).
  rewrite !FloatFacts.fadd_finite, (Z.min_comm ey ex), Z.add_comm. reflexivity.
Qed.

Lemma fadd_from_zero_comm (a b : pyfloat) :
  fadd (fadd fzero a) b = fadd (fadd fzero b) a.
Proof.
  destruct a as [[] | [] | | sa ma ea]; destruct b as [[] | [] | | sb mb eb];
    try reflexivity.
  change (fadd fzero (S754_finite sa ma ea)) with (S754_finite sa ma ea).
  change (fadd fzero (S754_finite sb mb eb)) with (S754_finite sb mb eb).
  apply fadd_comm.
Qed.

Lemma dict_set_set (k : string) (v1 v2 : pyfloat) (d : dict) :
  dict_set k v2 (dict_set k v1 d) = dict_set k v2 d.
Proof.
  induction d as [| [k' v'] rest IH]; cbn [dict_set].
  - rewrite string_eqb_refl. reflexivity.
  - destruct (string_eqb k k') eqn:E; cbn [dict_set].
    + rewrite string_eqb_refl. reflexivity.
    + rewrite E, IH. reflexivity.
Qed.

(** X19: two additions to a new item commute. For an item that is not in
    the inventory, two [add_item] calls whose amounts pass the guards
    leave the same world in either order: the entry is created once, at
    the end, and floating-point addition from [0.0] is commutative. *)
Theorem add_item_twice_commutes
        (w : world) (name : string) (q1 q2 : value) (n1 n2 : number)
        (f1 f2 : pyfloat) :
  str_bool (strip name) = true ->
  dict_get name (stock_data w) = None ->
  as_number q1 = Some n1 -> num_lt n1 (NInt 0) = false -> to_float n1 = inr f1 ->
  as_number q2 = Some n2 -> num_lt n2 (NInt 0) = false -> to_float n2 = inr f2 ->
  (add_item (VStr name) q1 ;; add_item (VStr name) q2) w =
  (add_item (VStr name) q2 ;; add_item (VStr name) q1) w /\
  exists w', (add_item (VStr name) q1 ;; add_item (VStr name) q2) w = (Return tt, w').
Proof.
  intros Hs Hget H1 L1 F1 H2 L2 F2.
  assert (Hrun : forall qa na fa qb nb fb,
             as_number qa = Some na -> num_lt na (NInt 0) = false ->
             to_float na = inr fa ->
             as_number qb = Some nb -> num_lt nb (NInt 0) = false ->
             to_float nb = inr fb ->
             (add_item (VStr name) qa ;; add_item (VStr name) qb) w =
             (Return tt,
              {| stock_data := dict_set name (fadd (fadd fzero fa) fb) (stock_data w);
                 files := files w |})).
  { intros qa na fa qb nb fb Ha La Fa Hb Lb Fb. unfold bind at 1.
    rewrite (add_item_run w name qa na fa) by assumption.
    rewrite (add_item_run _ name qb nb fb) by assumption.
    cbn [stock_data files]. unfold dict_get_default.
    rewrite dict_get_set_eq, Hget, dict_set_set. reflexivity. }
  rewrite (Hrun q1 n1 f1 q2 n2 f2), (Hrun q2 n2 f2 q1 n1 f1) by assumption.
  rewrite (fadd_from_zero_comm f1 f2). split; [reflexivity | eexists; reflexivity].
Qed.

Lemma add_item_twice_commutes_witness :
  (add_item (VStr "pear") (VInt 1) ;; add_item (VStr "pear") (VFloat (float_of_Z 2)))
    (sample_world []) =
  (add_item (VStr "pear") (VFloat (float_of_Z 2)) ;; add_item (VStr "pear") (VInt 1))
    (sample_world []).
Proof.
  apply (add_item_twice_commutes (sample_world []) "pear"
                                 (VInt 1) (VFloat (float_of_Z 2))
                                 (NInt 1) (NFloat (float_of_Z 2))
                                 (float_of_Z 1) (float_of_Z 2));
    reflexivity.
Defined.

(** X20: additions to two different items commute as mappings. When both
    [add_item] calls pass their guards, both orders succeed and give every
    name the same quantity; only the order of two new keys can differ. *)
Theorem add_item_other_item_commutes
        (w : world) (a b : string) (qa qb : value) (na nb : number)
        (fa fb : pyfloat) :
  a <> b ->
  str_bool (strip a) = true -> str_bool (strip b) = true ->
  as_number qa = Some na -> num_lt na (NInt 0) = false -> to_float na = inr fa ->
  as_number qb = Some nb -> num_lt nb (NInt 0) = false -> to_float nb = inr fb ->
  exists w1 w2,
    (add_item (VStr a) qa ;; add_item (VStr b) qb) w = (Return tt, w1) /\
    (add_item (VStr b) qb ;; add_item (VStr a) qa) w = (Return tt, w2) /\
    (forall k, dict_get k (stock_data w1) = dict_get k (stock_data w2)) /\
    files w1 = files w2.
Proof.
  intros Hne Sa Sb Ha La Fa Hb Lb Fb.
  eexists. eexists. split; [| split; [| split]].
  - unfold bind at 1. rewrite (add_item_run w a qa na fa) by assumption.
    apply (add_item_run _ b qb nb fb); assumption.
  - unfold bind at 1. rewrite (add_item_run w b qb nb fb) by assumption.
    apply (add_item_run _ a qa na fa); assumption.
  - intros k. cbn [stock_data]. unfold dict_get_default.
    rewrite (dict_get_set_ne a b) by exact Hne.
    rewrite (dict_get_set_ne b a) by congruence.
    destruct (string_dec k a) as [-> | Hka]; [| destruct (string_dec k b) as [-> | Hkb]].
    + rewrite (dict_get_set_ne b a) by congruence.
      rewrite !dict_get_set_eq. reflexivity.
    + rewrite dict_get_set_eq. rewrite (dict_get_set_ne a b) by exact Hne.
      rewrite dict_get_set_eq. reflexivity.
    + rewrite !dict_get_set_ne by congruence. reflexivity.
  - reflexivity.
Qed.

Lemma add_item_other_item_commutes_witness :
  exists w1 w2,
    (add_item (VStr "pear") (VInt 1) ;; add_item (VStr "kiwi") (VInt 2))
      (sample_world []) = (Return tt, w1) /\
    (add_item (VStr "kiwi") (VInt 2) ;; add_item (VStr "pear") (VInt 1))
      (sample_world []) = (Return tt, w2) /\
    (forall k, dict_get k (stock_data w1) = dict_get k (stock_data w2)) /\
    files w1 = files w2.
Proof.
  apply (add_item_other_item_commutes (sample_world []) "pear" "kiwi"
                                      (VInt 1) (VInt 2) (NInt 1) (NInt 2)
                                      (float_of_Z 1) (float_of_Z 2));
    first [reflexivity | discriminate].
Defined.

(** * Rounding and the order of quantities *)

(** ** Rounding from below *)

(** The first shift of [binary_round_aux] cuts less than one unit of the
    last place, and leaves a full mantissa above the smallest exponent. *)
Lemma shr_fexp_floor (m e : Z) :
  0 < m -> femin <= e -> e <= fexp prec emax (Zdigits2 m + e) ->
  let '(mrs, e') := shr_fexp prec emax m e loc_Exact in
  scaled m e < scaled (shr_m mrs + 1) e' /\
  (e' = femin \/ 2 ^ (prec - 1) <= shr_m mrs).
Proof.
  intros Hm He Hcan.
  pose proof (FloatFacts.shr_fexp_first m e Hm He Hcan) as Hfirst.
  unfold shr_fexp in *.
  set (n := fexp prec emax (Zdigits2 m + e) - e) in *.
  assert (Hn : 0 <= n) by (unfold n; lia).
  pose proof (FloatFacts.shr_exact_spec m e n ltac:(lia)) as Hshr.
  destruct (shr (shr_record_of_loc m loc_Exact) e n) as [mrs e'].
  destruct Hshr as (-> & Hdiv & _).
  destruct Hfirst as (He' & Hpos & Hcan' & _).
  replace (Z.max 0 n) with n in * by lia.
  assert (Hp : 0 < 2 ^ n) by (apply Z.pow_pos_nonneg; lia).
  split.
  - rewrite <- FloatFacts.scaled_shift by lia. apply FloatFacts.scaled_lt; [lia |].
    rewrite Hdiv. pose proof (Z.div_mod m (2 ^ n) ltac:(lia)) as Hdm.
    pose proof (Z.mod_pos_bound m (2 ^ n) Hp). nia.
  - destruct (Z.eq_dec (e + n) femin) as [E | E]; [left; exact E | right].
    destruct (shr_m mrs) as [| p | p]; try lia. cbn [Zdigits2] in Hcan'.
    pose proof (FloatFacts.digits2_pos_bounds p) as [Dlo _].
    unfold fexp in Hcan'. fold femin in Hcan'.
    replace (Zpos (digits2_pos p)) with prec in Dlo by lia. exact Dlo.
Qed.

Lemma binary_round_aux_floor (m e : Z) :
  0 < m -> femin <= e -> e <= fexp prec emax (Zdigits2 m + e) ->
  match binary_round_aux prec emax false m e loc_Exact with
  | S754_finite s mf ef =>
      exists m' e',
        femin <= e' /\ 0 < m' /\ scaled m e < scaled (m' + 1) e' /\
        (e' = femin \/ 2 ^ (prec - 1) <= m') /\
        scaled m' e' <= scaled (Zpos mf) ef
  | _ => True
  end.
Proof.
  intros Hm He Hcan. unfold binary_round_aux.
  pose proof (FloatFacts.shr_fexp_first m e Hm He Hcan) as H1.
  pose proof (shr_fexp_floor m e Hm He Hcan) as H1'.
  destruct (shr_fexp prec emax m e loc_Exact) as [mrs' e'].
  destruct H1 as (He' & Hpos & Hcan' & _). destruct H1' as (Hfloor & Hfull).
  pose proof (FloatFacts.round_nearest_even_cases mrs') as Hround.
  set (m2 := round_nearest_even (shr_m mrs') (loc_of_shr_record mrs')) in *.
  pose proof (FloatFacts.shr_fexp_second (shr_m mrs') m2 e' Hpos He' Hcan'
                ltac:(destruct Hround as [-> | [-> _]]; auto)) as H2.
  destruct (shr_fexp prec emax m2 e' loc_Exact) as [mrs'' e''].
  destruct H2 as (He'' & Hval).
  destruct (shr_m mrs'') as [| mf | mf]; try exact I.
  destruct (e'' <=? emax - prec); [| exact I].
  exists (shr_m mrs'), e'. repeat split; try assumption.
  rewrite Hval. apply FloatFacts.scaled_le; [exact He' |].
  destruct Hround as [-> | [-> _]]; lia.
Qed.

Lemma binary_round_floor (p : positive) (e : Z) :
  femin <= e ->
  match binary_round prec emax false p e with
  | S754_finite s mf ef =>
      exists m' e',
        femin <= e' /\ 0 < m' /\ scaled (Zpos p) e < scaled (m' + 1) e' /\
        (e' = femin \/ 2 ^ (prec - 1) <= m') /\
        scaled m' e' <= scaled (Zpos mf) ef
  | _ => True
  end.
Proof.
  intros He. unfold binary_round, shl_align.
  pose proof (FloatFacts.fexp_ge_emin (Zpos (digits2_pos p) + e)) as Hf.
  destruct (fexp prec emax (Zpos (digits2_pos p) + e) - e) as [| d | d] eqn:Hd.
  - apply binary_round_aux_floor; cbn [Zdigits2]; lia.
  - apply binary_round_aux_floor; cbn [Zdigits2]; lia.
  - assert (Hs : scaled (Zpos p) e =
                 scaled (Zpos (Pos.iter xO p d))
                        (fexp prec emax (Zpos (digits2_pos p) + e))).
    { rewrite FloatFacts.iter_xO, FloatFacts.scaled_shift by lia. f_equal. lia. }
    rewrite Hs. apply binary_round_aux_floor; [lia | lia |].
    cbn [Zdigits2]. rewrite FloatFacts.Zdigits2_shiftl.
    replace (Zpos (digits2_pos p) + Zpos d
             + fexp prec emax (Zpos (digits2_pos p) + e))
      with (Zpos (digits2_pos p) + e) by lia.
    lia.
Qed.

(** A float that is at most a value is at most the float the value
    rounds to. *)
Lemma binary_round_ge (p : positive) (e mq eq : Z) :
  femin <= e -> femin <= eq -> 0 < mq < 2 ^ prec ->
  scaled mq eq <= scaled (Zpos p) e ->
  match binary_round prec emax false p e with
  | S754_finite s mf ef => scaled mq eq <= scaled (Zpos mf) ef
  | _ => True
  end.
Proof.
  intros He Heq Hmq Hle.
  pose proof (binary_round_floor p e He) as Hfloor.
  destruct (binary_round prec emax false p e) as [s | s | | s mf ef]; try exact I.
  destruct Hfloor as (m' & e' & He' & Hm' & Hlt & Hfull & Hres).
  apply Z.le_trans with (2 := Hres).
  destruct (Z.le_gt_cases e' eq) as [H | H].
  - replace eq with (e' + (eq - e')) in Hle |- * by lia.
    rewrite <- FloatFacts.scaled_shift in Hle |- * by lia.
    apply FloatFacts.scaled_le; [exact He' |].
    destruct (Z.lt_ge_cases m' (mq * 2 ^ (eq - e'))) as [Hk | Hk]; [| lia].
    exfalso. assert (Hk' : m' + 1 <= mq * 2 ^ (eq - e')) by lia.
    pose proof (FloatFacts.scaled_le _ _ e' He' Hk'). lia.
  - destruct Hfull as [E | Hfull]; [lia |].
    replace e' with (eq + (e' - eq)) by lia.
    rewrite <- FloatFacts.scaled_shift by lia.
    apply FloatFacts.scaled_le; [exact Heq |].
    assert (Hp : 2 ^ 1 <= 2 ^ (e' - eq)) by (apply Z.pow_le_mono_r; lia).
    change (2 ^ 1) with 2 in Hp.
    assert (Hpow : 2 ^ prec = 2 * 2 ^ (prec - 1)) by reflexivity.
    nia.
Qed.

(** ** The order of the floats and their arithmetic *)

Lemma fle_value (x y : pyfloat) :
  fvalid x = true -> fvalid y = true ->
  fle x y = true <->
  exists a b, float_value x = Some a /\ float_value y = Some b /\
              extended_compare a b <> Gt.
Proof.
  intros Vx Vy. unfold fle, SFleb. rewrite SFcompare_value by assumption.
  destruct (float_value x) as [a |], (float_value y) as [b |]; split;
    try discriminate; try (intros (a' & b' & Ha & Hb & _); discriminate).
  - intros H. exists a, b. repeat split.
    destruct (extended_compare a b); discriminate.
  - intros (a' & b' & [= <-] & [= <-] & H).
    destruct (extended_compare a b); congruence.
Qed.



(** The float a sum of two positive floats rounds to is not below the
    first. *)
Lemma fadd_finite_ge (mx : positive) (ex : Z) (my : positive) (ey : Z) :
  bounded prec emax mx ex = true -> bounded prec emax my ey = true ->
  fle (S754_finite false mx ex)
      (fadd (S754_finite false mx ex) (S754_finite false my ey)) = true.
Proof.
  intros Bx By.
  pose proof (FloatFacts.fadd_valid (S754_finite false mx ex) (S754_finite false my ey)
                                    Bx By) as Vr.
  pose proof (FloatFacts.bounded_inv _ _ Bx) as (Hex & Hmx & _).
  pose proof (FloatFacts.bounded_inv _ _ By) as (Hey & _).
  apply fle_value; [exact Bx | exact Vr |].
  rewrite FloatFacts.fadd_finite in *.
  set (ez := Z.min ex ey) in *.
  pose proof (FloatFacts.aligned_false_pos mx ex ez ltac:(unfold ez; lia)) as Px.
  pose proof (FloatFacts.aligned_false_pos my ey ez ltac:(unfold ez; lia)) as Py.
  pose proof (aligned_scaled false mx ex ez ltac:(unfold ez; lia) ltac:(unfold ez; lia))
    as Sx.
  cbn [cond_Zopp] in Sx.
  destruct (aligned false mx ex ez + aligned false my ey ez) as [| p | p] eqn:Hz;
    try lia.
  cbn [binary_normalize] in *.
  pose proof (FloatFacts.binary_round_nonzero false p ez ltac:(unfold ez; lia)) as Hnz.
  pose proof (binary_round_ge p ez (Zpos mx) ex ltac:(unfold ez; lia) Hex
                              ltac:(lia)) as Hge.
  assert (Hle : scaled (Zpos mx) ex <= scaled (Zpos p) ez).
  { rewrite <- Sx. unfold scaled. rewrite <- Hz.
    assert (0 < 2 ^ (ez - femin)) by (apply Z.pow_pos_nonneg; unfold ez; lia). nia. }
  specialize (Hge Hle).
  destruct (binary_round prec emax false p ez) as [s | s | | s mf ef];
    cbn [nonzero_signed] in Hnz; try contradiction; subst s.
  - exists (Finite (scaled (Zpos mx) ex)), PlusInfinity. repeat split. discriminate.
  - eexists. eexists. repeat split. cbn [cond_Zopp extended_compare].
    intros Hgt. apply Z.compare_gt_iff in Hgt. lia.
Qed.

Lemma fle_refl (x : pyfloat) : fle fzero x = true -> fle x x = true.
Proof.
  destruct x as [[] | [] | | [] m e]; try reflexivity; try discriminate.
  intros _. unfold fle, SFleb. cbn [SFcompare]. rewrite Z.compare_refl.
  rewrite Pos.compare_cont_refl. reflexivity.
Qed.

(** Adding a float that is not below zero to a float that is not below
    zero does not lower it. *)
Lemma fadd_ge (x y : pyfloat) :
  fvalid x = true -> fvalid y = true ->
  fle fzero x = true -> fle fzero y = true ->
  fle x (fadd x y) = true.
Proof.
  intros Vx Vy Hx Hy.
  destruct x as [[] | [] | | [] mx ex]; try discriminate Hx;
    destruct y as [[] | [] | | [] my ey]; try discriminate Hy;
    try reflexivity;
    try (apply (fle_refl (S754_finite false mx ex)); reflexivity).
  apply fadd_finite_ge; assumption.
Qed.



(** A number that is at least zero converts to a float that is at least
    zero. *)
Lemma to_float_ge_zero (n : number) (f : pyfloat) :
  num_ge n (NInt 0) = true -> to_float n = inr f -> fle fzero f = true.
Proof.
  intros Hge Hf. pose proof (num_ge_zero_not_lt n Hge) as Hlt.
  destruct n as [z | g]; cbn [to_float] in Hf.
  - unfold num_ge, num_le in Hge. cbn [num_compare] in Hge.
    destruct (Z.compare_spec 0 z); try discriminate Hge.
    + subst z. injection Hf as <-. reflexivity.
    + destruct z as [| q | q]; try lia.
      pose proof (FloatFacts.binary_round_nonzero false q 0
                    ltac:(unfold femin; cbn; lia)) as Hnz.
      unfold float_of_Z in Hf. cbn [binary_normalize] in Hf.
      destruct (binary_round prec emax false q 0) as [s | s | | s m e];
        try contradiction; cbn [nonzero_signed] in Hnz; subst s;
        [discriminate Hf |].
      injection Hf as <-. reflexivity.
  - injection Hf as <-. rewrite num_lt_float_zero in Hlt.
    destruct g as [[] | [] | | [] m e]; try reflexivity; try discriminate Hlt;
      discriminate Hge.
Qed.

Lemma not_negative_cases (a : pyfloat) :
  flt a fzero = false -> a = S754_nan \/ fle fzero a = true.
Proof.
  destruct a as [[] | [] | | [] m e]; intros H; try discriminate H; auto.
Qed.

(** ** Quantities only grow by additions *)

(** X21: [add_item] never lowers a quantity. For an item whose stored
    quantity (or [0.0] when it is absent) is a float that is not below
    zero, and an amount [qty >= 0] that converts, [add_item] succeeds and
    [get_qty] then returns a quantity that is not below the one before:
    the rounding of the sum never goes under the stored float. *)
Theorem add_item_never_lowers
        (w : world) (name : string) (qty : value) (n : number) (f : pyfloat) :
  str_bool (strip name) = true ->
  fvalid (dict_get_default name fzero (stock_data w)) = true ->
  fle fzero (dict_get_default name fzero (stock_data w)) = true ->
  as_number qty = Some n -> number_wf n ->
  num_ge n (NInt 0) = true ->
  to_float n = inr f ->
  exists w' q,
    add_item (VStr name) qty w = (Return tt, w') /\
    get_qty (VStr name) w' = (Return q, w') /\
    fle (dict_get_default name fzero (stock_data w)) q = true.
Proof.
  intros Hs Va Ha Hn Wn Hge Hf.
  eexists. eexists. split; [| split].
  - apply (add_item_run w name qty n f); auto using num_ge_zero_not_lt.
  - rewrite get_qty_run. cbn [stock_data]. rewrite dict_get_set_eq. reflexivity.
  - apply fadd_ge; try assumption.
    + apply (to_float_valid n); assumption.
    + apply (to_float_ge_zero n); assumption.
Qed.

Lemma add_item_never_lowers_witness :
  exists w' q,
    add_item (VStr "apple") (VFloat (float_of_Z 2)) (sample_world []) = (Return tt, w') /\
    get_qty (VStr "apple") w' = (Return q, w') /\
    fle (float_of_Z 8) q = true.
Proof.
  apply (add_item_never_lowers (sample_world []) "apple" (VFloat (float_of_Z 2))
                               (NFloat (float_of_Z 2)) (float_of_Z 2));
    reflexivity.
Defined.

(** ** Rounding from above *)

(** A value that is at most a float rounds to a finite float that is at
    most that float: there is no overflow below a float. *)
Lemma binary_round_aux_le (m e mq eq : Z) :
  0 < m -> femin <= e -> e <= fexp prec emax (Zdigits2 m + e) ->
  femin <= eq -> eq <= emax - prec -> 0 < mq < 2 ^ prec ->
  scaled m e <= scaled mq eq ->
  exists mf ef,
    binary_round_aux prec emax false m e loc_Exact = S754_finite false mf ef /\
    femin <= ef /\ scaled (Zpos mf) ef <= scaled mq eq.
Proof.
  intros Hm He Hcan Heq Hmax Hmq Hle. unfold binary_round_aux.
  pose proof (FloatFacts.shr_fexp_first m e Hm He Hcan) as H1.
  destruct (shr_fexp prec emax m e loc_Exact) as [mrs' e'].
  destruct H1 as (He' & Hpos & Hcan' & Hlow & Hin).
  pose proof (FloatFacts.round_nearest_even_cases mrs') as Hround.
  set (m2 := round_nearest_even (shr_m mrs') (loc_of_shr_record mrs')) in *.
  assert (Hm2 : m2 = shr_m mrs' \/ m2 = shr_m mrs' + 1)
    by (destruct Hround as [-> | [-> _]]; auto).
  assert (Hbound : scaled m2 e' <= scaled mq eq).
  { destruct Hround as [-> | [-> Hi]]; [lia |].
    destruct (Hin Hi) as [Hlt Hfull].
    apply (FloatFacts.round_up_below (shr_m mrs') e' mq eq (scaled m e)); auto. }
  assert (He2 : e' <= fexp prec emax (Zdigits2 m2 + e')).
  { rewrite <- Hcan' at 1. apply FloatFacts.fexp_mono.
    pose proof (FloatFacts.Zdigits2_mono (shr_m mrs') m2 ltac:(lia)). lia. }
  pose proof (FloatFacts.shr_fexp_second (shr_m mrs') m2 e' Hpos He' Hcan' Hm2) as H2.
  pose proof (FloatFacts.shr_fexp_canonical m2 e' loc_Exact ltac:(lia) He2)
    as (_ & _ & Hcan2 & _).
  destruct (shr_fexp prec emax m2 e' loc_Exact) as [mrs'' e'']. cbn [fst snd] in *.
  destruct H2 as (He'' & Hval).
  assert (Hpos2 : 0 < scaled m2 e') by (apply scaled_pos; lia).
  assert (Hpos'' : 0 < shr_m mrs'').
  { unfold scaled in Hval, Hpos2.
    assert (0 < 2 ^ (e'' - femin)) by (apply Z.pow_pos_nonneg; lia). nia. }
  specialize (Hcan2 Hpos'').
  destruct (shr_m mrs'') as [| mf | mf]; try lia.
  rewrite <- Hval in Hbound.
  assert (Hfit : e'' <= eq).
  { destruct (Z.le_gt_cases e'' eq) as [H | H]; [exact H | exfalso].
    cbn [Zdigits2] in Hcan2.
    pose proof (FloatFacts.digits2_pos_bounds mf) as [Dlo _].
    unfold fexp in Hcan2. fold femin in Hcan2.
    replace (Zpos (digits2_pos mf)) with prec in Dlo by lia.
    assert (Hs : scaled (Zpos mf) e'' = scaled (Zpos mf * 2 ^ (e'' - eq)) eq).
    { rewrite FloatFacts.scaled_shift by lia. f_equal. lia. }
    assert (Hp : 2 ^ 1 <= 2 ^ (e'' - eq)) by (apply Z.pow_le_mono_r; lia).
    change (2 ^ 1) with 2 in Hp.
    assert (Hpow : 2 ^ prec = 2 * 2 ^ (prec - 1)) by reflexivity.
    assert (Hk : mq < Zpos mf * 2 ^ (e'' - eq)) by nia.
    pose proof (FloatFacts.scaled_lt _ _ eq Heq Hk). lia. }
  replace (e'' <=? emax - prec) with true by (symmetry; apply Z.leb_le; lia).
  exists mf, e''. repeat split; [exact He'' | lia].
Qed.

Lemma binary_round_le (p : positive) (e mq eq : Z) :
  femin <= e -> femin <= eq -> eq <= emax - prec -> 0 < mq < 2 ^ prec ->
  scaled (Zpos p) e <= scaled mq eq ->
  exists mf ef,
    binary_round prec emax false p e = S754_finite false mf ef /\
    femin <= ef /\ scaled (Zpos mf) ef <= scaled mq eq.
Proof.
  intros He Heq Hmax Hmq. unfold binary_round, shl_align.
  pose proof (FloatFacts.fexp_ge_emin (Zpos (digits2_pos p) + e)) as Hf.
  destruct (fexp prec emax (Zpos (digits2_pos p) + e) - e) as [| d | d] eqn:Hd.
  - intros Hle. apply binary_round_aux_le; cbn [Zdigits2]; auto; lia.
  - intros Hle. apply binary_round_aux_le; cbn [Zdigits2]; auto; lia.
  - assert (Hs : scaled (Zpos p) e =
                 scaled (Zpos (Pos.iter xO p d))
                        (fexp prec emax (Zpos (digits2_pos p) + e))).
    { rewrite FloatFacts.iter_xO, FloatFacts.scaled_shift by lia. f_equal. lia. }
    rewrite Hs. intros Hle. apply binary_round_aux_le; auto; try lia.
    cbn [Zdigits2]. rewrite FloatFacts.Zdigits2_shiftl.
    replace (Zpos (digits2_pos p) + Zpos d
             + fexp prec emax (Zpos (digits2_pos p) + e))
      with (Zpos (digits2_pos p) + e) by lia.
    lia.
Qed.

(** Taking a positive finite float from a float that is not below zero
    gives, when it is not below zero itself, a float that is not above the
    first. *)
Lemma fsub_le (x y : pyfloat) :
  fvalid x = true -> fvalid y = true ->
  fle fzero x = true ->
  flt fzero y = true -> flt y (S754_infinity false) = true ->
  flt (fsub x y) fzero = false ->
  fle (fsub x y) x = true.
Proof.
  intros Vx Vy Hx Hy Hfin Hres.
  destruct y as [[] | [] | | [] my ey]; try discriminate Hy; try discriminate Hfin.
  destruct x as [[] | [] | | [] mx ex]; try discriminate Hx; try discriminate Hres;
    try reflexivity.
  pose proof (FloatFacts.fsub_valid _ _ Vx Vy) as Vr.
  cbn [fvalid valid_binary] in Vx, Vy.
  pose proof (FloatFacts.bounded_inv _ _ Vx) as (Hex & Hmx & _).
  pose proof (FloatFacts.bounded_inv _ _ Vy) as (Hey & _).
  assert (Hmax : ex <= emax - prec).
  { unfold bounded in Vx. apply andb_prop in Vx as [_ H]. apply Z.leb_le in H. exact H. }
  rewrite FloatFacts.fsub_finite in *.
  set (ez := Z.min ex ey) in *.
  pose proof (FloatFacts.aligned_false_pos my ey ez ltac:(unfold ez; lia)) as Py.
  pose proof (aligned_scaled false mx ex ez ltac:(unfold ez; lia) ltac:(unfold ez; lia))
    as Sx.
  cbn [cond_Zopp] in Sx.
  destruct (aligned false mx ex ez - aligned false my ey ez) as [| p | p] eqn:Hz.
  - reflexivity.
  - cbn [binary_normalize] in *.
    destruct (binary_round_le p ez (Zpos mx) ex ltac:(unfold ez; lia) Hex Hmax
                              ltac:(lia)) as (mf & ef & Hr & Hef & Hle).
    { rewrite <- Sx. unfold scaled.
      assert (0 < 2 ^ (ez - femin)) by (apply Z.pow_pos_nonneg; unfold ez; lia). nia. }
    rewrite Hr in *. apply fle_value; [exact Vr | assumption |].
    eexists. eexists. repeat split. cbn [cond_Zopp extended_compare].
    intros Hgt. apply Z.compare_gt_iff in Hgt. lia.
  - exfalso.
    pose proof (FloatFacts.binary_normalize_negative (Zneg p) ez ltac:(lia)
                  ltac:(unfold ez; lia)) as Hneg.
    apply FloatFacts.nonzero_negative_lt_zero in Hneg. congruence.
Qed.

Lemma positive_of_le (r x : pyfloat) :
  flt r fzero = false -> feq r fzero = false -> fle r x = true ->
  flt fzero r = true.
Proof.
  destruct r as [[] | [] | | [] m e]; intros H1 H2 H3;
    try reflexivity; try discriminate.
Qed.

(** ** Quantities only shrink by removals *)

(** X22: [remove_item] never raises a quantity. For an item whose
    stored quantity is a float that is not below zero and a finite amount
    [qty > 0], after a [remove_item] that succeeds the item is either gone
    or holds a quantity above zero that is not above the one before: the
    difference neither overflows nor rounds over the stored float. *)
Theorem remove_item_never_adds
        (w : world) (name : string) (qty : value) (n : number) (f q : pyfloat)
        (w' : world) :
  dict_get name (stock_data w) = Some q ->
  fvalid q = true -> fle fzero q = true ->
  as_number qty = Some n -> number_wf n ->
  num_gt n (NInt 0) = true ->
  to_float n = inr f ->
  flt f (S754_infinity false) = true ->
  remove_item (VStr name) qty w = (Return tt, w') ->
  forall q', dict_get name (stock_data w') = Some q' ->
             flt fzero q' = true /\ fle q' q = true.
Proof.
  intros Hq Vq Hge Hn Wn Hgt Hf Hfin Hrun q' Hq'.
  destruct (str_bool (strip name)) eqn:Hs.
  2:{ unfold_py_in Hrun. cbn [as_str] in Hrun. rewrite Hs in Hrun. discriminate Hrun. }
  rewrite (remove_item_run w name q qty n f) in Hrun
    by auto using num_gt_zero_not_le.
  destruct (flt (fsub q f) fzero) eqn:Hneg; [discriminate Hrun |].
  destruct (feq (fsub q f) fzero) eqn:Hzero; injection Hrun as <-;
    cbn [stock_data] in Hq'.
  - rewrite dict_get_del_eq in Hq'. discriminate Hq'.
  - rewrite dict_get_set_eq in Hq'. injection Hq' as <-.
    destruct (to_float_positive n f Hgt Hf Hfin) as (m & e & ->).
    assert (Hle : fle (fsub q (S754_finite false m e)) q = true).
    { apply fsub_le; try assumption; try reflexivity.
      apply (to_float_valid n); assumption. }
    split; [| exact Hle]. apply (positive_of_le _ q); assumption.
Qed.

Lemma remove_item_never_adds_witness :
  flt fzero (float_of_Z 6) = true /\ fle (float_of_Z 6) (float_of_Z 8) = true.
Proof.
  apply (remove_item_never_adds
           (sample_world []) "apple" (VInt 2) (NInt 2) (float_of_Z 2) (float_of_Z 8)
           (snd (remove_item (VStr "apple") (VInt 2) (sample_world []))));
    first [reflexivity | exact I].
Defined.

(** ** The low items after an addition and after a removal *)

Lemma extended_le_lt_trans (x y z : extended) :
  extended_compare x y <> Gt ->
  extended_compare y z = Lt ->
  extended_compare x z = Lt.
Proof.
  destruct x as [| a |], y as [| b |], z as [| c |];
    cbn [extended_compare]; intros H1 H2;
    try discriminate H2; try reflexivity; try (exfalso; apply H1; reflexivity).
  change (a <= b) in H1. change (b < c) in H2. change (a < c). lia.
Qed.

(** [a <= b] and [b < c] give [a < c], across integers and floats. *)
Lemma num_le_lt_trans (a b c : number) :
  number_wf a -> number_wf b -> number_wf c ->
  num_le a b = true -> num_lt b c = true -> num_lt a c = true.
Proof.
  intros Va Vb Vc. unfold num_lt, num_le.
  rewrite (num_compare_value a b Va Vb), (num_compare_value b c Vb Vc),
    (num_compare_value a c Va Vc).
  destruct (number_value a) as [x |]; [| discriminate].
  destruct (number_value b) as [y |]; [| discriminate].
  destruct (number_value c) as [z |]; [| discriminate].
  intros H1 H2.
  rewrite (extended_le_lt_trans x y z); [reflexivity | |].
  - destruct (extended_compare x y); congruence.
  - destruct (extended_compare y z); congruence.
Qed.

Lemma low_items_In (t : number) (d : dict) (k : string) :
  dict_wf d ->
  In k (low_items t d) <->
  exists q, dict_get k d = Some q /\ num_lt (NFloat q) t = true.
Proof.
  intros Hwf. rewrite (low_items_filter t d Hwf), filter_In. unfold quantity_below.
  split.
  - intros [_ H]. destruct (dict_get k d) as [q |]; [eauto | discriminate].
  - intros (q & Hq & Hlt). rewrite Hq. split; [| exact Hlt].
    destruct (in_dec string_dec k (dict_keys d)) as [Hin | Hout]; [exact Hin |].
    apply dict_get_absent in Hout. congruence.
Qed.

Lemma check_low_items_inv (threshold : value) (w w0 : world) (low : list string) :
  check_low_items threshold w = (Return low, w0) ->
  exists t, as_number threshold = Some t /\ low = low_items t (stock_data w).
Proof.
  unfold_py. destruct (as_number threshold) as [t |]; [| discriminate].
  destruct (num_lt t (NInt 0)); [discriminate |].
  intros [= <- _]. eauto.
Qed.

Lemma fle_num_le (x y : pyfloat) : num_le (NFloat x) (NFloat y) = fle x y.
Proof. reflexivity. Qed.

(** X23: an addition puts no item of the inventory on the list of
    low items. On an inventory with distinct keys of floats none of which
    is below zero, after an [add_item] that succeeds, every name that
    [check_low_items] reports and that was in the inventory before was
    reported before, for the same threshold; only an item that is new can
    join the list. *)
Theorem add_item_low_items
        (w w' : world) (item qty threshold : value) (low low' : list string) :
  dict_wf (stock_data w) -> dict_valid (stock_data w) ->
  none_negative (stock_data w) ->
  value_wf qty -> value_wf threshold ->
  add_item item qty w = (Return tt, w') ->
  check_low_items threshold w = (Return low, w) ->
  check_low_items threshold w' = (Return low', w') ->
  forall k, In k low' -> dict_contains k (stock_data w) = true -> In k low.
Proof.
  intros Hwf Hval Hnn Wq Wt Hadd Hlow Hlow' k Hin Hk.
  destruct (add_item_inv w item qty w' Hadd) as (name & n & f & -> & Hn & Hlt & Hf & ->).
  destruct (check_low_items_inv _ _ _ _ Hlow) as (t & Ht & ->).
  destruct (check_low_items_inv _ _ _ _ Hlow') as (t' & Ht' & ->).
  rewrite Ht in Ht'. injection Ht' as <-. cbn [stock_data] in Hin.
  unfold value_wf in Wq, Wt. rewrite Hn in Wq. rewrite Ht in Wt.
  apply low_items_In in Hin; [| auto using dict_set_wf].
  destruct Hin as (q' & Hq' & Hbelow).
  apply low_items_In; [exact Hwf |].
  destruct (string_dec name k) as [<- | Hne].
  - rewrite dict_get_set_eq in Hq'. injection Hq' as <-.
    unfold dict_contains in Hk. unfold dict_get_default in Hbelow.
    destruct (dict_get name (stock_data w)) as [a |] eqn:Ha; [| discriminate Hk].
    exists a. split; [reflexivity |].
    pose proof (dict_get_Forall name _ a _ Hval Ha) as Va. cbn [snd] in Va.
    pose proof (dict_get_Forall name _ a _ Hnn Ha) as Na. cbn [snd] in Na.
    pose proof (to_float_valid n f Wq Hf) as Vf.
    pose proof (to_float_not_negative n f Hlt Hf) as Nf.
    destruct (not_negative_cases a Na) as [-> | Hge];
      [rewrite num_lt_nan in Hbelow; discriminate Hbelow |].
    destruct (not_negative_cases f Nf) as [-> | Hgf];
      [rewrite fadd_nan, num_lt_nan in Hbelow; discriminate Hbelow |].
    apply (num_le_lt_trans (NFloat a) (NFloat (fadd a f)) t); cbn [number_wf];
      auto using FloatFacts.fadd_valid.
    rewrite fle_num_le. apply fadd_ge; assumption.
  - rewrite dict_get_set_ne in Hq' by exact Hne. eauto.
Qed.

Lemma add_item_low_items_witness :
  In "banana"
     (low_items (NInt 9) (stock_data (sample_world []))).
Proof.
  apply (add_item_low_items
           (sample_world [])
           (snd (add_item (VStr "apple") (VInt 1) (sample_world [])))
           (VStr "apple") (VInt 1) (VInt 9)
           (low_items (NInt 9) (stock_data (sample_world []))) ["banana"]);
    first [exact sample_stock_wf | reflexivity | exact I | repeat constructor].
Defined.

(** X24: a removal takes no remaining item off the list of low
    items. On an inventory with distinct keys of floats none of which is
    below zero, after a [remove_item] of a finite amount [qty > 0] that
    succeeds, every name that [check_low_items] reported before and that
    is still in the inventory is reported again, for the same threshold;
    only the item that was deleted leaves the list. *)
Theorem remove_item_low_items
        (w w' : world) (name : string) (qty threshold : value) (n : number)
        (f : pyfloat) (low low' : list string) :
  dict_wf (stock_data w) -> dict_valid (stock_data w) ->
  none_negative (stock_data w) ->
  as_number qty = Some n -> number_wf n ->
  num_gt n (NInt 0) = true ->
  to_float n = inr f ->
  flt f (S754_infinity false) = true ->
  value_wf threshold ->
  remove_item (VStr name) qty w = (Return tt, w') ->
  check_low_items threshold w = (Return low, w) ->
  check_low_items threshold w' = (Return low', w') ->
  forall k, In k low -> dict_contains k (stock_data w') = true -> In k low'.
Proof.
  intros Hwf Hval Hnn Hn Wn Hgt Hf Hfin Wt Hrem Hlow Hlow' k Hin Hk.
  destruct (check_low_items_inv _ _ _ _ Hlow) as (t & Ht & ->).
  destruct (check_low_items_inv _ _ _ _ Hlow') as (t' & Ht' & ->).
  rewrite Ht in Ht'. injection Ht' as <-.
  unfold value_wf in Wt. rewrite Ht in Wt.
  apply low_items_In in Hin; [| exact Hwf].
  destruct Hin as (q & Hq & Hbelow).
  assert (Hwf' : dict_wf (stock_data w')).
  { destruct (remove_item_inv w _ qty w' Hrem) as (name' & new_qty & _ & _ & H).
    destruct H as [[_ ->] | [_ ->]]; cbn [stock_data];
      auto using dict_set_wf, dict_del_wf. }
  apply low_items_In; [exact Hwf' |].
  destruct (string_dec name k) as [<- | Hne].
  - unfold dict_contains in Hk.
    destruct (dict_get name (stock_data w')) as [q' |] eqn:Hq'; [| discriminate Hk].
    exists q'. split; [reflexivity |].
    pose proof (dict_get_Forall name _ q _ Hval Hq) as Vq. cbn [snd] in Vq.
    pose proof (dict_get_Forall name _ q _ Hnn Hq) as Nq. cbn [snd] in Nq.
    destruct (not_negative_cases q Nq) as [-> | Hge];
      [rewrite num_lt_nan in Hbelow; discriminate Hbelow |].
    destruct (str_bool (strip name)) eqn:Hs.
    2:{ unfold_py_in Hrem. cbn [as_str] in Hrem. rewrite Hs in Hrem. discriminate Hrem. }
    pose proof Hrem as Hrun.
    rewrite (remove_item_run w name q qty n f) in Hrun
      by auto using num_gt_zero_not_le.
    destruct (flt (fsub q f) fzero) eqn:Hneg; [discriminate Hrun |].
    destruct (feq (fsub q f) fzero) eqn:Hzero; injection Hrun as <-;
      cbn [stock_data] in Hq'.
    + rewrite dict_get_del_eq in Hq'. discriminate Hq'.
    + rewrite dict_get_set_eq in Hq'. injection Hq' as <-.
      destruct (to_float_positive n f Hgt Hf Hfin) as (m & e & ->).
      pose proof (to_float_valid n _ Wn Hf) as Vf.
      apply (num_le_lt_trans _ (NFloat q) t); cbn [number_wf];
        auto using FloatFacts.fsub_valid.
      rewrite fle_num_le. apply fsub_le; try assumption; reflexivity.
  - exists q. split; [| exact Hbelow]. rewrite <- Hq.
    destruct (remove_item_inv w _ qty w' Hrem) as (name' & new_qty & [= <-] & _ & H).
    destruct H as [[_ ->] | [_ ->]]; cbn [stock_data].
    + apply dict_get_del_ne, Hne.
    + apply dict_get_set_ne, Hne.
Qed.

Lemma remove_item_low_items_witness :
  In "banana"
     (low_items (NInt 7)
                (stock_data (snd (remove_item (VStr "apple") (VInt 2)
                                              (sample_world []))))).
Proof.
  apply (remove_item_low_items
           (sample_world [])
           (snd (remove_item (VStr "apple") (VInt 2) (sample_world [])))
           "apple" (VInt 2) (VInt 7) (NInt 2) (float_of_Z 2) ["banana"]
           (low_items (NInt 7)
                      (stock_data (snd (remove_item (VStr "apple") (VInt 2)
                                                    (sample_world [])))))
           sample_stock_wf);
    first [reflexivity | exact I | repeat constructor].
Defined.

(** ** The run of [main] from any inventory *)











